(** * Verification of [core/time.py]

    A shallow embedding of the time-expression parser of the modmail
    bot ([ShortTime], [HumanTime], [Time], [FutureTime],
    [UserFriendlyTime] and [human_timedelta]) together with the parts of
    the Python runtime it leans on: [str] slicing and stripping, the
    backtracking [re] matcher, [datetime]/[timedelta] arithmetic and
    dateutil's [relativedelta].

    Conventions.
    - A Python [str] is a Rocq [string]; each [ascii] is read as the code
      point 0..255 it encodes, so the Danish letter U+00E5 is the single
      character ["229"%char].
    - Python [int] is [Z]; offsets into a string are [nat].
    - A computation that may raise is a value of [result]; [Raise e] is
      the exception, [Ok v] the returned value.
    - [datetime.utcnow()] is the only clock read; every entry point takes
      the reading as an argument ([now], or [utcnow] where [now] names
      an attribute).
    - Line numbers in comments are those of [core/time.py].
    - The natural-language engine (parsedatetime) and the optional
      secondary converter are collaborators outside this module: they are
      section variables, and every theorem holds for all of them. *)

From Stdlib Require Import ZArith String Ascii List Bool Lia DecimalString.
From stdpp Require Import gmap strings.

Open Scope string_scope.
Open Scope Z_scope.

(** ** Exceptions and the error monad *)

Inductive exn : Type :=
| BadArgument (msg : string)
| ValueError (msg : string)
| OverflowError (msg : string)
| IndexError (msg : string)
| AttributeError (msg : string)
| OtherException (class_name msg : string).

Inductive result (A : Type) : Type :=
| Ok (a : A)
| Raise (e : exn).

Arguments Ok {A} a.
Arguments Raise {A} e.

Definition bind {A B : Type} (c : result A) (f : A -> result B) : result B :=
  match c with
  | Ok a => f a
  | Raise e => Raise e
  end.

Notation "x <- c ;; k" := (bind c (fun x => k))
  (at level 100, c at next level, right associativity).

(** ** Python [str] operations *)

Module Str.

(** [s[n:]] *)
Fixpoint from (n : nat) (s : string) : string :=
  match n, s with
  | O, _ => s
  | S n', String _ s' => from n' s'
  | S _, EmptyString => EmptyString
  end.

(** [s[:n]] *)
Fixpoint upto (n : nat) (s : string) : string :=
  match n, s with
  | O, _ => EmptyString
  | S n', String a s' => String a (upto n' s')
  | S _, EmptyString => EmptyString
  end.

(** [s[a:b]] for [0 <= a], [0 <= b] *)
Definition slice (a b : nat) (s : string) : string :=
  upto (b - a) (from a s).

(** [s[:-n]] for a literal [n > 0]: everything but the last [n]
    characters, the empty string when [s] is shorter than [n]. *)
Definition upto_neg (n : nat) (s : string) : string :=
  upto (String.length s - n) s.

(** [s[n]] *)
Definition index (n : nat) (s : string) : result ascii :=
  match String.get n s with
  | Some c => Ok c
  | None => Raise (IndexError "string index out of range")
  end.

Definition startswith (p s : string) : bool := String.prefix p s.

Definition endswith (p s : string) : bool :=
  (String.length p <=? String.length s)%nat
  && String.eqb (from (String.length s - String.length p) s) p.

(** [c in chars] *)
Fixpoint mem (c : ascii) (chars : string) : bool :=
  match chars with
  | EmptyString => false
  | String a chars' => Ascii.eqb c a || mem c chars'
  end.

(** [x in xs] for a list of strings *)
Definition mem_list (x : string) (xs : list string) : bool :=
  existsb (String.eqb x) xs.

(** [s.lstrip(chars)] *)
Fixpoint lstrip_chars (chars : string) (s : string) : string :=
  match s with
  | EmptyString => EmptyString
  | String a s' => if mem a chars then lstrip_chars chars s' else s
  end.

(** [str.isspace] on the code points 0..255: TAB, LF, VT, FF, CR, the
    separators FS, GS, RS, US, SPACE, NEL and NO-BREAK SPACE. *)
Definition isspace (c : ascii) : bool :=
  let n := nat_of_ascii c in
  ((9 <=? n) && (n <=? 13) || (28 <=? n) && (n <=? 32)
   || (n =? 133) || (n =? 160))%nat.

Fixpoint lstrip (s : string) : string :=
  match s with
  | EmptyString => EmptyString
  | String a s' => if isspace a then lstrip s' else s
  end.

(** [s.rstrip()]: a character is kept when it is not a space or when
    something is kept after it. *)
Fixpoint rstrip (s : string) : string :=
  match s with
  | EmptyString => EmptyString
  | String a s' =>
      match rstrip s' with
      | EmptyString => if isspace a then EmptyString else String a EmptyString
      | t => String a t
      end
  end.

(** [s.strip()] *)
Definition strip (s : string) : string := rstrip (lstrip s).

(** [bool(s)] *)
Definition truthy (s : string) : bool :=
  match s with
  | EmptyString => false
  | String _ _ => true
  end.

(** [int(s)] on a string of decimal digits *)
Definition digit_val (c : ascii) : Z := Z.of_nat (nat_of_ascii c) - 48.

Fixpoint int_acc (acc : Z) (s : string) : Z :=
  match s with
  | EmptyString => acc
  | String c s' => int_acc (10 * acc + digit_val c) s'
  end.

Definition int (s : string) : Z := int_acc 0 s.

(** [str(n)] for an [int] *)
Definition of_int (n : Z) : string := NilZero.string_of_int (Z.to_int n).

End Str.

(** ** The backtracking matcher of [re]

    The fragment of the pattern language that [ShortTime.compiled] uses:
    literals, a character range, concatenation, ordered alternation,
    the greedy quantifiers [?] and [{lo,hi}], and named groups.  The
    matcher is written in continuation-passing style: [k] is "the rest of
    the pattern", and a [None] from it makes the matcher try its next
    choice, which is how [re] backtracks. *)

Module Re.

Inductive regex : Type :=
| Eps
| Chr (c : ascii)
| Range (lo hi : ascii)
| Cat (r1 r2 : regex)
| Alt (r1 r2 : regex)
| Opt (r : regex)
| Rep (lo hi : nat) (r : regex)
| Group (name : string) (r : regex).

(** a literal word *)
Fixpoint lit (w : string) : regex :=
  match w with
  | EmptyString => Eps
  | String c w' => Cat (Chr c) (lit w')
  end.

Definition in_range (lo hi c : ascii) : bool :=
  ((nat_of_ascii lo <=? nat_of_ascii c) && (nat_of_ascii c <=? nat_of_ascii hi))%nat.

(** the text between two positions, both given as "what is left" *)
Definition consumed (s rest : string) : string :=
  Str.upto (String.length s - String.length rest) s.

Section Run.
Context {R : Type}.

(** what is threaded through a match: the text left and the groups
    set so far *)
Definition cont : Type := string -> gmap string string -> option R.

(** [r{lo,hi}], greedy: one more [r] is tried before stopping *)
Fixpoint rep (body : string -> gmap string string -> cont -> option R)
    (lo hi : nat) (s : string) (caps : gmap string string) (k : cont)
    {struct hi} : option R :=
  match hi with
  | O => match lo with O => k s caps | S _ => None end
  | S hi' =>
      match body s caps (fun s1 c1 => rep body (Nat.pred lo) hi' s1 c1 k) with
      | Some x => Some x
      | None => match lo with O => k s caps | S _ => None end
      end
  end.

Fixpoint run (r : regex) (s : string) (caps : gmap string string)
    (k : cont) {struct r} : option R :=
  match r with
  | Eps => k s caps
  | Chr c =>
      match s with
      | String a s' => if Ascii.eqb a c then k s' caps else None
      | EmptyString => None
      end
  | Range lo hi =>
      match s with
      | String a s' => if in_range lo hi a then k s' caps else None
      | EmptyString => None
      end
  | Cat r1 r2 => run r1 s caps (fun s1 c1 => run r2 s1 c1 k)
  | Alt r1 r2 =>
      match run r1 s caps k with
      | Some x => Some x
      | None => run r2 s caps k
      end
  | Opt r1 =>
      match run r1 s caps k with
      | Some x => Some x
      | None => k s caps
      end
  | Rep lo hi r1 => rep (run r1) lo hi s caps k
  | Group name r1 =>
      run r1 s caps (fun s1 c1 => k s1 (<[name := consumed s s1]> c1))
  end.
End Run.

(** the names of the groups of a pattern, in pattern order *)
Fixpoint group_names (r : regex) : list string :=
  match r with
  | Eps | Chr _ | Range _ _ => []
  | Cat r1 r2 | Alt r1 r2 => group_names r1 ++ group_names r2
  | Opt r1 | Rep _ _ r1 => group_names r1
  | Group name r1 => name :: group_names r1
  end.

(** A match object of a match that starts at offset 0. *)
Record match_object : Type := MatchObject {
  pattern : regex;
  group0 : string;                    (* match.group(0) *)
  m_end : nat;                        (* match.end() *)
  groups : gmap string string         (* the named groups that took part *)
}.

(** [pattern.match(s)] *)
Definition re_match (r : regex) (s : string) : option match_object :=
  run r s ∅ (fun rest caps =>
    Some (MatchObject r (consumed s rest)
            (String.length s - String.length rest) caps)).

(** [pattern.fullmatch(s)] *)
Definition fullmatch (r : regex) (s : string) : option match_object :=
  run r s ∅ (fun rest caps =>
    match rest with
    | EmptyString => Some (MatchObject r s (String.length s) caps)
    | String _ _ => None
    end).

(** [match.groupdict(default=d)] *)
Definition groupdict (d : string) (m : match_object) : gmap string string :=
  list_to_map
    (map (fun name => (name, default d (groups m !! name)))
         (group_names (pattern m))).

End Re.

(** ** [datetime] and [timedelta]

    Naive (timezone-free) datetimes, as [datetime.utcnow()] and the
    natural-language engine produce them.  The functions follow CPython's
    [datetime.py]. *)

Module Datetime.

Record datetime : Type := mkDatetime {
  year : Z; month : Z; day : Z;
  hour : Z; minute : Z; second : Z; microsecond : Z
}.

Definition MINYEAR : Z := 1.
Definition MAXYEAR : Z := 9999.
Definition MAXORDINAL : Z := 3652059.

Definition is_leap (y : Z) : bool :=
  (y mod 4 =? 0) && (negb (y mod 100 =? 0) || (y mod 400 =? 0)).

(** [_DAYS_IN_MONTH[m]] and [_DAYS_BEFORE_MONTH[m]], with the placeholder
    [-1] at index 0 *)
Definition DAYS_IN_MONTH (m : Z) : Z :=
  nth (Z.to_nat m) [-1; 31; 28; 31; 30; 31; 30; 31; 31; 30; 31; 30; 31] 0.

Definition DAYS_BEFORE_MONTH (m : Z) : Z :=
  nth (Z.to_nat m) [-1; 0; 31; 59; 90; 120; 151; 181; 212; 243; 273; 304; 334] 0.

Definition days_before_year (y : Z) : Z :=
  let y := y - 1 in y * 365 + y / 4 - y / 100 + y / 400.

Definition days_in_month (y m : Z) : Z :=
  if (m =? 2) && is_leap y then 29 else DAYS_IN_MONTH m.

Definition days_before_month (y m : Z) : Z :=
  DAYS_BEFORE_MONTH m + (if (2 <? m) && is_leap y then 1 else 0).

Definition ymd2ord (y m d : Z) : Z :=
  days_before_year y + days_before_month y m + d.

Definition DI400Y : Z := Eval cbv in days_before_year 401.
Definition DI100Y : Z := Eval cbv in days_before_year 101.
Definition DI4Y : Z := Eval cbv in days_before_year 5.

Definition ord2ymd (n : Z) : Z * Z * Z :=
  let n := n - 1 in
  let n400 := n / DI400Y in
  let n := n mod DI400Y in
  let y := n400 * 400 + 1 in
  let n100 := n / DI100Y in
  let n := n mod DI100Y in
  let n4 := n / DI4Y in
  let n := n mod DI4Y in
  let n1 := n / 365 in
  let n := n mod 365 in
  let y := y + (n100 * 100 + n4 * 4 + n1) in
  if (n1 =? 4) || (n100 =? 4) then (y - 1, 12, 31)
  else
    let leapyear := (n1 =? 3) && (negb (n4 =? 24) || (n100 =? 3)) in
    let m := Z.shiftr (n + 50) 5 in
    let preceding :=
      DAYS_BEFORE_MONTH m + (if (2 <? m) && leapyear then 1 else 0) in
    if n <? preceding then
      let m := m - 1 in
      let preceding :=
        preceding - (DAYS_IN_MONTH m + (if (m =? 2) && leapyear then 1 else 0)) in
      (y, m, n - preceding + 1)
    else (y, m, n - preceding + 1).

Definition check_date_fields (y m d : Z) : result unit :=
  if negb ((MINYEAR <=? y) && (y <=? MAXYEAR)) then
    Raise (ValueError "year is out of range")
  else if negb ((1 <=? m) && (m <=? 12)) then
    Raise (ValueError "month must be in 1..12")
  else if negb ((1 <=? d) && (d <=? days_in_month y m)) then
    Raise (ValueError "day is out of range for month")
  else Ok tt.

Definition check_time_fields (h mi s us : Z) : result unit :=
  if negb ((0 <=? h) && (h <=? 23)) then
    Raise (ValueError "hour must be in 0..23")
  else if negb ((0 <=? mi) && (mi <=? 59)) then
    Raise (ValueError "minute must be in 0..59")
  else if negb ((0 <=? s) && (s <=? 59)) then
    Raise (ValueError "second must be in 0..59")
  else if negb ((0 <=? us) && (us <=? 999999)) then
    Raise (ValueError "microsecond must be in 0..999999")
  else Ok tt.

(** the constructor [datetime(year, month, day, hour, minute, second,
    microsecond)] *)
Definition new (y m d h mi s us : Z) : result datetime :=
  _ <- check_date_fields y m d ;;
  _ <- check_time_fields h mi s us ;;
  Ok (mkDatetime y m d h mi s us).

(** every datetime object went through the constructor *)
Definition valid (dt : datetime) : Prop :=
  new (year dt) (month dt) (day dt)
      (hour dt) (minute dt) (second dt) (microsecond dt) = Ok dt.

(** [dt.replace(...)]; [None] stands for an omitted keyword *)
Definition replace (dt : datetime)
    (y m d h mi s us : option Z) : result datetime :=
  new (default (year dt) y) (default (month dt) m) (default (day dt) d)
      (default (hour dt) h) (default (minute dt) mi)
      (default (second dt) s) (default (microsecond dt) us).

(** comparison of naive datetimes: the field tuples, lexicographically *)
Definition fields (dt : datetime) : list Z :=
  [year dt; month dt; day dt; hour dt; minute dt; second dt; microsecond dt].

Fixpoint lex (xs ys : list Z) : comparison :=
  match xs, ys with
  | [], [] => Eq
  | [], _ :: _ => Lt
  | _ :: _, [] => Gt
  | x :: xs', y :: ys' =>
      match x ?= y with
      | Eq => lex xs' ys'
      | c => c
      end
  end.

Definition cmp (a b : datetime) : comparison := lex (fields a) (fields b).

(** [a < b], [a > b], [a <= b] *)
Definition lt (a b : datetime) : bool :=
  match cmp a b with Lt => true | _ => false end.
Definition gt (a b : datetime) : bool :=
  match cmp a b with Gt => true | _ => false end.
Definition le (a b : datetime) : bool :=
  match cmp a b with Gt => false | _ => true end.

Record timedelta : Type := mkTimedelta {
  td_days : Z; td_seconds : Z; td_microseconds : Z
}.

(** [timedelta(days, seconds, microseconds, minutes=, hours=)] on ints:
    the normalisation to [0 <= seconds < 86400],
    [0 <= microseconds < 1000000] *)
Definition timedelta_new (days seconds microseconds minutes hours : Z)
    : result timedelta :=
  let seconds := seconds + (minutes * 60 + hours * 3600) in
  let d := days in
  let d := d + seconds / 86400 in
  let s := seconds mod 86400 in
  let seconds := microseconds / 1000000 in
  let microseconds := microseconds mod 1000000 in
  let d := d + seconds / 86400 in
  let s := s + seconds mod 86400 in
  let s := s + microseconds / 1000000 in
  let us := microseconds mod 1000000 in
  let d := d + s / 86400 in
  let s := s mod 86400 in
  if 999999999 <? Z.abs d then
    Raise (OverflowError "timedelta # of days is too large")
  else Ok (mkTimedelta d s us).

Definition timedelta_add (a b : timedelta) : result timedelta :=
  timedelta_new (td_days a + td_days b) (td_seconds a + td_seconds b)
    (td_microseconds a + td_microseconds b) 0 0.

Definition toordinal (dt : datetime) : Z :=
  ymd2ord (year dt) (month dt) (day dt).

(** [datetime + timedelta] *)
Definition add (dt : datetime) (other : timedelta) : result datetime :=
  delta <- timedelta_new (toordinal dt) (second dt) (microsecond dt)
             (minute dt) (hour dt) ;;
  delta <- timedelta_add delta other ;;
  let h := td_seconds delta / 3600 in
  let rem := td_seconds delta mod 3600 in
  let mi := rem / 60 in
  let s := rem mod 60 in
  if (0 <? td_days delta) && (td_days delta <=? MAXORDINAL) then
    let '(y, m, d) := ord2ymd (td_days delta) in
    new y m d h mi s (td_microseconds delta)
  else Raise (OverflowError "date value out of range").

(** [datetime - datetime] *)
Definition sub (a b : datetime) : result timedelta :=
  let secs1 := second a + minute a * 60 + hour a * 3600 in
  let secs2 := second b + minute b * 60 + hour b * 3600 in
  timedelta_new (toordinal a - toordinal b) (secs1 - secs2)
    (microsecond a - microsecond b) 0 0.

End Datetime.

(** ** dateutil's [relativedelta]

    Only the relative fields are kept: every delta this module builds
    leaves the absolute fields ([year], [month], ...) and [weekday] at
    [None] and [leapdays] at 0, and the branches of dateutil that read
    them are dropped accordingly. *)

Module Relativedelta.
Import Datetime.

Record relativedelta : Type := mkRelativedelta {
  years : Z; months : Z; days : Z;
  hours : Z; minutes : Z; seconds : Z; microseconds : Z
}.

(** [_sign(x) = int(copysign(1, x))] *)
Definition sign (x : Z) : Z := if x <? 0 then -1 else 1.

(** one carry of [_fix]: [if abs(lo) > bound: s = _sign(lo);
    div, mod = divmod(lo * s, base); lo = mod * s; hi += div * s] *)
Definition carry (bound base lo hi : Z) : Z * Z :=
  if bound <? Z.abs lo then
    let s := sign lo in
    ((lo * s) mod base * s, hi + (lo * s) / base * s)
  else (lo, hi).

(** [relativedelta._fix] *)
Definition fix_ (rd : relativedelta) : relativedelta :=
  let '(us, s) := carry 999999 1000000 (microseconds rd) (seconds rd) in
  let '(s, mi) := carry 59 60 s (minutes rd) in
  let '(mi, h) := carry 59 60 mi (hours rd) in
  let '(h, d) := carry 23 24 h (days rd) in
  let '(mo, y) := carry 11 12 (months rd) (years rd) in
  mkRelativedelta y mo d h mi s us.

(** [relativedelta(years=, months=, days=, weeks=, hours=, minutes=,
    seconds=, microseconds=)] *)
Definition new (years months days weeks hours minutes seconds microseconds : Z)
    : relativedelta :=
  fix_ (mkRelativedelta years months (days + weeks * 7)
          hours minutes seconds microseconds).

(** [relativedelta] called with the dictionary [data] as its keywords;
    a keyword that is not in the dictionary keeps the default 0 of the
    signature *)
Definition of_kwargs (data : gmap string Z) : relativedelta :=
  new (default 0 (data !! "years")) (default 0 (data !! "months"))
      (default 0 (data !! "days")) (default 0 (data !! "weeks"))
      (default 0 (data !! "hours")) (default 0 (data !! "minutes"))
      (default 0 (data !! "seconds")) 0.

(** [relativedelta + relativedelta] *)
Definition add (self other : relativedelta) : relativedelta :=
  new (years other + years self) (months other + months self)
      (days other + days self) 0
      (hours other + hours self) (minutes other + minutes self)
      (seconds other + seconds self) (microseconds other + microseconds self).

(** [calendar.monthrange(year, month)[1]] *)
Definition monthrange_ndays (y m : Z) : Z :=
  DAYS_IN_MONTH m + (if (m =? 2) && is_leap y then 1 else 0).

(** [datetime + relativedelta] ([relativedelta.__radd__]) *)
Definition radd (self : relativedelta) (other : datetime) : result datetime :=
  let y := year other + years self in
  let m := month other in
  let '(y, m) :=
    if months self =? 0 then (y, m)
    else
      let m := m + months self in
      if 12 <? m then (y + 1, m - 12)
      else if m <? 1 then (y - 1, m + 12)
      else (y, m) in
  let d := Z.min (monthrange_ndays y m) (day other) in
  base <- replace other (Some y) (Some m) (Some d) None None None None ;;
  td <- timedelta_new (days self) (seconds self) (microseconds self)
          (minutes self) (hours self) ;;
  Datetime.add base td.

(** [relativedelta._set_months] *)
Definition set_months (rd : relativedelta) (m : Z) : relativedelta :=
  if 11 <? Z.abs m then
    let s := sign m in
    mkRelativedelta ((m * s) / 12 * s) ((m * s) mod 12 * s) (days rd)
      (hours rd) (minutes rd) (seconds rd) (microseconds rd)
  else
    mkRelativedelta 0 m (days rd)
      (hours rd) (minutes rd) (seconds rd) (microseconds rd).

Definition zero : relativedelta := mkRelativedelta 0 0 0 0 0 0 0.

(** The adjustment loop of [relativedelta(dt1, dt2)]:
    [while compare(dt1, dtm): months += increment; ...].  [fuel] bounds
    the number of iterations; [None] reports that it ran out. *)
Fixpoint adjust (fuel : nat) (compare : datetime -> datetime -> bool)
    (increment : Z) (dt1 dt2 : datetime) (m : Z) (dtm : datetime)
    : option (result (Z * datetime)) :=
  if compare dt1 dtm then
    match fuel with
    | O => None
    | S fuel' =>
        let m := m + increment in
        match radd (set_months zero m) dt2 with
        | Ok dtm' => adjust fuel' compare increment dt1 dt2 m dtm'
        | Raise e => Some (Raise e)
        end
    end
  else Some (Ok (m, dtm)).

(** [relativedelta(dt1, dt2)]: the delta between two datetimes.  The
    loop moves [months] towards 0 from its first estimate, so the
    estimate's size plus one is fuel enough. *)
Definition between (dt1 dt2 : datetime) : option (result relativedelta) :=
  let m := (year dt1 - year dt2) * 12 + (month dt1 - month dt2) in
  match radd (set_months zero m) dt2 with
  | Raise e => Some (Raise e)
  | Ok dtm =>
      let '(compare, increment) :=
        if Datetime.lt dt1 dt2 then (Datetime.gt, 1) else (Datetime.lt, -1) in
      match adjust (S (Z.to_nat (Z.abs m))) compare increment dt1 dt2 m dtm with
      | None => None
      | Some (Raise e) => Some (Raise e)
      | Some (Ok (m, dtm)) =>
          Some (delta <- Datetime.sub dt1 dtm ;;
                let rd := set_months zero m in
                Ok (fix_ (mkRelativedelta (years rd) (months rd) 0 0 0
                            (td_seconds delta + td_days delta * 86400)
                            (td_microseconds delta))))
      end
  end.

(** The attributes of a [relativedelta] instance.  The relative fields
    hold ints, the absolute ones are [None] here; a method name is not
    in the table. *)
Inductive attr_value : Type :=
| AInt (n : Z)
| ANone.

Definition getattr (rd : relativedelta) (name : string) : result attr_value :=
  if String.eqb name "years" then Ok (AInt (years rd))
  else if String.eqb name "months" then Ok (AInt (months rd))
  else if String.eqb name "days" then Ok (AInt (days rd))
  else if String.eqb name "leapdays" then Ok (AInt 0)
  else if String.eqb name "hours" then Ok (AInt (hours rd))
  else if String.eqb name "minutes" then Ok (AInt (minutes rd))
  else if String.eqb name "seconds" then Ok (AInt (seconds rd))
  else if String.eqb name "microseconds" then Ok (AInt (microseconds rd))
  else if String.eqb name "weeks" then Ok (AInt (Z.quot (days rd) 7))
  else if Str.mem_list name
            ["year"; "month"; "day"; "weekday";
             "hour"; "minute"; "second"; "microsecond"] then Ok ANone
  else Raise (AttributeError
                ("'relativedelta' object has no attribute '" +:+ name +:+ "'")).

End Relativedelta.

(** ** parsedatetime's [pdtContext]

    The status object of the natural-language engine: a set of accuracy
    flags.  [ACU_HALFDAY] is one of the time flags. *)

Module PdtContext.

Record pdtContext : Type := mkContext { accuracy : Z }.

Definition ACU_YEAR : Z := 1.
Definition ACU_MONTH : Z := 2.
Definition ACU_WEEK : Z := 4.
Definition ACU_DAY : Z := 8.
Definition ACU_HALFDAY : Z := 16.
Definition ACU_HOUR : Z := 32.
Definition ACU_MIN : Z := 64.
Definition ACU_SEC : Z := 128.
Definition ACU_NOW : Z := 256.

Definition ACU_DATE : Z :=
  Z.lor ACU_YEAR (Z.lor ACU_MONTH (Z.lor ACU_WEEK ACU_DAY)).
Definition ACU_TIME : Z :=
  Z.lor ACU_HALFDAY (Z.lor ACU_HOUR (Z.lor ACU_MIN (Z.lor ACU_SEC ACU_NOW))).

Definition hasDate (c : pdtContext) : bool :=
  negb (Z.land (accuracy c) ACU_DATE =? 0).
Definition hasTime (c : pdtContext) : bool :=
  negb (Z.land (accuracy c) ACU_TIME =? 0).
Definition hasDateOrTime (c : pdtContext) : bool :=
  negb (accuracy c =? 0).

End PdtContext.

Definition dquote : ascii := "034"%char.

(** ** [class ShortTime] *)

Module ShortTime.
Import Re.

Definition digit : regex := Range "0" "9".

(** [(?:(?P<name>number)(?:suffix))?] *)
Definition unit_group (name : string) (number suffix : regex) : regex :=
  Opt (Cat (Group name number) suffix).

(** [word s?] *)
Definition plural (word : string) : regex := Cat (lit word) (Opt (Chr "s")).

(** The pattern, written with [re.VERBOSE]:
<<
   (?:(?P<years>[0-9])(?:years?|y))?
   (?:(?P<months>[0-9]{1,2})(?:months?|mo))?
   (?:(?P<weeks>[0-9]{1,4})(?:weeks?|w))?
   (?:(?P<days>[0-9]{1,5})(?:days?|d))?
   (?:(?P<hours>[0-9]{1,5})(?:hours?|h))?
   (?:(?P<minutes>[0-9]{1,5})(?:min(?:ute)?s?|m))?
   (?:(?P<seconds>[0-9]{1,5})(?:sec(?:ond)?s?|s))?
>> *)
Definition compiled : regex :=
  Cat (unit_group "years" digit (Alt (plural "year") (Chr "y")))
 (Cat (unit_group "months" (Rep 1 2 digit) (Alt (plural "month") (lit "mo")))
 (Cat (unit_group "weeks" (Rep 1 4 digit) (Alt (plural "week") (Chr "w")))
 (Cat (unit_group "days" (Rep 1 5 digit) (Alt (plural "day") (Chr "d")))
 (Cat (unit_group "hours" (Rep 1 5 digit) (Alt (plural "hour") (Chr "h")))
 (Cat (unit_group "minutes" (Rep 1 5 digit)
         (Alt (Cat (lit "min") (Cat (Opt (lit "ute")) (Opt (Chr "s"))))
              (Chr "m")))
      (unit_group "seconds" (Rep 1 5 digit)
         (Alt (Cat (lit "sec") (Cat (Opt (lit "ond")) (Opt (Chr "s"))))
              (Chr "s")))))))).

(** [{k: int(v) for k, v in match.groupdict(default="0").items()}] *)
Definition data_of (m : match_object) : gmap string Z :=
  Str.int <$> groupdict "0" m.

Record t : Type := mk { dt : Datetime.datetime }.

Definition __init__ (now : Datetime.datetime) (argument : string) : result t :=
  match fullmatch compiled argument with
  | None => Raise (BadArgument "invalid time provided")
  | Some m =>
      if negb (Str.truthy (group0 m)) then
        Raise (BadArgument "invalid time provided")
      else
        let data := data_of m in
        dt <- Relativedelta.radd (Relativedelta.of_kwargs data) now ;;
        Ok (mk dt)
  end.

End ShortTime.

(** ** [class HumanTime], [class Time], [class FutureTime] *)

Module HumanTime.
Import Datetime PdtContext.

Record t : Type := mk { dt : datetime; _past : bool }.

Section Calendar.
(** [calendar.parseDT(argument, sourceTime=now)] of the shared
    [pdt.Calendar(version=pdt.VERSION_CONTEXT_STYLE)] *)
Variable parseDT : string -> datetime -> datetime * pdtContext.

Definition __init__ (now : datetime) (argument : string) : result t :=
  let '(dt, status) := parseDT argument now in
  if negb (hasDateOrTime status) then
    Raise (BadArgument
             ("invalid time provided, try e.g. " +:+ String dquote "tomorrow"
              +:+ String dquote " or " +:+ String dquote "3 days"
              +:+ String dquote EmptyString))
  else
    dt <- (if negb (hasTime status) then
             (* replace it with the current time *)
             replace dt None None None
               (Some (hour now)) (Some (minute now))
               (Some (second now)) (Some (microsecond now))
           else Ok dt) ;;
    Ok (mk dt (lt dt now)).
End Calendar.

End HumanTime.

Module Time.
Import Datetime PdtContext.

Section Calendar.
Variable parseDT : string -> datetime -> datetime * pdtContext.

(** [try: ShortTime(argument) / except Exception: super().__init__ /
    else: ...] *)
Definition __init__ (now : datetime) (argument : string)
    : result HumanTime.t :=
  match ShortTime.__init__ now argument with
  | Raise _ => HumanTime.__init__ parseDT now argument
  | Ok short_time => Ok (HumanTime.mk (ShortTime.dt short_time) false)
  end.
End Calendar.

End Time.

Module FutureTime.
Import Datetime PdtContext.

Section Calendar.
Variable parseDT : string -> datetime -> datetime * pdtContext.

Definition __init__ (now : datetime) (argument : string)
    : result HumanTime.t :=
  self <- Time.__init__ parseDT now argument ;;
  if HumanTime._past self then
    Raise (BadArgument "this time is in the past")
  else Ok self.
End Calendar.

End FutureTime.

(** ** [class UserFriendlyTime] *)

Module UserFriendlyTime.
Import Datetime PdtContext.

(** one element of the tuple [calendar.nlp] returns:
    [(datetime, status, begin, end, matched text)] *)
Definition nlp_element : Type := datetime * pdtContext * nat * nat * string.

(** lines 124-125: [regex.match(argument)], taken when it is not [None]
    and its [group(0)] is not empty *)
Definition short_prefix (argument : string) : option Re.match_object :=
  match Re.re_match ShortTime.compiled argument with
  | Some m => if Str.truthy (Re.group0 m) then Some m else None
  | None => None
  end.

Section Converter.
(** the type of the values the secondary converter produces *)
Context {A : Type}.

(** [self.arg]: the remaining text, or what the converter made of it *)
Inductive arg_value : Type :=
| Remaining (text : string)
| Converted (a : A).

(** the attributes [convert] assigns; [arg] is [None] until
    [check_constraints] sets it *)
Record t : Type := mk {
  raw : string;
  dt : datetime;
  arg : option arg_value;
  now : datetime
}.

Definition set_dt (self : t) (d : datetime) : t :=
  mk (raw self) d (arg self) (now self).
Definition set_arg (self : t) (a : arg_value) : t :=
  mk (raw self) (dt self) (Some a) (now self).

(** [calendar.nlp(argument, sourceTime=now)]: [None], or the tuple of
    the phrases found *)
Variable nlp : string -> datetime -> option (list nlp_element).

(** [self.converter], as [UserFriendlyTime.__init__] stored it (an
    instance of a [Converter], or [None]); a converter returns a value
    or raises *)
Variable converter : option (string -> result A).

Definition check_constraints (self : t) (now : datetime) (remaining : string)
    : result t :=
  if lt (dt self) now then Raise (BadArgument "This time is in the past.")
  else
    match converter with
    | Some c => a <- c remaining ;; Ok (set_arg self (Converted a))
    | None => Ok (set_arg self (Remaining remaining))
    end.

(** lines 134-143: what is done to [argument] before it is given to
    the natural-language engine *)
Definition normalize (argument : string) : string :=
  let argument :=
    if Str.endswith " fra nu" argument
    then Str.strip (Str.upto_neg 9 argument) else argument in
  (* handles "for xxx hours" *)
  let argument :=
    if Str.startswith "for " argument
    then Str.strip (Str.from 4 argument) else argument in
  if String.eqb (Str.slice 0 2 argument) "me" then
    (* starts with "me to", "me in", or "me at " *)
    if Str.mem_list (Str.slice 0 6 argument) ["me to "; "me in "; "me at "]
    then Str.from 6 argument else argument
  else argument.

Definition in_0_1 (begin : nat) : bool := ((begin =? 0) || (begin =? 1))%nat.

Definition location_message : string :=
  "Time is either in an inappropriate location, which must "
  +:+ "be either at the end or beginning of your input, or I "
  +:+ "just flat out did not understand what you meant. Sorry.".

(** The [try: ... except Exception: logger.exception(...); raise] around
    the body re-raises what it caught; the log line is not modelled. *)
Definition convert (utcnow : datetime) (argument : string) : result t :=
  let self := mk argument utcnow None utcnow in
  match short_prefix argument with
  | Some m =>
      let data := ShortTime.data_of m in
      let remaining := Str.strip (Str.from (Re.m_end m) argument) in
      d <- Relativedelta.radd (Relativedelta.of_kwargs data) (now self) ;;
      let self := set_dt self d in
      check_constraints self (now self) remaining
  | None =>
      let argument := normalize argument in
      match nlp argument (now self) with
      | None | Some [] => check_constraints self (now self) argument
      | Some ((d, status, begin, end_, _) :: _) =>
          if negb (hasDateOrTime status) then
            check_constraints self (now self) argument
          else if negb (in_0_1 begin)
                  && negb (end_ =? String.length argument)%nat then
            Raise (BadArgument location_message)
          else
            d <- (if negb (hasTime status) then
                    (* replace it with the current time *)
                    replace d None None None
                      (Some (hour (now self))) (Some (minute (now self)))
                      (Some (second (now self)))
                      (Some (microsecond (now self)))
                  else Ok d) ;;
            (* if midnight is provided, just default to next day *)
            d <- (if accuracy status =? ACU_HALFDAY then
                    replace d None None (Some (day (now self) + 1))
                      None None None None
                  else Ok d) ;;
            let self := set_dt self d in
            remaining <-
              (if in_0_1 begin then
                 if (begin =? 1)%nat then
                   (* check if it's quoted: *)
                   c <- Str.index 0 argument ;;
                   if negb (Ascii.eqb c dquote) then
                     Raise (BadArgument "Expected quote before time input...")
                   else if negb ((end_ <? String.length argument)%nat
                                 && match String.get end_ argument with
                                    | Some c' => Ascii.eqb c' dquote
                                    | None => false
                                    end) then
                     Raise (BadArgument
                              "If the time is quoted, you must unquote it.")
                   else Ok (Str.lstrip_chars " ,.!" (Str.from (end_ + 1) argument))
                 else Ok (Str.lstrip_chars " ,.!" (Str.from end_ argument))
               else if (String.length argument =? end_)%nat then
                 Ok (Str.strip (Str.upto begin argument))
               else Ok EmptyString) ;;
            check_constraints self (now self) remaining
      end
  end.
End Converter.

End UserFriendlyTime.

(** ** [human_timedelta] *)

Module HumanTimedelta.
Import Datetime Relativedelta.

(** U+00E5, LATIN SMALL LETTER A WITH RING ABOVE *)
Definition aring : ascii := "229"%char.

Definition attrs : list string :=
  [String aring "r"; String "m" (String aring "neder"); "dage"; "timer";
   "minutter"; "sekunder"].

(** [bool(n)] for an int *)
Definition truthy (n : Z) : bool := negb (n =? 0).

(** the [for attr in attrs] loop, [output] being the list built so far *)
Fixpoint render (attrs : list string) (delta : relativedelta)
    (output : list string) : result (list string) :=
  match attrs with
  | [] => Ok output
  | attr :: rest =>
      elem <- getattr delta attr ;;
      match elem with
      | ANone => render rest delta output
      | AInt n =>
          if negb (truthy n) then render rest delta output
          else if 1 <? n then
            render rest delta (output ++ [Str.of_int n +:+ " " +:+ attr])
          else
            render rest delta
              (output ++ [Str.of_int n +:+ " " +:+ Str.upto_neg 1 attr])
      end
  end.

(** lines 212-213 *)
Definition round_up (delta : relativedelta) : relativedelta :=
  if truthy (microseconds delta) && truthy (seconds delta)
  then Relativedelta.add delta (Relativedelta.new 0 0 0 0 0 0 1 0)
  else delta.

(** lines 228-234 *)
Definition join (output : list string) (suffix : string) : string :=
  match output with
  | [] => "now"
  | [a] => a +:+ suffix
  | [a; b] => a +:+ " and " +:+ b +:+ suffix
  | a :: b :: c :: _ => a +:+ ", " +:+ b +:+ " and " +:+ c +:+ suffix
  end.

(** [human_timedelta(dt, source=source)]; [utcnow] is the clock reading
    used when [source] is omitted.  The outer [option] is [None] only if
    the loop inside [relativedelta(dt1, dt2)] exhausts its fuel. *)
Definition human_timedelta (utcnow : datetime) (dt : datetime)
    (source : option datetime) : option (result string) :=
  let now := default utcnow source in
  let '(delta, suffix) :=
    if gt dt now then (between dt now, EmptyString)
    else (between now dt, " siden") in
  match delta with
  | None => None
  | Some delta =>
      Some (delta <- delta ;;
            let delta := round_up delta in
            output <- render attrs delta [] ;;
            Ok (join output suffix))
  end.

End HumanTimedelta.

(** * Vocabulary of the statements *)

(** ** The declarative reading of a pattern

    [matches r s c s' c'] : [r] can consume a prefix of [s] leaving [s'],
    turning the groups [c] into [c']. *)

Module ReSpec.
Import Re.

Inductive matches :
  regex -> string -> gmap string string -> string -> gmap string string -> Prop :=
| M_eps s c : matches Eps s c s c
| M_chr a s c : matches (Chr a) (String a s) c s c
| M_range lo hi a s c :
    in_range lo hi a = true -> matches (Range lo hi) (String a s) c s c
| M_cat r1 r2 s c s1 c1 s2 c2 :
    matches r1 s c s1 c1 -> matches r2 s1 c1 s2 c2 ->
    matches (Cat r1 r2) s c s2 c2
| M_alt_l r1 r2 s c s' c' :
    matches r1 s c s' c' -> matches (Alt r1 r2) s c s' c'
| M_alt_r r1 r2 s c s' c' :
    matches r2 s c s' c' -> matches (Alt r1 r2) s c s' c'
| M_opt_some r s c s' c' :
    matches r s c s' c' -> matches (Opt r) s c s' c'
| M_opt_none r s c : matches (Opt r) s c s c
| M_rep_stop hi r s c : matches (Rep 0 hi r) s c s c
| M_rep_step lo hi r s c s1 c1 s2 c2 :
    matches r s c s1 c1 -> matches (Rep (Nat.pred lo) hi r) s1 c1 s2 c2 ->
    matches (Rep lo (S hi) r) s c s2 c2
| M_group name r s c s1 c1 :
    matches r s c s1 c1 ->
    matches (Group name r) s c s1 (<[name := consumed s s1]> c1).

(** can the pattern match the empty text? *)
Fixpoint nullable (r : regex) : bool :=
  match r with
  | Eps | Opt _ => true
  | Chr _ | Range _ _ => false
  | Cat r1 r2 => nullable r1 && nullable r2
  | Alt r1 r2 => nullable r1 || nullable r2
  | Rep lo _ r1 => (lo =? 0)%nat || nullable r1
  | Group _ r1 => nullable r1
  end.

(** does every group of the pattern consume at least one character? *)
Fixpoint groups_consume (r : regex) : bool :=
  match r with
  | Eps | Chr _ | Range _ _ => true
  | Cat r1 r2 | Alt r1 r2 => groups_consume r1 && groups_consume r2
  | Opt r1 | Rep _ _ r1 => groups_consume r1
  | Group _ r1 => negb (nullable r1) && groups_consume r1
  end.

(** decimal digits *)
Definition is_digit (c : ascii) : bool := in_range "0" "9" c.

Fixpoint all_digits (s : string) : bool :=
  match s with
  | EmptyString => true
  | String c s' => is_digit c && all_digits s'
  end.

(** the patterns [[0-9]] and [[0-9]{lo,hi}], with the longest text they
    take *)
Definition digits_only (r : regex) : option nat :=
  match r with
  | Range lo hi =>
      if Ascii.eqb lo "0" && Ascii.eqb hi "9" then Some 1%nat else None
  | Rep _ k (Range lo hi) =>
      if Ascii.eqb lo "0" && Ascii.eqb hi "9" then Some k else None
  | _ => None
  end.

(** is every group of the pattern a digits pattern that takes no more
    than [ceiling] allows for its name? *)
Fixpoint groups_digits (ceiling : string -> nat) (r : regex) : bool :=
  match r with
  | Eps | Chr _ | Range _ _ => true
  | Cat r1 r2 | Alt r1 r2 => groups_digits ceiling r1 && groups_digits ceiling r2
  | Opt r1 | Rep _ _ r1 => groups_digits ceiling r1
  | Group name r1 =>
      match digits_only r1 with
      | Some k => (k <=? ceiling name)%nat
      | None => false
      end
  end.

(** every group that is set holds digits, no more than its ceiling *)
Definition digits_within (ceiling : string -> nat) (c : gmap string string)
    : Prop :=
  forall name v, c !! name = Some v ->
    all_digits v = true /\ (String.length v <= ceiling name)%nat.

(** a matcher hands only matches of [r] to its continuation *)
Definition sound_for {R : Type} (r : regex)
    (body : string -> gmap string string -> cont (R:=R) -> option R) : Prop :=
  forall s c k x, body s c k = Some x ->
    exists s' c', matches r s c s' c' /\ k s' c' = Some x.

End ReSpec.

Module DatetimeSpec.
Import Datetime.

(** the date of [d] with the time of day of [t] *)
Definition with_time_of (d t : datetime) : datetime :=
  mkDatetime (year d) (month d) (day d)
    (hour t) (minute t) (second t) (microsecond t).

(** the tail of [ord2ymd]: month and day of the [n]-th day of a year *)
Definition month_day (n : Z) (leapyear : bool) : Z * Z :=
  let m := Z.shiftr (n + 50) 5 in
  let preceding :=
    DAYS_BEFORE_MONTH m + (if (2 <? m) && leapyear then 1 else 0) in
  if n <? preceding then
    let m := m - 1 in
    let preceding :=
      preceding - (DAYS_IN_MONTH m + (if (m =? 2) && leapyear then 1 else 0)) in
    (m, n - preceding + 1)
  else (m, n - preceding + 1).

Definition month_day_ok (n : Z) (leapyear : bool) : bool :=
  let '(m, d) := month_day n leapyear in
  (1 <=? m) && (m <=? 12) && (1 <=? d)
  && (d <=? (if (m =? 2) && leapyear then 29 else DAYS_IN_MONTH m)).

End DatetimeSpec.

Module HumanTimeSpec.
Import Datetime DatetimeSpec PdtContext.

(** the instant a candidate resolves to: the candidate itself, or, when
    the engine found no time of day, its date at the time of day of the
    reference now *)
Definition resolved_instant (d : datetime) (status : pdtContext)
    (utcnow : datetime) : datetime :=
  if hasTime status then d else with_time_of d utcnow.

End HumanTimeSpec.

Module ShortTimeSpec.
Import Re Datetime ShortTime.

(** the integer parsed for a unit; a unit that took no part in the match
    counts 0 *)
Definition parsed (m : match_object) (name : string) : Z :=
  match groups m !! name with
  | Some digits => Str.int digits
  | None => 0
  end.

(** the digit-count ceiling of each unit: one digit for years, two for
    months, four for weeks, five for the others *)
Definition ceiling (name : string) : nat :=
  if String.eqb name "years" then 1
  else if String.eqb name "months" then 2
  else if String.eqb name "weeks" then 4
  else 5.

(** [relativedelta(fields)] for the fields of a match *)
Definition offset (m : match_object) : Relativedelta.relativedelta :=
  Relativedelta.new (parsed m "years") (parsed m "months") (parsed m "days")
    (parsed m "weeks") (parsed m "hours") (parsed m "minutes")
    (parsed m "seconds") 0.

(** at least one numeric unit group took part in the match *)
Definition has_unit_group (m : match_object) : Prop :=
  exists name digits, groups m !! name = Some digits.

End ShortTimeSpec.

Module UserFriendlyTimeSpec.

(** The remaining text as the specification words it, for a match
    [begin, end) that was accepted: after the match when it begins at 0,
    after the closing quote when it begins at 1, punctuation and blanks
    stripped on the left in both cases; before the match, trimmed, when
    the match instead ends where the input ends. *)
Definition remaining_by_spec (argument : string) (begin end_ : nat) : string :=
  match begin with
  | 0%nat => Str.lstrip_chars " ,.!" (Str.from end_ argument)
  | 1%nat => Str.lstrip_chars " ,.!" (Str.from (S end_) argument)
  | _ => Str.strip (Str.upto begin argument)
  end.

(** the match span is acceptable: it begins at 0 or 1, or ends where the
    input ends *)
Definition well_placed (argument : string) (begin end_ : nat) : Prop :=
  begin = 0%nat \/ begin = 1%nat \/ end_ = String.length argument.

(** the match is taken as a quoted phrase only between two double
    quotes: one at offset 0, one right after the match end *)
Definition quotes_in_place (argument : string) (begin end_ : nat) : Prop :=
  begin = 1%nat ->
  String.get 0 argument = Some dquote /\ String.get end_ argument = Some dquote.

(** lines 167-178: the candidate after the defaulting of the time of day
    and the half-day adjustment *)
Definition candidate (d : Datetime.datetime) (status : PdtContext.pdtContext)
    (utcnow : Datetime.datetime) : result Datetime.datetime :=
  d <- (if negb (PdtContext.hasTime status) then
          Datetime.replace d None None None
            (Some (Datetime.hour utcnow)) (Some (Datetime.minute utcnow))
            (Some (Datetime.second utcnow))
            (Some (Datetime.microsecond utcnow))
        else Ok d) ;;
  if PdtContext.accuracy status =? PdtContext.ACU_HALFDAY then
    Datetime.replace d None None (Some (Datetime.day utcnow + 1))
      None None None None
  else Ok d.

End UserFriendlyTimeSpec.

(** ** Concrete inputs *)

Module Examples.
Import Datetime PdtContext UserFriendlyTime.

(** 31 January 2024, 12:00:00 *)
Definition jan31 : datetime := mkDatetime 2024 1 31 12 0 0 0.

(** 15 January 2024, 09:30:00 *)
Definition jan15 : datetime := mkDatetime 2024 1 15 9 30 0 0.

Definition at_midnight (d : datetime) : datetime :=
  mkDatetime (year d) (month d) (day d) 0 0 0 0.

(** an opening double quote, the phrase, then the payload: the closing
    quote is missing *)
Definition quoted_unclosed (phrase payload : string) : string :=
  String dquote (phrase +:+ payload).

(** the phrase between double quotes, then the payload *)
Definition quoted (phrase payload : string) : string :=
  String dquote (phrase +:+ String dquote payload).

(** A stand-in for [calendar.nlp] that knows a few inputs and answers as
    parsedatetime does: "midnight" is today at 00:00 with the accuracy
    [ACU_HALFDAY]; "3 days" and "tomorrow" are day-accurate dates that
    carry no time of day. *)
Definition nlp (argument : string) (sourceTime : datetime)
    : option (list nlp_element) :=
  if String.eqb argument "midnight" then
    Some [(at_midnight sourceTime, mkContext ACU_HALFDAY, 0, 8, "midnight")%nat]
  else if String.eqb argument (quoted_unclosed "midnight" " do the thing") then
    Some [(at_midnight sourceTime, mkContext ACU_HALFDAY, 1, 9, "midnight")%nat]
  else if String.eqb argument (quoted "3 days" " do the thing") then
    Some [(mkDatetime 2024 1 18 9 30 0 0, mkContext ACU_DAY, 1, 7, "3 days")%nat]
  else if String.eqb argument "do the thing tomorrow" then
    Some [(mkDatetime 2024 1 16 9 0 0 0, mkContext ACU_DAY, 13, 21, "tomorrow")%nat]
  else None.

(** A stand-in for [calendar.parseDT]: "yesterday" is a day-accurate
    date that carries no time of day, anything else is not understood. *)
Definition parseDT (argument : string) (sourceTime : datetime)
    : datetime * pdtContext :=
  if String.eqb argument "yesterday" then
    (mkDatetime 2024 1 14 9 0 0 0, mkContext ACU_DAY)
  else (sourceTime, mkContext 0).

(** 4 March 2026, 04:00:00, which is 1 year, 2 months, 3 days and
    4 hours after 1 January 2025, 00:00:00 *)
Definition new_year : datetime := mkDatetime 2025 1 1 0 0 0 0.
Definition later : datetime := mkDatetime 2026 3 4 4 0 0 0.


(** the message of the [AttributeError] for the first Danish name *)
Definition no_attribute_aar : string :=
  "'relativedelta' object has no attribute '"
  +:+ String HumanTimedelta.aring "r'".

(** no secondary converter *)
Definition no_converter : option (string -> result unit) := None.

End Examples.

(** ** The time line

    Where a datetime lies, counted in microseconds; the order of
    datetimes and the arithmetic on them are compared with it. *)

Module CalendarSpec.
Import Datetime DatetimeSpec.

(** the microseconds from the start of ordinal 0 to a datetime *)
Definition key (d : datetime) : Z :=
  ((toordinal d * 86400 + (hour d * 3600 + minute d * 60 + second d)) * 1000000)
  + microsecond d.

(** the microseconds a timedelta stands for *)
Definition total_us (td : timedelta) : Z :=
  (td_days td * 86400 + td_seconds td) * 1000000 + td_microseconds td.

(** [month_day] gives the month and day that lie [n] days into the year *)
Definition month_day_inverse (n : Z) (leapyear : bool) : bool :=
  let '(m, d) := month_day n leapyear in
  DAYS_BEFORE_MONTH m + (if (2 <? m) && leapyear then 1 else 0) + d =? n + 1.

(** a month ends before the next ones begin *)
Definition months_in_order (m1 m2 : Z) (leapyear : bool) : bool :=
  DAYS_BEFORE_MONTH m1 + (if (2 <? m1) && leapyear then 1 else 0)
  + (if (m1 =? 2) && leapyear then 29 else DAYS_IN_MONTH m1)
  <=? DAYS_BEFORE_MONTH m2 + (if (2 <? m2) && leapyear then 1 else 0).

End CalendarSpec.

(** ** Shapes of patterns and of texts *)

Module GrammarSpec.
Import Re ReSpec.

(** does every non-empty match of the pattern begin with a digit? *)
Fixpoint digit_led (r : regex) : bool :=
  match r with
  | Eps => true
  | Chr _ => false
  | Range lo hi => Ascii.eqb lo "0" && Ascii.eqb hi "9"
  | Cat r1 r2 => digit_led r1 && (negb (nullable r1) || digit_led r2)
  | Alt r1 r2 => digit_led r1 && digit_led r2
  | Opt r1 | Rep _ _ r1 | Group _ r1 => digit_led r1
  end.

(** does the pattern need a first character, and one that is no digit? *)
Fixpoint letter_led (r : regex) : bool :=
  match r with
  | Chr c => negb (is_digit c)
  | Cat r1 _ => letter_led r1
  | Alt r1 r2 => letter_led r1 && letter_led r2
  | _ => false
  end.

(** the first character of a text, if any, is a decimal digit *)
Definition starts_with_digit (s : string) : bool :=
  match s with
  | String a _ => is_digit a
  | EmptyString => false
  end.

End GrammarSpec.

Module SpellingSpec.
Import Re ReSpec.

(** the seven units, in the order of the pattern *)
Definition unit_names : list string :=
  ["years"; "months"; "weeks"; "days"; "hours"; "minutes"; "seconds"].

(** the spellings the pattern accepts for each unit *)
Definition unit_spellings : list (string * list string) :=
  [("years", ["years"; "year"; "y"]);
   ("months", ["months"; "month"; "mo"]);
   ("weeks", ["weeks"; "week"; "w"]);
   ("days", ["days"; "day"; "d"]);
   ("hours", ["hours"; "hour"; "h"]);
   ("minutes", ["minutes"; "minute"; "mins"; "min"; "m"]);
   ("seconds", ["seconds"; "second"; "secs"; "sec"; "s"])].

(** [u] is one of the spellings of the unit [name] *)
Definition spelled (name u : string) : bool :=
  existsb (fun p => String.eqb (fst p) name && existsb (String.eqb u) (snd p))
    unit_spellings.

(** what may follow a duration: nothing, or a blank and the rest *)
Definition payload_like (rest : string) : bool :=
  match rest with
  | EmptyString => true
  | String a _ => Ascii.eqb a " "
  end.

(** the number part of a unit group: [[0-9]] or [[0-9]{1,hi}] *)
Inductive number_pattern : regex -> nat -> Prop :=
| NP_digit : number_pattern (Range "0" "9") 1
| NP_rep hi : number_pattern (Rep 1 hi (Range "0" "9")) hi.

End SpellingSpec.

(** ** Durations as sequences of tokens

    A short duration, as the comments of the pattern show it ("2y",
    "9mo", "10w", "14d", "12h", "10m", "15s"), is a sequence of
    tokens, at most one for each unit, in the order of the pattern;
    a token is a number and one spelling of its unit. *)

Module TokenSpec.
Import Re ReSpec Datetime ShortTime ShortTimeSpec GrammarSpec SpellingSpec.

(** a unit of the pattern: the name of its group, its number and its
    suffix *)
Definition entry : Type := string * regex * regex.
Definition entry_name (e : entry) : string := fst (fst e).
Definition entry_number (e : entry) : regex := snd (fst e).
Definition entry_suffix (e : entry) : regex := snd e.

Definition unit_table : list entry :=
  [("years", digit, Alt (plural "year") (Chr "y"));
   ("months", Rep 1 2 digit, Alt (plural "month") (lit "mo"));
   ("weeks", Rep 1 4 digit, Alt (plural "week") (Chr "w"));
   ("days", Rep 1 5 digit, Alt (plural "day") (Chr "d"));
   ("hours", Rep 1 5 digit, Alt (plural "hour") (Chr "h"));
   ("minutes", Rep 1 5 digit,
      Alt (Cat (lit "min") (Cat (Opt (lit "ute")) (Opt (Chr "s")))) (Chr "m"));
   ("seconds", Rep 1 5 digit,
      Alt (Cat (lit "sec") (Cat (Opt (lit "ond")) (Opt (Chr "s")))) (Chr "s"))].

Definition group_of (e : entry) : regex :=
  unit_group (entry_name e) (entry_number e) (entry_suffix e).

(** the concatenation of patterns *)
Fixpoint seq_of (gs : list regex) : regex :=
  match gs with
  | [] => Eps
  | g :: gs' =>
      match gs' with
      | [] => g
      | _ :: _ => Cat g (seq_of gs')
      end
  end.

(** the token of a unit: its digits and the spelling of the unit, or
    [None] when the unit is left out *)
Definition token : Type := option (string * string).

Definition token_text (t : token) : string :=
  match t with
  | Some (ds, u) => ds +:+ u
  | None => EmptyString
  end.

Fixpoint tokens_text (ts : list token) : string :=
  match ts with
  | [] => EmptyString
  | t :: ts' => token_text t +:+ tokens_text ts'
  end.

(** one to [ceiling] digits, and a spelling of the unit *)
Definition token_ok (name : string) (t : token) : bool :=
  match t with
  | None => true
  | Some (ds, u) =>
      all_digits ds && (1 <=? String.length ds)%nat
      && (String.length ds <=? ceiling name)%nat && spelled name u
  end.

(** one token, present or not, for each name, each as it has to be *)
Fixpoint tokens_ok (names : list string) (ts : list token) : bool :=
  match names, ts with
  | [], [] => true
  | n :: names', t :: ts' => token_ok n t && tokens_ok names' ts'
  | _, _ => false
  end.

(** a duration: a sequence of tokens for the seven units that is not
    empty *)
Definition duration (ts : list token) : bool :=
  tokens_ok unit_names ts && Str.truthy (tokens_text ts).

(** the groups a match of the tokens sets, added to [c] in the order of
    the pattern *)
Fixpoint groups_acc (names : list string) (ts : list token)
    (c : gmap string string) : gmap string string :=
  match names, ts with
  | n :: names', Some (ds, _) :: ts' => groups_acc names' ts' (<[n := ds]> c)
  | _ :: names', None :: ts' => groups_acc names' ts' c
  | _, _ => c
  end.

(** the digits written for a unit *)
Fixpoint find_digits (names : list string) (ts : list token) (name : string)
    : option string :=
  match names, ts with
  | n :: names', t :: ts' =>
      if String.eqb n name then
        match t with
        | Some (ds, _) => Some ds
        | None => None
        end
      else find_digits names' ts' name
  | _, _ => None
  end.

(** the number written for a unit, 0 when the unit is left out *)
Definition number (ts : list token) (name : string) : Z :=
  match find_digits unit_names ts name with
  | Some ds => Str.int ds
  | None => 0
  end.

(** [relativedelta] of the numbers written *)
Definition tokens_delta (ts : list token) : Relativedelta.relativedelta :=
  Relativedelta.new (number ts "years") (number ts "months")
    (number ts "days") (number ts "weeks") (number ts "hours")
    (number ts "minutes") (number ts "seconds") 0.

(** every number written is 0 *)
Definition all_zero (ts : list token) : bool :=
  forallb (fun t : token =>
             match t with
             | Some (ds, _) => Str.int ds =? 0
             | None => true
             end) ts.

(** what may follow a token: nothing, a digit (the next token), or a
    blank (the text after the duration) *)
Definition tail_ok (t : string) : bool :=
  match t with
  | EmptyString => true
  | String a _ => is_digit a || Ascii.eqb a " "
  end.

Section Table.
Context {R : Type}.

(** the suffix of [e] takes each spelling of its unit when the match
    can go on after it *)
Definition takes (e : entry) : Prop :=
  forall u t c (k : cont (R:=R)) x,
    spelled (entry_name e) u = true -> tail_ok t = true ->
    k t c = Some x -> run (entry_suffix e) (u +:+ t) c k = Some x.

(** the suffix of [e] takes no spelling of the unit of [e'] *)
Definition rejects (e e' : entry) : Prop :=
  forall u t c (k : cont (R:=R)),
    spelled (entry_name e') u = true -> tail_ok t = true ->
    run (entry_suffix e) (u +:+ t) c k = None.

Fixpoint table_ok (es : list entry) : Prop :=
  match es with
  | [] => True
  | e :: es' =>
      number_pattern (entry_number e) (ceiling (entry_name e))
      /\ letter_led (entry_suffix e) = true
      /\ takes e
      /\ (forall e', In e' es' -> rejects e e')
      /\ table_ok es'
  end.
End Table.

(** whatever the suffix of [e] matches is a spelling of its unit, and
    no group is set on the way *)
Definition decodes (e : entry) : Prop :=
  forall s c s' c',
    matches (entry_suffix e) s c s' c' ->
    c' = c /\ exists u, spelled (entry_name e) u = true /\ s = u +:+ s'.

Fixpoint table_decodes (es : list entry) : Prop :=
  match es with
  | [] => True
  | e :: es' =>
      number_pattern (entry_number e) (ceiling (entry_name e))
      /\ decodes e /\ table_decodes es'
  end.

End TokenSpec.

(** ** Where a duration leads *)

Module DurationSpec.
Import Datetime Relativedelta ShortTimeSpec TokenSpec.

(** the weeks, days, hours, minutes and seconds of a match, in
    microseconds *)
Definition elapsed_us (m : Re.match_object) : Z :=
  ((parsed m "weeks" * 7 + parsed m "days") * 86400
   + parsed m "hours" * 3600 + parsed m "minutes" * 60 + parsed m "seconds")
  * 1000000.

(** the same for a sequence of tokens: a week is 7 days, a day 86400
    seconds *)
Definition span_us (ts : list token) : Z :=
  ((number ts "weeks" * 7 + number ts "days") * 86400
   + number ts "hours" * 3600 + number ts "minutes" * 60 + number ts "seconds")
  * 1000000.

(** the months of the calendar counted from year 0: the month that is
    [years] and [months] after the month of [d] *)
Definition month_index (d : datetime) (years months : Z) : Z :=
  (year d + years) * 12 + (month d - 1) + months.

(** [d] moved to the month of that index, its day clipped to the length
    of the month, its time of day kept *)
Definition in_month (d : datetime) (idx : Z) : datetime :=
  let y := idx / 12 in
  let m := idx mod 12 + 1 in
  mkDatetime y m (Z.min (days_in_month y m) (day d))
    (hour d) (minute d) (second d) (microsecond d).

End DurationSpec.

Module ConvertSpec.
Import Datetime PdtContext UserFriendlyTime.

(** lines 146 and 157: the engine found nothing, or what it found
    first has neither a date nor a time *)
Definition finds_no_time (elements : option (list nlp_element)) : bool :=
  match elements with
  | None | Some [] => true
  | Some ((_, status, _, _, _) :: _) => negb (hasDateOrTime status)
  end.

(** what [check_constraints] returns for an instant that is not in the
    past: the remaining text itself, or what the converter makes of
    it *)
Definition checked {A : Type} (converter : option (string -> result A))
    (raw : string) (d utcnow : datetime) (remaining : string)
    : result (t (A:=A)) :=
  match converter with
  | Some c => a <- c remaining ;; Ok (mk raw d (Some (Converted a)) utcnow)
  | None => Ok (mk raw d (Some (Remaining remaining)) utcnow)
  end.

(** the message of [HumanTime] for a text it does not understand *)
Definition invalid_time_hint : string :=
  "invalid time provided, try e.g. " +:+ String dquote "tomorrow"
  +:+ String dquote " or " +:+ String dquote "3 days"
  +:+ String dquote EmptyString.

End ConvertSpec.

(** ** Proof steps for the patterns *)

Module MatcherTactics.

(** [long] evaluates a unit group that meets more digits than it may
    take *)
Ltac long_group long :=
  erewrite long;
  [ | constructor | reflexivity | assumption | simpl; lia ].

(** the text that [s] has in front of its tail [s'] *)
Ltac prefix_of s s' :=
  lazymatch s with
  | s' => constr:(EmptyString)
  | String ?a ?t => let p := prefix_of t s' in constr:(String a p)
  end.

(** every way a pattern without repetition matches *)
Ltac invert_matches :=
  repeat match goal with
  | H : ReSpec.matches Re.Eps _ _ _ _ |- _ => inversion H; subst; clear H
  | H : ReSpec.matches (Re.Chr _) _ _ _ _ |- _ => inversion H; subst; clear H
  | H : ReSpec.matches (Re.Cat _ _) _ _ _ _ |- _ => inversion H; subst; clear H
  | H : ReSpec.matches (Re.Alt _ _) _ _ _ _ |- _ => inversion H; subst; clear H
  | H : ReSpec.matches (Re.Opt _) _ _ _ _ |- _ => inversion H; subst; clear H
  end.

End MatcherTactics.

(** ** More inputs for the statements *)

Module DurationExamples.
Import Re Datetime ShortTime TokenSpec.

(** the match object of ["2d12h"] *)
Definition two_days_twelve_hours : match_object :=
  MatchObject compiled "2d12h" 5 (<["hours" := "12"]> (<["days" := "2"]> ∅)).

(** the match object of ["10m"] *)
Definition ten_minutes : match_object :=
  MatchObject compiled "10m" 3 (<["minutes" := "10"]> ∅).

(** the tokens of ["1h30m"] *)
Definition an_hour_and_a_half : list token :=
  [None; None; None; None; Some ("1", "h"); Some ("30", "m"); None].

(** the tokens of ["1mo"] *)
Definition one_month : list token :=
  [None; Some ("1", "mo"); None; None; None; None; None].

(** the tokens of ["0d00m"] *)
Definition nothing_at_all : list token :=
  [None; None; None; Some ("0", "d"); None; Some ("00", "m"); None].

(** 29 February 2024, 12:00:00 *)
Definition feb29 : datetime := mkDatetime 2024 2 29 12 0 0 0.

(** 15 January 2024, 09:40:00 and 11:00:00 *)
Definition jan15_0940 : datetime := mkDatetime 2024 1 15 9 40 0 0.
Definition jan15_1100 : datetime := mkDatetime 2024 1 15 11 0 0 0.

(** 14 January 2024, 09:30:00 *)
Definition jan14 : datetime := mkDatetime 2024 1 14 9 30 0 0.

End DurationExamples.

(** ** What "stripped" and "trimmed" mean

    The remaining text, said without the functions that compute it:
    where a text is cut, which characters may be dropped in front of it
    and behind it, and that nothing more could be dropped. *)

Module RemainingSpec.

(** the characters of [" ,.!"] *)
Definition is_separator (a : ascii) : bool :=
  existsb (Ascii.eqb a) [" "; ","; "."; "!"]%char.

(** white space among the code points 0..255: TAB, LF, VT, FF, CR, FS,
    GS, RS, US, SPACE, NEL and NO-BREAK SPACE *)
Definition is_blank (a : ascii) : bool :=
  existsb (Nat.eqb (nat_of_ascii a))
    [9; 10; 11; 12; 13; 28; 29; 30; 31; 32; 133; 160]%nat.

(** every character of [s] is a [p] *)
Fixpoint all_chars (p : ascii -> bool) (s : string) : bool :=
  match s with
  | EmptyString => true
  | String a s' => p a && all_chars p s'
  end.

Definition first_char (s : string) : option ascii :=
  match s with
  | EmptyString => None
  | String a _ => Some a
  end.

Fixpoint last_char (s : string) : option ascii :=
  match s with
  | EmptyString => None
  | String a s' =>
      match last_char s' with
      | None => Some a
      | Some b => Some b
      end
  end.

(** [c] is a character and a [p] *)
Definition is_a (p : ascii -> bool) (c : option ascii) : bool :=
  match c with
  | Some a => p a
  | None => false
  end.

(** [post] is [s] from offset [n] on (all of [s] left out when [n] is
    beyond its end) *)
Definition text_after (n : nat) (s post : string) : Prop :=
  exists pre, s = pre +:+ post
    /\ String.length pre = Nat.min n (String.length s).

(** [pre] is [s] up to offset [n] *)
Definition text_before (n : nat) (s pre : string) : Prop :=
  exists post, s = pre +:+ post
    /\ String.length pre = Nat.min n (String.length s).

(** [t] is [s] without its leading [p]s: what is dropped in front is
    made of [p]s, and [t] does not begin with one *)
Definition without_leading (p : ascii -> bool) (s t : string) : Prop :=
  exists dropped, s = dropped +:+ t
    /\ all_chars p dropped = true /\ is_a p (first_char t) = false.

(** [t] is [s] trimmed: what is dropped at both ends is white space, and
    [t] neither begins nor ends with white space *)
Definition trimmed (s t : string) : Prop :=
  exists front back, s = front +:+ t +:+ back
    /\ all_chars is_blank front = true /\ all_chars is_blank back = true
    /\ is_a is_blank (first_char t) = false
    /\ is_a is_blank (last_char t) = false.

(** the remaining text of a match [begin, end) of [argument] *)
Definition remaining_of (argument : string) (begin end_ : nat)
    (remaining : string) : Prop :=
  match begin with
  | 0%nat =>
      exists post, text_after end_ argument post
        /\ without_leading is_separator post remaining
  | 1%nat =>
      exists post, text_after (S end_) argument post
        /\ without_leading is_separator post remaining
  | _ =>
      exists pre, text_before begin argument pre /\ trimmed pre remaining
  end.

End RemainingSpec.

Module RemainingExamples.
Import Datetime PdtContext UserFriendlyTime.

(** [tomorrow,. ! do the thing ]: the phrase first, separators, the
    payload and a blank at the end *)
Definition phrase_first : string := "tomorrow,. ! do the thing ".

(** ["3 days". , do the thing]: the phrase between double quotes *)
Definition phrase_quoted : string :=
  String dquote ("3 days" +:+ String dquote ". , do the thing").

(** two blanks, the payload, a TAB and a blank, then the phrase *)
Definition phrase_last : string :=
  "  do the thing" +:+ String "009" " tomorrow".

(** A stand-in for [calendar.nlp] on these three inputs, which finds
    the phrase where it stands; "tomorrow" and "3 days" are day-accurate
    dates that carry no time of day. *)
Definition nlp (argument : string) (sourceTime : datetime)
    : option (list nlp_element) :=
  if String.eqb argument phrase_first then
    Some [(mkDatetime 2024 1 16 9 0 0 0, mkContext ACU_DAY, 0, 8, "tomorrow")%nat]
  else if String.eqb argument phrase_quoted then
    Some [(mkDatetime 2024 1 18 9 0 0 0, mkContext ACU_DAY, 1, 7, "3 days")%nat]
  else if String.eqb argument phrase_last then
    Some [(mkDatetime 2024 1 16 9 0 0 0, mkContext ACU_DAY, 16, 24, "tomorrow")%nat]
  else None.

End RemainingExamples.

(** ** What "one whole second" means

    A delta read as two amounts: the months of its calendar part and the
    microseconds of its clock part.  [_fix] moves carries between the
    fields and leaves both amounts as they are. *)

Module RoundingSpec.
Import Datetime Relativedelta HumanTimedelta.






End RoundingSpec.

Module RoundingExamples.
Import Datetime.



End RoundingExamples.

(** * Properties *)

(** ** Strings *)

Module StrFacts.
Import Str.

Lemma truthy_nonempty (s : string) : truthy s = true <-> s <> EmptyString.
Proof. destruct s; simpl; split; congruence. Qed.

Lemma upto_truthy (n : nat) (s : string) :
  (0 < n)%nat -> s <> EmptyString -> truthy (upto n s) = true.
Proof.
  intros Hn Hs. destruct n as [|n]; [lia|].
  destruct s; [congruence|]. reflexivity.
Qed.

Lemma int_zero : int "0" = 0.
Proof. reflexivity. Qed.

End StrFacts.

(** ** The matcher

    [matches r s c s' c'] is the declarative reading of a pattern: [r]
    can consume a prefix of [s] leaving [s'], turning the groups [c]
    into [c'].  Whatever the backtracking matcher hands to its
    continuation is such a match. *)

Module ReFacts.
Import Re ReSpec.

Create HintDb re.
#[local] Hint Constructors matches : re.

Section Soundness.
Context {R : Type}.

Lemma rep_sound (r : regex)
    (body : string -> gmap string string -> cont (R:=R) -> option R) :
  sound_for r body ->
  forall hi lo, sound_for (Rep lo hi r) (fun s c k => rep body lo hi s c k).
Proof.
  intros Hbody hi. induction hi as [|hi IH]; intros lo s c k x; simpl.
  - destruct lo; [|discriminate]. intros Hk. eauto with re.
  - destruct (body s c _) as [y|] eqn:Hb.
    + intros [= ->]. apply Hbody in Hb as (s1 & c1 & Hm & Hrest).
      apply IH in Hrest as (s2 & c2 & Hm2 & Hk). eauto with re.
    + destruct lo; [|discriminate]. intros Hk. eauto with re.
Qed.

Lemma run_sound (r : regex) : sound_for (R:=R) r (run r).
Proof.
  induction r as [|a|lo hi|r1 IH1 r2 IH2|r1 IH1 r2 IH2|r1 IH1|lo hi r1 IH1
                 |name r1 IH1]; intros s c k x; simpl.
  - eauto with re.
  - destruct s as [|b s]; [discriminate|].
    destruct (Ascii.eqb b a) eqn:E; [|discriminate].
    apply Ascii.eqb_eq in E as ->. eauto with re.
  - destruct s as [|b s]; [discriminate|].
    destruct (in_range lo hi b) eqn:E; [|discriminate]. eauto with re.
  - intros H. apply IH1 in H as (s1 & c1 & Hm1 & H).
    apply IH2 in H as (s2 & c2 & Hm2 & H). eauto with re.
  - destruct (run r1 s c k) as [y|] eqn:E.
    + intros [= ->]. apply IH1 in E as (s' & c' & Hm & H). eauto with re.
    + intros H. apply IH2 in H as (s' & c' & Hm & H). eauto with re.
  - destruct (run r1 s c k) as [y|] eqn:E.
    + intros [= ->]. apply IH1 in E as (s' & c' & Hm & H). eauto with re.
    + eauto with re.
  - apply (rep_sound r1 (run r1) IH1 hi lo).
  - intros H. apply IH1 in H as (s1 & c1 & Hm & H). eauto with re.
Qed.
End Soundness.

Lemma matches_length r s c s' c' :
  matches r s c s' c' -> (String.length s' <= String.length s)%nat.
Proof. induction 1; simpl in *; lia. Qed.

Lemma matches_progress r s c s' c' :
  matches r s c s' c' -> nullable r = false ->
  (String.length s' < String.length s)%nat.
Proof.
  induction 1 as [ | | |r1 r2 s c s1 c1 s2 c2 H1 IH1 H2 IH2| | | | |
                  |lo hi r s c s1 c1 s2 c2 H1 IH1 H2 IH2| ];
    simpl; intros Hn; try discriminate; try lia.
  - apply matches_length in H1 as L1. apply matches_length in H2 as L2.
    apply andb_false_iff in Hn as [Hn|Hn]; [specialize (IH1 Hn)|specialize (IH2 Hn)]; lia.
  - apply orb_false_iff in Hn as [Hn1 Hn2]. auto.
  - apply orb_false_iff in Hn as [Hn1 Hn2]. auto.
  - apply orb_false_iff in Hn as [_ Hn]. apply matches_length in H2.
    specialize (IH1 Hn). lia.
  - auto.
Qed.

(** A match that consumed nothing set no group. *)
Lemma matches_groups_unchanged r s c s' c' :
  matches r s c s' c' -> groups_consume r = true ->
  String.length s' = String.length s -> c' = c.
Proof.
  induction 1 as [ | | |r1 r2 s c s1 c1 s2 c2 H1 IH1 H2 IH2| | | | |
                  |lo hi r s c s1 c1 s2 c2 H1 IH1 H2 IH2
                  |name r s c s1 c1 H1 IH1];
    simpl; intros Hg Hlen; auto.
  - apply andb_true_iff in Hg as [Hg1 Hg2].
    apply matches_length in H1 as L1. apply matches_length in H2 as L2.
    rewrite IH2, IH1; auto; lia.
  - apply andb_true_iff in Hg as [Hg1 Hg2]. auto.
  - apply andb_true_iff in Hg as [Hg1 Hg2]. auto.
  - apply matches_length in H1 as L1. apply matches_length in H2 as L2.
    rewrite IH2, IH1; auto; lia.
  - apply andb_true_iff in Hg as [Hg1 Hg2].
    apply negb_true_iff in Hg1.
    apply matches_progress in H1; auto. lia.
Qed.

Lemma re_match_spec r s m :
  re_match r s = Some m ->
  exists rest, matches r s ∅ rest (groups m) /\ pattern m = r
    /\ group0 m = consumed s rest
    /\ m_end m = (String.length s - String.length rest)%nat.
Proof.
  unfold re_match. intros H.
  apply run_sound in H as (rest & c & Hm & [= <-]). simpl. eauto 10.
Qed.

Lemma fullmatch_spec r s m :
  fullmatch r s = Some m ->
  matches r s ∅ EmptyString (groups m) /\ pattern m = r /\ group0 m = s.
Proof.
  unfold fullmatch. intros H.
  apply run_sound in H as (rest & c & Hm & Hk).
  destruct rest; [|discriminate]. injection Hk as <-. simpl. auto.
Qed.

(** If a group took part in a match, the match is not empty. *)
Lemma re_match_group_truthy r s m name v :
  groups_consume r = true -> re_match r s = Some m ->
  groups m !! name = Some v -> Str.truthy (group0 m) = true.
Proof.
  intros Hg Hm Hv.
  apply re_match_spec in Hm as (rest & Hm & _ & -> & _).
  apply matches_length in Hm as Hle.
  destruct (decide (String.length rest = String.length s)) as [E|E].
  - apply matches_groups_unchanged in Hm; auto.
    rewrite Hm in Hv. rewrite lookup_empty in Hv. discriminate.
  - unfold consumed. apply StrFacts.upto_truthy; [lia|].
    intros ->. simpl in *. lia.
Qed.

Lemma fullmatch_group_truthy r s m name v :
  groups_consume r = true -> fullmatch r s = Some m ->
  groups m !! name = Some v -> Str.truthy (group0 m) = true.
Proof.
  intros Hg Hm Hv.
  apply fullmatch_spec in Hm as (Hm & _ & ->).
  destruct s; [|reflexivity].
  apply matches_groups_unchanged in Hm; auto.
  rewrite Hm in Hv. rewrite lookup_empty in Hv. discriminate.
Qed.

(** *** What the groups hold *)

Lemma append_cons (x : ascii) (a b : string) :
  String x a +:+ b = String x (a +:+ b).
Proof. reflexivity. Qed.

Lemma length_append (a b : string) :
  String.length (a +:+ b) = (String.length a + String.length b)%nat.
Proof.
  induction a as [|x a IH]; [reflexivity|].
  rewrite append_cons. simpl. f_equal. exact IH.
Qed.

Lemma upto_append (a b : string) : Str.upto (String.length a) (a +:+ b) = a.
Proof.
  induction a as [|x a IH]; [reflexivity|].
  rewrite append_cons. simpl. f_equal. exact IH.
Qed.

Lemma consumed_append (p rest : string) : consumed (p +:+ rest) rest = p.
Proof.
  unfold consumed. rewrite length_append.
  replace (String.length p + String.length rest - String.length rest)%nat
    with (String.length p) by lia.
  apply upto_append.
Qed.

Lemma all_digits_append (a b : string) :
  all_digits a = true -> all_digits b = true -> all_digits (a +:+ b) = true.
Proof.
  induction a as [|x a IH]; [auto|].
  rewrite append_cons. simpl.
  intros [Hx Ha]%andb_true_iff Hb. apply andb_true_iff. auto.
Qed.

(** a repetition of [[0-9]] takes digits, at most [hi] of them, and sets
    no group *)
Lemma rep_digits (hi : nat) : forall lo s c s' c',
  matches (Rep lo hi (Range "0" "9")) s c s' c' ->
  c' = c /\ exists p, s = p +:+ s' /\ all_digits p = true
                     /\ (String.length p <= hi)%nat.
Proof.
  induction hi as [|hi IH]; intros lo s c s' c' H; inversion H; subst.
  - split; [reflexivity|]. exists EmptyString. simpl. auto with arith.
  - split; [reflexivity|]. exists EmptyString. simpl. auto with arith.
  - match goal with
    | H1 : matches (Range _ _) _ _ _ _, H2 : matches (Rep _ _ _) _ _ _ _ |- _ =>
        inversion H1; subst; apply IH in H2 as (-> & p & -> & Hp & Hlen)
    end.
    split; [reflexivity|]. exists (String a p). simpl.
    unfold is_digit. repeat split; auto with arith.
    apply andb_true_iff. auto.
Qed.

Lemma matches_digits (r : regex) (k : nat) s c s' c' :
  digits_only r = Some k -> matches r s c s' c' ->
  c' = c /\ exists p, s = p +:+ s' /\ all_digits p = true
                     /\ (String.length p <= k)%nat.
Proof.
  destruct r as [| |lo hi| | | |lo hi r|]; simpl; try discriminate.
  - destruct (Ascii.eqb lo "0" && Ascii.eqb hi "9") eqn:E; [|discriminate].
    apply andb_true_iff in E as [->%Ascii.eqb_eq ->%Ascii.eqb_eq].
    intros [= <-] H. inversion H; subst.
    split; [reflexivity|]. exists (String a EmptyString). simpl.
    unfold is_digit. repeat split; auto. apply andb_true_iff. auto.
  - destruct r as [| |lo' hi'| | | | |]; try discriminate.
    destruct (Ascii.eqb lo' "0" && Ascii.eqb hi' "9") eqn:E; [|discriminate].
    apply andb_true_iff in E as [->%Ascii.eqb_eq ->%Ascii.eqb_eq].
    intros [= <-] H. eapply rep_digits; eauto.
Qed.

(** Matching keeps the groups within their ceilings. *)
Lemma matches_digits_within (ceiling : string -> nat) r s c s' c' :
  matches r s c s' c' -> groups_digits ceiling r = true ->
  digits_within ceiling c -> digits_within ceiling c'.
Proof.
  induction 1 as [ | | |r1 r2 s c s1 c1 s2 c2 H1 IH1 H2 IH2| | | | |
                  |lo hi r s c s1 c1 s2 c2 H1 IH1 H2 IH2
                  |name r s c s1 c1 H1 IH1];
    simpl; intros Hg Hc; auto.
  - apply andb_true_iff in Hg as [Hg1 Hg2]. auto.
  - apply andb_true_iff in Hg as [Hg1 Hg2]. auto.
  - apply andb_true_iff in Hg as [Hg1 Hg2]. auto.
  - destruct (digits_only r) as [k|] eqn:Hk; [|discriminate].
    apply Nat.leb_le in Hg.
    destruct (matches_digits r k _ _ _ _ Hk H1) as (-> & p & -> & Hp & Hlen).
    rewrite consumed_append. intros name' v.
    destruct (decide (name = name')) as [<-|Hne].
    + rewrite lookup_insert_eq. intros [= <-]. split; [assumption|lia].
    + rewrite lookup_insert_ne by assumption. apply Hc.
Qed.

Lemma digits_within_empty (ceiling : string -> nat) : digits_within ceiling ∅.
Proof. intros name v. rewrite lookup_empty. discriminate. Qed.

Lemma digit_val_range (c : ascii) : is_digit c = true -> 0 <= Str.digit_val c <= 9.
Proof.
  unfold is_digit, in_range, Str.digit_val.
  intros [H1 H2]%andb_true_iff. apply Nat.leb_le in H1, H2.
  change (nat_of_ascii "0") with 48%nat in H1.
  change (nat_of_ascii "9") with 57%nat in H2. lia.
Qed.

Lemma int_acc_range (v : string) : forall acc,
  all_digits v = true -> 0 <= acc ->
  acc * 10 ^ Z.of_nat (String.length v) <= Str.int_acc acc v
  < (acc + 1) * 10 ^ Z.of_nat (String.length v).
Proof.
  induction v as [|c v IH]; intros acc Hv Hacc.
  - simpl. lia.
  - simpl in Hv. apply andb_true_iff in Hv as [Hc Hv].
    apply digit_val_range in Hc.
    cbn [Str.int_acc String.length]. rewrite Nat2Z.inj_succ, Z.pow_succ_r by lia.
    specialize (IH (10 * acc + Str.digit_val c) Hv ltac:(lia)).
    assert (0 < 10 ^ Z.of_nat (String.length v)) by (apply Z.pow_pos_nonneg; lia).
    nia.
Qed.

(** [int] of at most [k] digits is a natural number below [10 ^ k] *)
Lemma int_range (v : string) (k : nat) :
  all_digits v = true -> (String.length v <= k)%nat ->
  0 <= Str.int v < 10 ^ Z.of_nat k.
Proof.
  intros Hv Hlen. unfold Str.int.
  pose proof (int_acc_range v 0 Hv ltac:(lia)) as H.
  assert (10 ^ Z.of_nat (String.length v) <= 10 ^ Z.of_nat k)
    by (apply Z.pow_le_mono_r; lia).
  lia.
Qed.

End ReFacts.

(** ** Datetimes *)

Module DatetimeFacts.
Import Datetime DatetimeSpec.

Lemma lex_opp (xs : list Z) : forall ys, lex ys xs = CompOpp (lex xs ys).
Proof.
  induction xs as [|x xs IH]; intros [|y ys]; simpl; auto.
  rewrite (Z.compare_antisym x y).
  destruct (x ?= y); simpl; auto.
Qed.

(** [not (a < b)] is [b <= a]: the order on datetimes is total. *)
Lemma lt_false_le (a b : datetime) : lt a b = false -> le b a = true.
Proof.
  unfold lt, le, cmp. rewrite (lex_opp (fields a) (fields b)).
  destruct (lex (fields a) (fields b)); simpl; congruence.
Qed.

Lemma lt_true_not_le (a b : datetime) : lt a b = true -> le b a = false.
Proof.
  unfold lt, le, cmp. rewrite (lex_opp (fields a) (fields b)).
  destruct (lex (fields a) (fields b)); simpl; congruence.
Qed.

Lemma valid_fields (d : datetime) :
  valid d ->
  check_date_fields (year d) (month d) (day d) = Ok tt
  /\ check_time_fields (hour d) (minute d) (second d) (microsecond d) = Ok tt.
Proof.
  unfold valid, new. intros H.
  destruct (check_date_fields _ _ _) as [[]|]; [|discriminate].
  destruct (check_time_fields _ _ _ _) as [[]|]; [|discriminate]. auto.
Qed.


(** Replacing the time of day of a datetime by that of another one
    never raises. *)
Lemma replace_time_of (d t : datetime) :
  valid d -> valid t ->
  replace d None None None
    (Some (hour t)) (Some (minute t)) (Some (second t)) (Some (microsecond t))
  = Ok (with_time_of d t).
Proof.
  intros [Hd _]%valid_fields [_ Ht]%valid_fields.
  unfold replace, new; simpl. rewrite Hd, Ht. reflexivity.
Qed.

(** *** Ordinals and the range of datetimes *)

Lemma month_day_all :
  forallb (fun k => month_day_ok (Z.of_nat k) true && month_day_ok (Z.of_nat k) false)
    (seq 0 365) = true.
Proof. vm_compute. reflexivity. Qed.

Lemma month_day_valid (n : Z) (leapyear : bool) :
  0 <= n <= 364 -> month_day_ok n leapyear = true.
Proof.
  intros Hn. pose proof month_day_all as H.
  rewrite forallb_forall in H. specialize (H (Z.to_nat n)).
  rewrite Z2Nat.id in H by lia.
  assert (Hin : In (Z.to_nat n) (seq 0 365)) by (apply in_seq; lia).
  apply H in Hin. apply andb_true_iff in Hin as [H1 H2].
  destruct leapyear; assumption.
Qed.

Lemma is_leap_cycles (n400 n100 n4 n1 : Z) :
  0 <= n1 <= 3 -> 0 <= n4 <= 24 -> 0 <= n100 <= 3 ->
  is_leap (n400 * 400 + 1 + (n100 * 100 + n4 * 4 + n1))
  = (n1 =? 3) && (negb (n4 =? 24) || (n100 =? 3)).
Proof.
  intros H1 H4 H100. unfold is_leap.
  set (y := n400 * 400 + 1 + (n100 * 100 + n4 * 4 + n1)).
  destruct (Z.eqb_spec (y mod 4) 0) as [E4|E4];
  destruct (Z.eqb_spec (y mod 100) 0) as [E100|E100];
  destruct (Z.eqb_spec (y mod 400) 0) as [E400|E400];
  destruct (Z.eqb_spec n1 3) as [F1|F1];
  destruct (Z.eqb_spec n4 24) as [F4|F4];
  destruct (Z.eqb_spec n100 3) as [F100|F100];
  simpl; try reflexivity; exfalso; subst y;
  Z.to_euclidean_division_equations; lia.
Qed.

Lemma days_in_month_flag (y m : Z) :
  days_in_month y m = if (m =? 2) && is_leap y then 29 else DAYS_IN_MONTH m.
Proof. reflexivity. Qed.

Lemma ord2ymd_valid (n : Z) :
  1 <= n <= MAXORDINAL ->
  let '(y, m, d) := ord2ymd n in check_date_fields y m d = Ok tt.
Proof.
  intros Hn. unfold ord2ymd, MAXORDINAL, DI400Y, DI100Y, DI4Y in *.
  set (n400 := (n - 1) / 146097).
  set (r400 := (n - 1) mod 146097).
  set (n100 := r400 / 36524).
  set (r100 := r400 mod 36524).
  set (n4 := r100 / 1461).
  set (r4 := r100 mod 1461).
  set (n1 := r4 / 365).
  set (r1 := r4 mod 365).
  assert (H400 : n - 1 = 146097 * n400 + r400 /\ 0 <= r400 < 146097)
    by (unfold n400, r400; split; [apply Z.div_mod; lia | apply Z.mod_pos_bound; lia]).
  assert (H100 : r400 = 36524 * n100 + r100 /\ 0 <= r100 < 36524)
    by (unfold n100, r100; split; [apply Z.div_mod; lia | apply Z.mod_pos_bound; lia]).
  assert (H4 : r100 = 1461 * n4 + r4 /\ 0 <= r4 < 1461)
    by (unfold n4, r4; split; [apply Z.div_mod; lia | apply Z.mod_pos_bound; lia]).
  assert (H1 : r4 = 365 * n1 + r1 /\ 0 <= r1 < 365)
    by (unfold n1, r1; split; [apply Z.div_mod; lia | apply Z.mod_pos_bound; lia]).
  clearbody n400 r400 n100 r100 n4 r4 n1 r1.
  assert (Hb : 0 <= n400 /\ 0 <= n100 <= 4 /\ 0 <= n4 <= 24 /\ 0 <= n1 <= 4) by lia.
  destruct ((n1 =? 4) || (n100 =? 4)) eqn:E.
  - unfold check_date_fields, MINYEAR, MAXYEAR.
    apply orb_true_iff in E.
    assert (Hy : 1 <= n400 * 400 + 1 + (n100 * 100 + n4 * 4 + n1) - 1 <= 9999)
      by (destruct E as [E|E]; apply Z.eqb_eq in E; lia).
    destruct Hy as [Hy1 Hy2]. apply Z.leb_le in Hy1, Hy2.
    rewrite Hy1, Hy2. reflexivity.
  - apply orb_false_iff in E as [E1 E100]. apply Z.eqb_neq in E1, E100.
    set (leap := (n1 =? 3) && (negb (n4 =? 24) || (n100 =? 3))).
    set (y := n400 * 400 + 1 + (n100 * 100 + n4 * 4 + n1)).
    assert (Hy : 1 <= y <= 9999) by (unfold y; lia).
    assert (Hleap : is_leap y = leap) by (apply is_leap_cycles; lia).
    pose proof (month_day_valid r1 leap ltac:(lia)) as Hmd.
    unfold month_day_ok, month_day in Hmd.
    destruct (r1 <? _) eqn:Hlt;
      apply andb_true_iff in Hmd as [Hmd Hd2];
      apply andb_true_iff in Hmd as [Hmd Hd1];
      apply andb_true_iff in Hmd as [Hm1 Hm2];
      unfold check_date_fields, MINYEAR, MAXYEAR;
      rewrite days_in_month_flag, Hleap, Hm1, Hm2, Hd1, Hd2;
      destruct Hy as [Hy1 Hy2]; apply Z.leb_le in Hy1, Hy2;
      rewrite Hy1, Hy2; reflexivity.
Qed.

Lemma check_date_fields_inv (y m d : Z) :
  check_date_fields y m d = Ok tt ->
  1 <= y <= 9999 /\ 1 <= m <= 12 /\ 1 <= d <= days_in_month y m.
Proof.
  unfold check_date_fields, MINYEAR, MAXYEAR.
  destruct (Z.leb_spec 1 y); destruct (Z.leb_spec y 9999); simpl; try discriminate.
  destruct (Z.leb_spec 1 m); destruct (Z.leb_spec m 12); simpl; try discriminate.
  destruct (Z.leb_spec 1 d); destruct (Z.leb_spec d (days_in_month y m));
    simpl; try discriminate.
  lia.
Qed.

Lemma check_date_fields_intro (y m d : Z) :
  1 <= y <= 9999 -> 1 <= m <= 12 -> 1 <= d <= days_in_month y m ->
  check_date_fields y m d = Ok tt.
Proof.
  intros [Hy1 Hy2] [Hm1 Hm2] [Hd1 Hd2]. unfold check_date_fields, MINYEAR, MAXYEAR.
  apply Z.leb_le in Hy1, Hy2, Hm1, Hm2, Hd1, Hd2.
  rewrite Hy1, Hy2, Hm1, Hm2, Hd1, Hd2. reflexivity.
Qed.

Lemma check_time_fields_inv (h mi s us : Z) :
  check_time_fields h mi s us = Ok tt ->
  0 <= h <= 23 /\ 0 <= mi <= 59 /\ 0 <= s <= 59 /\ 0 <= us <= 999999.
Proof.
  unfold check_time_fields.
  destruct (Z.leb_spec 0 h); destruct (Z.leb_spec h 23); simpl; try discriminate.
  destruct (Z.leb_spec 0 mi); destruct (Z.leb_spec mi 59); simpl; try discriminate.
  destruct (Z.leb_spec 0 s); destruct (Z.leb_spec s 59); simpl; try discriminate.
  destruct (Z.leb_spec 0 us); destruct (Z.leb_spec us 999999); simpl; try discriminate.
  lia.
Qed.

Lemma check_time_fields_intro (h mi s us : Z) :
  0 <= h <= 23 -> 0 <= mi <= 59 -> 0 <= s <= 59 -> 0 <= us <= 999999 ->
  check_time_fields h mi s us = Ok tt.
Proof.
  intros [A1 A2] [B1 B2] [C1 C2] [D1 D2]. unfold check_time_fields.
  apply Z.leb_le in A1, A2, B1, B2, C1, C2, D1, D2.
  rewrite A1, A2, B1, B2, C1, C2, D1, D2. reflexivity.
Qed.

Lemma month_cases (m : Z) :
  1 <= m <= 12 ->
  m = 1 \/ m = 2 \/ m = 3 \/ m = 4 \/ m = 5 \/ m = 6 \/ m = 7 \/ m = 8
  \/ m = 9 \/ m = 10 \/ m = 11 \/ m = 12.
Proof. lia. Qed.

Lemma days_in_month_range (y m : Z) :
  1 <= m <= 12 -> 28 <= days_in_month y m <= 31.
Proof.
  intros Hm. unfold days_in_month.
  destruct ((m =? 2) && is_leap y); [lia|].
  apply month_cases in Hm.
  repeat (destruct Hm as [->|Hm]; [vm_compute; split; discriminate|]).
  subst. vm_compute; split; discriminate.
Qed.

Lemma days_before_month_range (y m : Z) :
  1 <= m <= 12 -> 0 <= days_before_month y m <= 335.
Proof.
  intros Hm. unfold days_before_month.
  assert (0 <= DAYS_BEFORE_MONTH m <= 334).
  { apply month_cases in Hm.
    repeat (destruct Hm as [->|Hm]; [vm_compute; split; discriminate|]).
    subst. vm_compute; split; discriminate. }
  destruct ((2 <? m) && is_leap y); lia.
Qed.

Lemma ymd2ord_range (y m d : Z) :
  check_date_fields y m d = Ok tt -> 1 <= ymd2ord y m d <= 366 * y.
Proof.
  intros (Hy & Hm & Hd)%check_date_fields_inv.
  pose proof (days_in_month_range y m Hm).
  pose proof (days_before_month_range y m Hm).
  unfold ymd2ord, days_before_year.
  Z.to_euclidean_division_equations. lia.
Qed.

Lemma timedelta_new_range (days seconds us minutes hours : Z) :
  0 <= days <= 4000000 ->
  0 <= seconds + (minutes * 60 + hours * 3600) <= 200000 ->
  0 <= us <= 2000000 ->
  exists td, timedelta_new days seconds us minutes hours = Ok td
    /\ days <= td_days td <= days + 3
    /\ 0 <= td_seconds td < 86400
    /\ 0 <= td_microseconds td < 1000000.
Proof.
  intros Hd Hs Hus. unfold timedelta_new.
  match goal with
  | |- context [if ?c then _ else _] => destruct c eqn:E
  end.
  - exfalso. apply Z.ltb_lt in E. revert E.
    Z.to_euclidean_division_equations. lia.
  - eexists. split; [reflexivity|]. simpl.
    Z.to_euclidean_division_equations. lia.
Qed.

Lemma add_in_range (base : datetime) (td : timedelta) :
  valid base -> year base <= 9100 ->
  0 <= td_days td <= 200000 -> 0 <= td_seconds td < 86400 ->
  0 <= td_microseconds td < 1000000 ->
  exists dt, Datetime.add base td = Ok dt.
Proof.
  intros Hv Hy Hd Hs Hus.
  apply valid_fields in Hv as [Hdate Htime].
  pose proof (ymd2ord_range _ _ _ Hdate) as Hord.
  apply check_time_fields_inv in Htime as (Hh & Hmi & Hse & Hmu).
  unfold Datetime.add, toordinal.
  destruct (timedelta_new_range (ymd2ord (year base) (month base) (day base))
              (second base) (microsecond base) (minute base) (hour base))
    as (d1 & -> & Hd1 & Hs1 & Hus1); try lia.
  simpl. unfold timedelta_add.
  destruct (timedelta_new_range (td_days d1 + td_days td)
              (td_seconds d1 + td_seconds td)
              (td_microseconds d1 + td_microseconds td) 0 0)
    as (d2 & -> & Hd2 & Hs2 & Hus2); try lia.
  simpl.
  assert (Hrange : 1 <= td_days d2 <= MAXORDINAL) by (unfold MAXORDINAL; lia).
  destruct Hrange as [R1 R2].
  assert (R1' : (0 <? td_days d2) = true) by (apply Z.ltb_lt; lia).
  apply Z.leb_le in R2 as R2'. rewrite R1', R2'. simpl.
  pose proof (ord2ymd_valid (td_days d2) ltac:(lia)) as Hymd.
  destruct (ord2ymd (td_days d2)) as [[y m] d].
  unfold new. rewrite Hymd. simpl.
  rewrite check_time_fields_intro; [simpl; eauto| | | |];
    Z.to_euclidean_division_equations; lia.
Qed.

End DatetimeFacts.

(** ** Relative deltas *)

Module RelativedeltaFacts.
Import Datetime DatetimeSpec DatetimeFacts Relativedelta.

Lemma carry_nonneg (base lo hi : Z) :
  0 < base -> 0 <= lo ->
  carry (base - 1) base lo hi = (lo mod base, hi + lo / base).
Proof.
  intros Hb Hlo. unfold carry, sign.
  rewrite (Z.abs_eq lo Hlo).
  destruct (Z.ltb_spec lo 0); [lia|].
  destruct (Z.ltb_spec (base - 1) lo).
  - rewrite !Z.mul_1_r. reflexivity.
  - rewrite Z.mod_small, Z.div_small by lia. f_equal. lia.
Qed.

(** [_fix] on a delta without negative fields: plain carries *)
Lemma fix_nonneg (rd : relativedelta) :
  0 <= years rd -> 0 <= months rd -> 0 <= days rd -> 0 <= hours rd ->
  0 <= minutes rd -> 0 <= seconds rd -> 0 <= microseconds rd ->
  let s := seconds rd + microseconds rd / 1000000 in
  let mi := minutes rd + s / 60 in
  let h := hours rd + mi / 60 in
  fix_ rd = mkRelativedelta (years rd + months rd / 12) (months rd mod 12)
              (days rd + h / 24) (h mod 24) (mi mod 60) (s mod 60)
              (microseconds rd mod 1000000).
Proof.
  intros Hy Hmo Hd Hh Hmi Hs Hus s mi h. unfold fix_.
  change 999999 with (1000000 - 1). change 59 with (60 - 1).
  change 23 with (24 - 1). change 11 with (12 - 1).
  assert (0 <= s) by (unfold s; Z.to_euclidean_division_equations; lia).
  assert (0 <= mi) by (unfold mi; Z.to_euclidean_division_equations; lia).
  assert (0 <= h) by (unfold h; Z.to_euclidean_division_equations; lia).
  rewrite (carry_nonneg 1000000) by lia. cbv beta iota. fold s.
  rewrite (carry_nonneg 60 s) by lia. cbv beta iota. fold mi.
  rewrite (carry_nonneg 60 mi) by lia. cbv beta iota. fold h.
  rewrite (carry_nonneg 24 h) by lia. cbv beta iota.
  rewrite (carry_nonneg 12) by lia. reflexivity.
Qed.

(** the delta of the fields the grammar can produce *)
Lemma new_short_bounded (y mo d w h mi s : Z) :
  0 <= y < 10 -> 0 <= mo < 100 -> 0 <= d < 100000 -> 0 <= w < 10000 ->
  0 <= h < 100000 -> 0 <= mi < 100000 -> 0 <= s < 100000 ->
  let rd := Relativedelta.new y mo d w h mi s 0 in
  0 <= years rd <= 17 /\ 0 <= months rd <= 11 /\ 0 <= days rd <= 180000
  /\ 0 <= hours rd <= 23 /\ 0 <= minutes rd <= 59 /\ 0 <= seconds rd <= 59
  /\ microseconds rd = 0.
Proof.
  intros Hy Hmo Hd Hw Hh Hmi Hs rd. unfold rd, Relativedelta.new.
  rewrite fix_nonneg by (simpl; lia).
  cbn [years months days hours minutes seconds microseconds].
  Z.to_euclidean_division_equations. lia.
Qed.

Lemma monthrange_days_in_month (y m : Z) :
  monthrange_ndays y m = days_in_month y m.
Proof.
  unfold monthrange_ndays, days_in_month.
  destruct (Z.eqb_spec m 2) as [->|]; simpl; [|lia].
  destruct (is_leap y); reflexivity.
Qed.

(** Adding a delta of the grammar to a reference time up to the year
    9000 stays within the range of datetimes. *)
Lemma radd_in_range (rd : relativedelta) (other : datetime) :
  valid other -> year other <= 9000 ->
  0 <= years rd <= 17 -> 0 <= months rd <= 11 -> 0 <= days rd <= 180000 ->
  0 <= hours rd <= 23 -> 0 <= minutes rd <= 59 -> 0 <= seconds rd <= 59 ->
  microseconds rd = 0 ->
  exists dt, radd rd other = Ok dt.
Proof.
  intros Hv Hyear Hy Hmo Hd Hh Hmi Hs Hus.
  pose proof Hv as Hv'. apply valid_fields in Hv' as [Hdate Htime].
  apply check_date_fields_inv in Hdate as (Hy0 & Hm0 & Hd0).
  unfold radd.
  set (ym := if months rd =? 0 then _ else _).
  assert (Hym : year other <= fst ym <= year other + 18 /\ 1 <= snd ym <= 12).
  { unfold ym. destruct (Z.eqb_spec (months rd) 0); simpl; [lia|].
    destruct (Z.ltb_spec 12 (month other + months rd)); simpl; [lia|].
    destruct (Z.ltb_spec (month other + months rd) 1); simpl; lia. }
  destruct ym as [y m]. simpl in Hym. destruct Hym as [Hy' Hm'].
  pose proof (days_in_month_range y m Hm') as Hdim.
  unfold Datetime.replace. simpl.
  assert (Hbase : Datetime.new y m (Z.min (monthrange_ndays y m) (day other))
                    (hour other) (minute other) (second other)
                    (microsecond other)
                  = Ok (mkDatetime y m (Z.min (monthrange_ndays y m) (day other))
                          (hour other) (minute other) (second other)
                          (microsecond other))).
  { unfold Datetime.new. rewrite Htime.
    rewrite check_date_fields_intro; [reflexivity|lia|lia|].
    rewrite monthrange_days_in_month. lia. }
  rewrite Hbase. simpl.
  destruct (timedelta_new_range (days rd) (seconds rd) (microseconds rd)
              (minutes rd) (hours rd))
    as (td & -> & Htd & Hts & Htus); try lia.
  simpl. apply add_in_range; simpl; try lia.
  unfold valid. simpl. exact Hbase.
Qed.

End RelativedeltaFacts.

(** ** The short-duration grammar *)

Module ShortTimeFacts.
Import Re ReSpec ReFacts Datetime ShortTime ShortTimeSpec.


Lemma compiled_groups_consume : groups_consume compiled = true.
Proof. reflexivity. Qed.

Lemma compiled_group_names :
  group_names compiled
  = ["years"; "months"; "weeks"; "days"; "hours"; "minutes"; "seconds"].
Proof. reflexivity. Qed.

Lemma data_of_lookup (m : match_object) (name : string) :
  pattern m = compiled ->
  In name ["years"; "months"; "weeks"; "days"; "hours"; "minutes"; "seconds"] ->
  data_of m !! name = Some (parsed m name).
Proof.
  intros Hp Hin. unfold data_of, groupdict, parsed.
  rewrite Hp, compiled_group_names, lookup_fmap. simpl map. simpl list_to_map.
  simpl in Hin.
  repeat (destruct Hin as [<-|Hin];
    [repeat (rewrite lookup_insert_ne by discriminate);
     rewrite lookup_insert_eq; simpl;
     destruct (groups m !! _); reflexivity|]).
  destruct Hin.
Qed.

(** The dictionary built from the match, passed as keywords, is the
    delta of the parsed fields. *)
Lemma of_kwargs_data (m : match_object) :
  pattern m = compiled -> Relativedelta.of_kwargs (data_of m) = offset m.
Proof.
  intros Hp. unfold Relativedelta.of_kwargs, offset.
  rewrite !(data_of_lookup m _ Hp) by (simpl; tauto). reflexivity.
Qed.

Lemma compiled_groups_digits : groups_digits ceiling compiled = true.
Proof. reflexivity. Qed.

(** The groups of a match of the pattern hold digits, no more than the
    ceiling of their unit. *)
Lemma fullmatch_digits (argument : string) (m : match_object) :
  fullmatch compiled argument = Some m -> digits_within ceiling (groups m).
Proof.
  intros (Hm & _ & _)%fullmatch_spec.
  eapply matches_digits_within; eauto using compiled_groups_digits, digits_within_empty.
Qed.

Lemma re_match_digits (argument : string) (m : match_object) :
  re_match compiled argument = Some m -> digits_within ceiling (groups m).
Proof.
  intros (rest & Hm & _)%re_match_spec.
  eapply matches_digits_within; eauto using compiled_groups_digits, digits_within_empty.
Qed.

(** So each field is a natural number below [10 ^ ceiling]. *)
Lemma parsed_range (m : match_object) (name : string) :
  digits_within ceiling (groups m) ->
  0 <= parsed m name < 10 ^ Z.of_nat (ceiling name).
Proof.
  intros Hd. unfold parsed.
  destruct (groups m !! name) as [v|] eqn:Hv.
  - destruct (Hd name v Hv) as [Hv1 Hv2]. apply int_range; assumption.
  - split; [lia|]. apply Z.pow_pos_nonneg; lia.
Qed.

(** From a reference time up to the year 9000, the instant of a match
    is within the range of datetimes. *)
Lemma offset_in_range (utcnow : datetime) (m : match_object) :
  valid utcnow -> year utcnow <= 9000 ->
  digits_within ceiling (groups m) ->
  exists d, Relativedelta.radd (offset m) utcnow = Ok d.
Proof.
  intros Hv Hy Hd.
  pose proof (parsed_range m "years" Hd) as H1.
  pose proof (parsed_range m "months" Hd) as H2.
  pose proof (parsed_range m "days" Hd) as H3.
  pose proof (parsed_range m "weeks" Hd) as H4.
  pose proof (parsed_range m "hours" Hd) as H5.
  pose proof (parsed_range m "minutes" Hd) as H6.
  pose proof (parsed_range m "seconds" Hd) as H7.
  change (10 ^ Z.of_nat (ceiling "years")) with 10 in H1.
  change (10 ^ Z.of_nat (ceiling "months")) with 100 in H2.
  change (10 ^ Z.of_nat (ceiling "days")) with 100000 in H3.
  change (10 ^ Z.of_nat (ceiling "weeks")) with 10000 in H4.
  change (10 ^ Z.of_nat (ceiling "hours")) with 100000 in H5.
  change (10 ^ Z.of_nat (ceiling "minutes")) with 100000 in H6.
  change (10 ^ Z.of_nat (ceiling "seconds")) with 100000 in H7.
  destruct (RelativedeltaFacts.new_short_bounded _ _ _ _ _ _ _ H1 H2 H3 H4 H5 H6 H7)
    as (B1 & B2 & B3 & B4 & B5 & B6 & B7).
  apply RelativedeltaFacts.radd_in_range; assumption.
Qed.

(** [ShortTime] on a full match with a unit group *)
Lemma init_matched (utcnow : datetime) (argument : string) (m : match_object) :
  fullmatch compiled argument = Some m -> has_unit_group m ->
  ShortTime.__init__ utcnow argument
  = (d <- Relativedelta.radd (offset m) utcnow ;; Ok (ShortTime.mk d)).
Proof.
  intros Hm (name & digits & Hg). unfold ShortTime.__init__. rewrite Hm.
  rewrite (fullmatch_group_truthy _ _ _ _ _ compiled_groups_consume Hm Hg).
  simpl. apply fullmatch_spec in Hm as (_ & Hp & _).
  rewrite (of_kwargs_data m Hp). reflexivity.
Qed.

(** the test of [convert] on a prefix match with a unit group *)
Lemma short_prefix_matched (argument : string) (m : match_object) :
  re_match compiled argument = Some m -> has_unit_group m ->
  UserFriendlyTime.short_prefix argument = Some m.
Proof.
  intros Hm (name & digits & Hg). unfold UserFriendlyTime.short_prefix.
  rewrite Hm.
  rewrite (re_match_group_truthy _ _ _ _ _ compiled_groups_consume Hm Hg).
  reflexivity.
Qed.

End ShortTimeFacts.

(** ** [UserFriendlyTime]: the constraint check *)

Module ConstraintFacts.
Import Datetime PdtContext UserFriendlyTime.

Section Converter.
Context {A : Type}.
Variable converter : option (string -> result A).

(** What a successful [check_constraints] tells: the instant is not in
    the past, the object is returned with only [arg] set, and [arg] is
    the remaining text or what the converter made of it. *)
Lemma check_constraints_ok (self r : t (A:=A)) (utcnow : datetime)
    (remaining : string) :
  check_constraints converter self utcnow remaining = Ok r ->
  lt (dt self) utcnow = false
  /\ raw r = raw self /\ dt r = dt self /\ now r = now self
  /\ match converter with
     | None => arg r = Some (Remaining remaining)
     | Some c => exists a, c remaining = Ok a /\ arg r = Some (Converted a)
     end.
Proof.
  unfold check_constraints.
  destruct (lt (dt self) utcnow); [discriminate|].
  destruct converter as [c|].
  - destruct (c remaining) as [a|e] eqn:Hc; simpl; [|discriminate].
    intros [= <-]. simpl. eauto 10.
  - intros [= <-]. simpl. auto.
Qed.

Lemma check_constraints_past (self : t (A:=A)) (utcnow : datetime)
    (remaining : string) :
  lt (dt self) utcnow = true ->
  check_constraints converter self utcnow remaining
  = Raise (BadArgument "This time is in the past.").
Proof. unfold check_constraints. intros ->. reflexivity. Qed.

End Converter.
End ConstraintFacts.

(** ** The short-duration grammar, continued *)

Module ShortTimeClaims.
Import Re ReSpec ReFacts Datetime ShortTime ShortTimeSpec ShortTimeFacts.
Import UserFriendlyTime ConstraintFacts.

(** C1.  When the short-duration grammar matches with at least one
    numeric unit group, the instant is [now + relativedelta(fields)],
    the fields being the integers parsed for years, months, weeks, days,
    hours, minutes and seconds, and 0 for a unit that is absent: for
    [ShortTime] on a full match (which returns that instant whenever the
    reference time is not beyond the year 9000), and for
    [UserFriendlyTime.convert] on a match of a prefix, where that
    instant (and the text after the match, stripped) is what goes
    through [check_constraints] and what a successful conversion
    returns. *)
Theorem short_duration_instant {A : Type}
    (nlp : string -> datetime -> option (list nlp_element))
    (converter : option (string -> result A))
    (utcnow : datetime) (argument : string) (m : match_object) :
  has_unit_group m ->
  (fullmatch compiled argument = Some m ->
     ShortTime.__init__ utcnow argument
     = (d <- Relativedelta.radd (offset m) utcnow ;; Ok (ShortTime.mk d))
     /\ (valid utcnow -> year utcnow <= 9000 ->
         exists d, Relativedelta.radd (offset m) utcnow = Ok d
                   /\ ShortTime.__init__ utcnow argument = Ok (ShortTime.mk d)))
  /\ (re_match compiled argument = Some m ->
        convert nlp converter utcnow argument
        = (d <- Relativedelta.radd (offset m) utcnow ;;
           check_constraints converter (mk argument d None utcnow) utcnow
             (Str.strip (Str.from (m_end m) argument)))
        /\ forall r, convert nlp converter utcnow argument = Ok r ->
             Relativedelta.radd (offset m) utcnow = Ok (dt r)).
Proof.
  intros Hg. split.
  - intros Hm. pose proof (init_matched utcnow argument m Hm Hg) as Hinit.
    split; [exact Hinit|].
    intros Hv Hy.
    destruct (offset_in_range utcnow m Hv Hy (fullmatch_digits _ _ Hm))
      as [d Hd].
    exists d. split; [exact Hd|]. rewrite Hinit, Hd. reflexivity.
  - intros Hm.
    assert (Hc : convert nlp converter utcnow argument
      = (d <- Relativedelta.radd (offset m) utcnow ;;
         check_constraints converter (mk argument d None utcnow) utcnow
           (Str.strip (Str.from (m_end m) argument)))).
    { unfold convert. rewrite (short_prefix_matched argument m Hm Hg).
      apply re_match_spec in Hm as (rest & _ & Hp & _).
      rewrite (of_kwargs_data m Hp). reflexivity. }
    split; [exact Hc|].
    intros r Hr. rewrite Hc in Hr.
    destruct (Relativedelta.radd (offset m) utcnow) as [d|e]; [|discriminate].
    simpl in Hr. apply check_constraints_ok in Hr as (_ & _ & -> & _).
    reflexivity.
Qed.

End ShortTimeClaims.

Module ShortTimeWitness.
Import Re Datetime ShortTime ShortTimeSpec ShortTimeClaims UserFriendlyTime.
Import Examples.

(** C1 at ["2d12h"] (a full match) and at ["2d12h do it"] (a prefix
    match), on 31 January 2024 at noon: 3 February 2024, 00:00:00. *)
Lemma short_duration_instant_witness :
  ShortTime.__init__ jan31 "2d12h"
  = Ok (ShortTime.mk (mkDatetime 2024 2 3 0 0 0 0))
  /\ convert nlp no_converter jan31 "2d12h do it"
     = Ok (mk "2d12h do it" (mkDatetime 2024 2 3 0 0 0 0)
             (Some (Remaining "do it")) jan31).
Proof.
  split.
  - destruct (fullmatch compiled "2d12h") as [m|] eqn:Hm;
      [|vm_compute in Hm; discriminate].
    assert (Hg : has_unit_group m).
    { exists "days", "2". vm_compute in Hm. injection Hm as <-. reflexivity. }
    destruct (short_duration_instant nlp no_converter jan31 "2d12h" m Hg)
      as [H _].
    destruct (H Hm) as [-> _]. vm_compute in Hm. injection Hm as <-.
    reflexivity.
  - destruct (re_match compiled "2d12h do it") as [m|] eqn:Hm;
      [|vm_compute in Hm; discriminate].
    assert (Hg : has_unit_group m).
    { exists "days", "2". vm_compute in Hm. injection Hm as <-. reflexivity. }
    destruct (short_duration_instant nlp no_converter jan31 "2d12h do it" m Hg)
      as [_ H].
    destruct (H Hm) as [-> _]. vm_compute in Hm. injection Hm as <-.
    reflexivity.
Defined.

End ShortTimeWitness.

(** ** [UserFriendlyTime.convert] *)

Module ConvertFacts.
Import Datetime DatetimeSpec DatetimeFacts PdtContext.
Import UserFriendlyTime UserFriendlyTimeSpec ConstraintFacts.

Section Converter.
Context {A : Type}.
Variable nlp : string -> datetime -> option (list nlp_element).
Variable converter : option (string -> result A).

(** Every successful conversion is a successful [check_constraints] on
    an object whose [now] is the clock reading taken at the start. *)
Lemma convert_ok_checked (utcnow : datetime) (argument : string) (r : t (A:=A)) :
  convert nlp converter utcnow argument = Ok r ->
  exists self remaining,
    check_constraints converter self utcnow remaining = Ok r
    /\ now self = utcnow /\ raw self = argument.
Proof.
  unfold convert. simpl.
  destruct (short_prefix argument) as [m|].
  - destruct (Relativedelta.radd _ utcnow) as [d|]; simpl; [|discriminate].
    eauto 10.
  - destruct (nlp _ utcnow) as [[|[[[[d st] b] e] txt] rest]|]; eauto 10.
    destruct (negb (hasDateOrTime st)); eauto 10.
    destruct (negb (in_0_1 b) && negb (e =? String.length _)%nat);
      [discriminate|].
    destruct (if negb (hasTime st) then _ else _) as [d1|]; simpl;
      [|discriminate].
    destruct (if accuracy st =? ACU_HALFDAY then _ else _) as [d2|]; simpl;
      [|discriminate].
    match goal with
    | |- bind ?c _ = _ -> _ => destruct c as [remaining|]; simpl; [|discriminate]
    end.
    eauto 10.
Qed.

(** The natural-language path, read backwards from a success: the span
    was well placed, the defaulting of the time of day and the half-day
    adjustment went through, a match that begins at 1 sits between two
    double quotes, and the constraint check ran on the text the
    specification describes. *)
Lemma convert_nlp_ok (utcnow : datetime) (argument : string)
    (d : datetime) (st : pdtContext) (b e : nat) (txt : string)
    (rest : list nlp_element) (r : t (A:=A)) :
  short_prefix argument = None ->
  nlp (normalize argument) utcnow = Some ((d, st, b, e, txt) :: rest) ->
  hasDateOrTime st = true ->
  convert nlp converter utcnow argument = Ok r ->
  well_placed (normalize argument) b e
  /\ (b = 1%nat ->
        String.get 0 (normalize argument) = Some dquote
        /\ String.get e (normalize argument) = Some dquote)
  /\ exists d1 d2,
       (if negb (hasTime st) then
          replace d None None None (Some (hour utcnow)) (Some (minute utcnow))
            (Some (second utcnow)) (Some (microsecond utcnow))
        else Ok d) = Ok d1
       /\ (if accuracy st =? ACU_HALFDAY then
             replace d1 None None (Some (day utcnow + 1)) None None None None
           else Ok d1) = Ok d2
       /\ check_constraints converter (mk argument d2 None utcnow) utcnow
            (remaining_by_spec (normalize argument) b e) = Ok r.
Proof.
  intros Hshort Hnlp Hst. unfold convert. rewrite Hshort. simpl.
  rewrite Hnlp, Hst. simpl. set (arg' := normalize argument).
  destruct (negb (in_0_1 b) && negb (e =? String.length arg')%nat) eqn:Hpos;
    [discriminate|].
  destruct (if negb (hasTime st) then _ else _) as [d1|] eqn:H1; simpl;
    [|discriminate].
  destruct (if accuracy st =? ACU_HALFDAY then _ else _) as [d2|] eqn:H2; simpl;
    [|discriminate].
  assert (Hex : forall remaining,
    check_constraints converter (mk argument d2 None utcnow) utcnow remaining
      = Ok r ->
    exists d1' d2',
      Ok d1 = Ok d1'
      /\ (if accuracy st =? ACU_HALFDAY then
            replace d1' None None (Some (day utcnow + 1)) None None None None
          else Ok d1') = Ok d2'
      /\ check_constraints converter (mk argument d2' None utcnow) utcnow
           remaining = Ok r) by eauto.
  unfold well_placed, remaining_by_spec, in_0_1 in *.
  destruct b as [|[|b]]; simpl in *.
  - intros H. split; [auto|]. split; [discriminate|]. auto.
  - unfold Str.index.
    destruct (String.get 0 arg') as [c|] eqn:Hc0; simpl; [|discriminate].
    destruct (Ascii.eqb c dquote) eqn:Hq; simpl; [|discriminate].
    apply Ascii.eqb_eq in Hq as ->.
    destruct (e <? String.length arg')%nat; simpl; [|discriminate].
    destruct (String.get e arg') as [c'|] eqn:Hce; simpl; [|discriminate].
    destruct (Ascii.eqb c' dquote) eqn:Hq'; simpl; [|discriminate].
    apply Ascii.eqb_eq in Hq' as ->.
    rewrite Nat.add_1_r. intros H. split; [auto|]. split; [auto|]. auto.
  - apply negb_false_iff, Nat.eqb_eq in Hpos.
    rewrite Hpos, Nat.eqb_refl. simpl.
    intros H. split; [auto|]. split; [discriminate|]. auto.
Qed.

Lemma get_some_lt (s : string) : forall n c,
  String.get n s = Some c -> (n < String.length s)%nat.
Proof.
  induction s as [|a s IH]; intros [|n] c; simpl; try discriminate; try lia.
  intros H. apply IH in H. lia.
Qed.

(** The natural-language path, read forwards: a well-placed match whose
    quotes are in place and whose candidate could be adjusted reaches
    the constraint check with the text the specification describes. *)
Lemma convert_nlp_reaches (utcnow : datetime) (argument : string)
    (d : datetime) (st : pdtContext) (b e : nat) (txt : string)
    (rest : list nlp_element) (d2 : datetime) :
  short_prefix argument = None ->
  nlp (normalize argument) utcnow = Some ((d, st, b, e, txt) :: rest) ->
  hasDateOrTime st = true ->
  well_placed (normalize argument) b e ->
  quotes_in_place (normalize argument) b e ->
  candidate d st utcnow = Ok d2 ->
  convert nlp converter utcnow argument
  = check_constraints converter (mk argument d2 None utcnow) utcnow
      (remaining_by_spec (normalize argument) b e).
Proof.
  intros Hshort Hnlp Hst Hplace Hquote Hcand.
  unfold convert. rewrite Hshort. simpl. rewrite Hnlp, Hst. simpl.
  set (arg' := normalize argument) in *.
  assert (Hpos : negb (in_0_1 b)
                 && negb (e =? String.length arg')%nat = false).
  { unfold in_0_1. destruct Hplace as [-> | [-> | ->]]; simpl; auto.
    rewrite Nat.eqb_refl. apply andb_false_r. }
  rewrite Hpos. unfold candidate in Hcand.
  destruct (if negb (hasTime st) then _ else _) as [d1|]; simpl in *;
    [|discriminate].
  rewrite Hcand. simpl.
  unfold quotes_in_place, remaining_by_spec, in_0_1 in *.
  destruct b as [|[|b]]; simpl.
  - reflexivity.
  - destruct (Hquote eq_refl) as [H0 He]. unfold Str.index. rewrite H0. simpl.
    rewrite He. simpl. apply get_some_lt in He. apply Nat.ltb_lt in He.
    rewrite He. simpl. rewrite Nat.add_1_r. reflexivity.
  - apply negb_false_iff, Nat.eqb_eq in Hpos.
    rewrite Hpos, Nat.eqb_refl. reflexivity.
Qed.

End Converter.
End ConvertFacts.

Module ConvertClaims.
Import Datetime DatetimeSpec DatetimeFacts PdtContext.
Import UserFriendlyTime UserFriendlyTimeSpec ConstraintFacts ConvertFacts.
Import Examples.

(** C10.  Whatever path a successful [UserFriendlyTime.convert] took
    (short-duration match, natural-language match, or one of the
    no-time-found fallbacks), the result carries the clock reading taken
    at the start as [now], and its instant is not before it. *)
Theorem convert_not_past {A : Type}
    (nlp : string -> datetime -> option (list nlp_element))
    (converter : option (string -> result A))
    (utcnow : datetime) (argument : string) (r : t (A:=A)) :
  convert nlp converter utcnow argument = Ok r ->
  now r = utcnow /\ lt (dt r) utcnow = false /\ le utcnow (dt r) = true.
Proof.
  intros (self & remaining & Hc & Hnow & _)%convert_ok_checked.
  apply check_constraints_ok in Hc as (Hlt & _ & -> & -> & _).
  auto using lt_false_le.
Qed.

Lemma convert_not_past_witness :
  now (mk (A:=unit) "2d12h do it" (mkDatetime 2024 2 3 0 0 0 0)
         (Some (Remaining "do it")) jan31) = jan31
  /\ lt (mkDatetime 2024 2 3 0 0 0 0) jan31 = false
  /\ le jan31 (mkDatetime 2024 2 3 0 0 0 0) = true.
Proof.
  apply (convert_not_past Examples.nlp no_converter jan31 "2d12h do it").
  vm_compute. reflexivity.
Defined.

(** A status without a time of day is not the bare half-day one. *)
Lemma no_time_not_halfday (st : pdtContext) :
  hasTime st = false -> (accuracy st =? ACU_HALFDAY) = false.
Proof.
  unfold hasTime. intros H. apply Z.eqb_neq. intros E. rewrite E in H.
  vm_compute in H. discriminate.
Qed.

Lemma candidate_no_time (d : datetime) (st : pdtContext) (utcnow : datetime) :
  valid utcnow -> valid d -> hasTime st = false ->
  candidate d st utcnow = Ok (with_time_of d utcnow).
Proof.
  intros Hnow Hd Ht. unfold candidate. rewrite Ht. simpl.
  rewrite (replace_time_of d utcnow Hd Hnow). simpl.
  rewrite (no_time_not_halfday st Ht). reflexivity.
Qed.

(** C6.  When the engine found a date or time but no time of day, the
    candidate keeps its date and takes the hour, minute, second and
    microsecond of the reference now.  [HumanTime] succeeds with that
    instant.  In [UserFriendlyTime.convert], a match that is well placed,
    with its quotes in place, goes through [check_constraints] with that
    instant, and every result returned for such a match carries it. *)
Theorem time_of_day_defaulting {A : Type}
    (parseDT : string -> datetime -> datetime * pdtContext)
    (nlp : string -> datetime -> option (list nlp_element))
    (converter : option (string -> result A))
    (utcnow : datetime) (argument : string) (d : datetime) (st : pdtContext) :
  valid utcnow -> valid d ->
  hasDateOrTime st = true -> hasTime st = false ->
  (parseDT argument utcnow = (d, st) ->
     HumanTime.__init__ parseDT utcnow argument
     = Ok (HumanTime.mk (with_time_of d utcnow)
             (lt (with_time_of d utcnow) utcnow)))
  /\ (forall b e txt rest,
        short_prefix argument = None ->
        nlp (normalize argument) utcnow = Some ((d, st, b, e, txt) :: rest) ->
        (well_placed (normalize argument) b e ->
         quotes_in_place (normalize argument) b e ->
         convert nlp converter utcnow argument
         = check_constraints converter
             (mk argument (with_time_of d utcnow) None utcnow) utcnow
             (remaining_by_spec (normalize argument) b e))
        /\ (forall r : t (A:=A),
              convert nlp converter utcnow argument = Ok r ->
              dt r = with_time_of d utcnow)).
Proof.
  intros Hnow Hd Hst Ht. split.
  - intros Hp. unfold HumanTime.__init__. rewrite Hp, Hst, Ht. simpl.
    rewrite (replace_time_of d utcnow Hd Hnow). reflexivity.
  - intros b e txt rest Hshort Hnlp.
    pose proof (candidate_no_time d st utcnow Hnow Hd Ht) as Hcand.
    split.
    + intros Hplace Hquote. eapply convert_nlp_reaches; eauto.
    + intros r Hr.
      destruct (convert_nlp_ok nlp converter _ _ _ _ _ _ _ _ _
                  Hshort Hnlp Hst Hr)
        as (Hplace & Hquote & _ & _ & _ & _ & _).
      rewrite (convert_nlp_reaches nlp converter _ _ _ _ _ _ _ _ _
                 Hshort Hnlp Hst Hplace Hquote Hcand) in Hr.
      apply check_constraints_ok in Hr as (_ & _ & -> & _). reflexivity.
Qed.

(** C6 on 15 January 2024 at 09:30: "yesterday" for [HumanTime] is the
    14th at 09:30, and "do the thing tomorrow" for [convert] is the 16th
    at 09:30, whatever time of day the engine had put in. *)
Lemma time_of_day_defaulting_witness :
  HumanTime.__init__ Examples.parseDT jan15 "yesterday"
  = Ok (HumanTime.mk (mkDatetime 2024 1 14 9 30 0 0) true)
  /\ dt (mk (A:=unit) "do the thing tomorrow" (mkDatetime 2024 1 16 9 30 0 0)
           (Some (Remaining "do the thing")) jan15)
     = with_time_of (mkDatetime 2024 1 16 9 0 0 0) jan15.
Proof.
  split.
  - refine (proj1 (time_of_day_defaulting (A:=unit) Examples.parseDT Examples.nlp
             no_converter jan15 "yesterday" (mkDatetime 2024 1 14 9 0 0 0)
             (mkContext ACU_DAY) _ _ _ _) _); reflexivity.
  - refine (proj2 (proj2 (time_of_day_defaulting (A:=unit) Examples.parseDT
             Examples.nlp no_converter jan15 "do the thing tomorrow"
             (mkDatetime 2024 1 16 9 0 0 0) (mkContext ACU_DAY) _ _ _ _)
             13%nat 21%nat "tomorrow" [] _ _) _ _);
      vm_compute; reflexivity.
Defined.

End ConvertClaims.

(** ** [Time] and [FutureTime] *)

Module TimeClaims.
Import Re ReSpec Datetime DatetimeSpec DatetimeFacts PdtContext HumanTimeSpec.
Import ShortTime ShortTimeSpec ShortTimeFacts.
Import Examples.

(** C7.  An input that is no short duration and that the engine
    resolves to an instant strictly before the reference now makes
    [FutureTime] fail with the past-time error, while [Time] succeeds
    with that instant and the past flag set; and for an input matched by
    the short-duration grammar, [Time] returns with the past flag
    [False] and [FutureTime] accepts it (the reference time being a
    datetime not beyond the year 9000, so that the instant exists). *)
Theorem past_flag
    (parseDT : string -> datetime -> datetime * pdtContext)
    (utcnow : datetime) (argument : string) :
  valid utcnow ->
  (forall e d st,
     ShortTime.__init__ utcnow argument = Raise e ->
     parseDT argument utcnow = (d, st) ->
     hasDateOrTime st = true ->
     valid d ->
     lt (resolved_instant d st utcnow) utcnow = true ->
     Time.__init__ parseDT utcnow argument
     = Ok (HumanTime.mk (resolved_instant d st utcnow) true)
     /\ FutureTime.__init__ parseDT utcnow argument
        = Raise (BadArgument "this time is in the past"))
  /\ (forall m,
        fullmatch compiled argument = Some m -> has_unit_group m ->
        year utcnow <= 9000 ->
        exists d,
          Relativedelta.radd (offset m) utcnow = Ok d
          /\ Time.__init__ parseDT utcnow argument = Ok (HumanTime.mk d false)
          /\ FutureTime.__init__ parseDT utcnow argument
             = Ok (HumanTime.mk d false)).
Proof.
  intros Hnow. split.
  - intros e d st Hshort Hp Hst Hd Hlt.
    assert (Ht : Time.__init__ parseDT utcnow argument
                 = Ok (HumanTime.mk (resolved_instant d st utcnow) true)).
    { unfold Time.__init__, HumanTime.__init__. rewrite Hshort, Hp, Hst. simpl.
      unfold resolved_instant in *. destruct (hasTime st); simpl.
      - rewrite Hlt. reflexivity.
      - rewrite (replace_time_of d utcnow Hd Hnow). simpl.
        rewrite Hlt. reflexivity. }
    split; [exact Ht|].
    unfold FutureTime.__init__. rewrite Ht. reflexivity.
  - intros m Hm Hg Hy.
    destruct (offset_in_range utcnow m Hnow Hy (fullmatch_digits _ _ Hm))
      as [d Hadd].
    exists d. split; [exact Hadd|].
    assert (Ht : Time.__init__ parseDT utcnow argument
                 = Ok (HumanTime.mk d false)).
    { unfold Time.__init__. rewrite (init_matched utcnow argument m Hm Hg), Hadd.
      reflexivity. }
    split; [exact Ht|].
    unfold FutureTime.__init__. rewrite Ht. reflexivity.
Qed.

(** C7 on 15 January 2024 at 09:30: "yesterday" is the 14th at 09:30,
    in the past; "10m" is 09:40. *)
Lemma past_flag_witness :
  (Time.__init__ Examples.parseDT jan15 "yesterday"
   = Ok (HumanTime.mk (mkDatetime 2024 1 14 9 30 0 0) true)
   /\ FutureTime.__init__ Examples.parseDT jan15 "yesterday"
      = Raise (BadArgument "this time is in the past"))
  /\ (exists d,
        d = mkDatetime 2024 1 15 9 40 0 0
        /\ Time.__init__ Examples.parseDT jan15 "10m"
           = Ok (HumanTime.mk d false)
        /\ FutureTime.__init__ Examples.parseDT jan15 "10m"
           = Ok (HumanTime.mk d false)).
Proof.
  assert (Hv : valid jan15) by reflexivity.
  split.
  - refine (proj1 (past_flag Examples.parseDT jan15 "yesterday" Hv)
              (BadArgument "invalid time provided")
              (mkDatetime 2024 1 14 9 0 0 0) (mkContext ACU_DAY)
              _ _ _ _ _); vm_compute; reflexivity.
  - destruct (fullmatch compiled "10m") as [m|] eqn:Hm;
      [|vm_compute in Hm; discriminate].
    assert (Hg : has_unit_group m).
    { exists "minutes", "10". vm_compute in Hm. injection Hm as <-.
      reflexivity. }
    assert (Hy : year jan15 <= 9000) by (vm_compute; discriminate).
    destruct (proj2 (past_flag Examples.parseDT jan15 "10m" Hv) m Hm Hg Hy)
      as (d & Hadd & Ht & Hf).
    exists d. split; [|split; assumption].
    vm_compute in Hm. injection Hm as <-. vm_compute in Hadd.
    injection Hadd as <-. reflexivity.
Defined.

End TimeClaims.

(** ** Where the code departs from its description *)

Module Divergences.
Import Datetime DatetimeSpec DatetimeFacts PdtContext.
Import UserFriendlyTime UserFriendlyTimeSpec ConstraintFacts ConvertFacts.
Import Relativedelta HumanTimedelta Examples.

(** C4.  The input ["in 10 minutes fra nu"] is no short duration and
    ends with [" fra nu"], seven characters; the normalization drops
    nine, and hands ["in 10 minut"] to the engine instead of
    ["in 10 minutes"]. *)
Theorem from_now_cut_too_long :
  short_prefix "in 10 minutes fra nu" = None
  /\ Str.endswith " fra nu" "in 10 minutes fra nu" = true
  /\ String.length " fra nu" = 7%nat
  /\ normalize "in 10 minutes fra nu" = "in 10 minut".
Proof. repeat split; vm_compute; reflexivity. Qed.

(** What the normalization does to every input that ends with
    [" fra nu"] and is left alone by the other two rules: the last nine
    characters go. *)
Lemma normalize_from_now (argument : string) :
  Str.endswith " fra nu" argument = true ->
  let cut := Str.strip (Str.upto_neg 9 argument) in
  Str.startswith "for " cut = false ->
  String.eqb (Str.slice 0 2 cut) "me" = false ->
  normalize argument = Str.strip (Str.upto (String.length argument - 9) argument).
Proof.
  intros He cut Hfor Hme. unfold normalize. rewrite He.
  fold cut. rewrite Hfor, Hme. reflexivity.
Qed.

(** C5.  On 31 January 2024 the input ["midnight"], which the engine
    resolves to that day at 00:00 with the bare half-day accuracy, is
    not moved to the next day: [replace(day=32)] raises. *)
Theorem midnight_on_last_day_of_month :
  short_prefix "midnight" = None
  /\ Examples.nlp (normalize "midnight") jan31
     = Some [(at_midnight jan31, mkContext ACU_HALFDAY, 0, 8, "midnight")%nat]
  /\ convert Examples.nlp no_converter jan31 "midnight"
     = Raise (ValueError "day is out of range for month").
Proof. repeat split; vm_compute; reflexivity. Qed.

(** The half-day adjustment when it goes through: a successful
    conversion of a bare half-day match has the day after the reference
    day, and the other fields as the engine resolved them. *)
Lemma halfday_next_day {A : Type}
    (nlp : string -> datetime -> option (list nlp_element))
    (converter : option (string -> result A))
    (utcnow : datetime) (argument : string)
    (d : datetime) (st : pdtContext) (b e : nat) (txt : string)
    (rest : list nlp_element) (r : t (A:=A)) :
  short_prefix argument = None ->
  nlp (normalize argument) utcnow = Some ((d, st, b, e, txt) :: rest) ->
  accuracy st = ACU_HALFDAY ->
  convert nlp converter utcnow argument = Ok r ->
  dt r = mkDatetime (year d) (month d) (day utcnow + 1)
           (hour d) (minute d) (second d) (microsecond d).
Proof.
  intros Hshort Hnlp Hacc Hr.
  assert (Hst : hasDateOrTime st = true) by (unfold hasDateOrTime; rewrite Hacc; reflexivity).
  assert (Ht : hasTime st = true) by (unfold hasTime; rewrite Hacc; reflexivity).
  destruct (convert_nlp_ok nlp converter _ _ _ _ _ _ _ _ _ Hshort Hnlp Hst Hr)
    as (_ & _ & d1 & d2 & H1 & H2 & Hc).
  rewrite Ht in H1. injection H1 as <-.
  rewrite Hacc, Z.eqb_refl in H2.
  apply check_constraints_ok in Hc as (_ & _ & -> & _). simpl.
  unfold Datetime.replace, Datetime.new in H2. simpl in H2.
  destruct (check_date_fields _ _ _); simpl in H2; [|discriminate].
  destruct (check_time_fields _ _ _ _); simpl in H2; [|discriminate].
  injection H2 as <-. reflexivity.
Qed.

(** The half-day adjustment when it does not: if the day after the
    reference day is no day of the candidate's month, the conversion
    raises [ValueError], wherever the match is and whatever its quotes. *)
Lemma halfday_raises {A : Type}
    (nlp : string -> datetime -> option (list nlp_element))
    (converter : option (string -> result A))
    (utcnow : datetime) (argument : string)
    (d : datetime) (st : pdtContext) (b e : nat) (txt : string)
    (rest : list nlp_element) :
  short_prefix argument = None ->
  nlp (normalize argument) utcnow = Some ((d, st, b, e, txt) :: rest) ->
  accuracy st = ACU_HALFDAY ->
  well_placed (normalize argument) b e ->
  valid d ->
  days_in_month (year d) (month d) < day utcnow + 1 ->
  convert (A:=A) nlp converter utcnow argument
  = Raise (ValueError "day is out of range for month").
Proof.
  intros Hshort Hnlp Hacc Hplace Hd Hday.
  unfold convert. rewrite Hshort. simpl. rewrite Hnlp.
  assert (Hst : hasDateOrTime st = true) by (unfold hasDateOrTime; rewrite Hacc; reflexivity).
  assert (Ht : hasTime st = true) by (unfold hasTime; rewrite Hacc; reflexivity).
  rewrite Hst, Ht, Hacc. simpl.
  assert (Hpos : negb (in_0_1 b)
                 && negb (e =? String.length (normalize argument))%nat = false).
  { unfold in_0_1. destruct Hplace as [-> | [-> | ->]]; simpl; auto.
    rewrite Nat.eqb_refl. apply andb_false_r. }
  rewrite Hpos. simpl.
  unfold Datetime.replace, Datetime.new. simpl.
  apply valid_fields in Hd as [Hdate _].
  unfold check_date_fields in *.
  destruct (negb ((MINYEAR <=? year d) && (year d <=? MAXYEAR))); [discriminate|].
  destruct (negb ((1 <=? month d) && (month d <=? 12))); [discriminate|].
  replace (day utcnow + 1 <=? days_in_month (year d) (month d)) with false
    by (symmetry; apply Z.leb_gt; lia).
  rewrite andb_false_r. reflexivity.
Qed.

(** C3.  On 31 January 2024 the input that opens a quote before
    "midnight" and never closes it (the match is [1, 9)) does not fail
    with the missing-closing-quote error: the half-day adjustment comes
    before the quote checks and raises first. *)
Theorem unclosed_quote_on_last_day_of_month :
  short_prefix (quoted_unclosed "midnight" " do the thing") = None
  /\ Examples.nlp (normalize (quoted_unclosed "midnight" " do the thing")) jan31
     = Some [(at_midnight jan31, mkContext ACU_HALFDAY, 1, 9, "midnight")%nat]
  /\ String.get 9 (quoted_unclosed "midnight" " do the thing") = Some " "%char
  /\ convert Examples.nlp no_converter jan31
       (quoted_unclosed "midnight" " do the thing")
     = Raise (ValueError "day is out of range for month").
Proof. repeat split; vm_compute; reflexivity. Qed.

(** The positional error: a match of a date or time that begins neither
    at 0 nor at 1 and does not end where the input ends is refused;
    this check comes first. *)
Lemma misplaced_raises {A : Type}
    (nlp : string -> datetime -> option (list nlp_element))
    (converter : option (string -> result A))
    (utcnow : datetime) (argument : string)
    (d : datetime) (st : pdtContext) (b e : nat) (txt : string)
    (rest : list nlp_element) :
  short_prefix argument = None ->
  nlp (normalize argument) utcnow = Some ((d, st, b, e, txt) :: rest) ->
  hasDateOrTime st = true ->
  ~ well_placed (normalize argument) b e ->
  convert (A:=A) nlp converter utcnow argument
  = Raise (BadArgument location_message).
Proof.
  intros Hshort Hnlp Hst Hplace.
  unfold convert. rewrite Hshort. simpl. rewrite Hnlp, Hst. simpl.
  unfold well_placed, in_0_1 in *.
  destruct (b =? 0)%nat eqn:E0; [apply Nat.eqb_eq in E0; tauto|].
  destruct (b =? 1)%nat eqn:E1; [apply Nat.eqb_eq in E1; tauto|].
  destruct (e =? String.length (normalize argument))%nat eqn:E2;
    [apply Nat.eqb_eq in E2; tauto|].
  reflexivity.
Qed.

Lemma new_raises_value_error (y m d h mi s us : Z) (e : exn) :
  Datetime.new y m d h mi s us = Raise e -> exists msg, e = ValueError msg.
Proof.
  unfold Datetime.new, check_date_fields, check_time_fields.
  repeat match goal with
         | |- context [if ?c then _ else _] => destruct c; simpl
         end;
    intros [= <-]; eauto.
Qed.

(** And only then, as far as the conversion itself goes (no secondary
    converter): a well-placed match never gets the positional error. *)
Lemma well_placed_other_error
    (nlp : string -> datetime -> option (list nlp_element))
    (utcnow : datetime) (argument : string)
    (d : datetime) (st : pdtContext) (b e : nat) (txt : string)
    (rest : list nlp_element) :
  short_prefix argument = None ->
  nlp (normalize argument) utcnow = Some ((d, st, b, e, txt) :: rest) ->
  hasDateOrTime st = true ->
  well_placed (normalize argument) b e ->
  convert nlp no_converter utcnow argument
  <> Raise (BadArgument location_message).
Proof.
  intros Hshort Hnlp Hst Hplace.
  unfold convert. rewrite Hshort. simpl. rewrite Hnlp, Hst. simpl.
  assert (Hpos : negb (in_0_1 b)
                 && negb (e =? String.length (normalize argument))%nat = false).
  { unfold in_0_1. destruct Hplace as [-> | [-> | ->]]; simpl; auto.
    rewrite Nat.eqb_refl. apply andb_false_r. }
  rewrite Hpos.
  assert (Hv : forall msg, ValueError msg <> BadArgument location_message)
    by discriminate.
  destruct (if negb (hasTime st) then _ else _) as [d1|e1] eqn:H1; simpl.
  2:{ destruct (negb (hasTime st)); [|discriminate].
      apply new_raises_value_error in H1 as [msg ->]. congruence. }
  destruct (if accuracy st =? ACU_HALFDAY then _ else _) as [d2|e2] eqn:H2; simpl.
  2:{ destruct (accuracy st =? ACU_HALFDAY); [|discriminate].
      apply new_raises_value_error in H2 as [msg ->]. congruence. }
  match goal with
  | |- bind ?c _ <> _ => destruct c as [remaining|e3] eqn:H3; simpl
  end.
  - unfold check_constraints, no_converter.
    destruct (lt _ _); [|discriminate].
    intros [= H]; vm_compute in H; discriminate.
  - unfold in_0_1 in H3. destruct b as [|[|b]]; simpl in H3; try discriminate.
    + unfold Str.index in H3.
      destruct (String.get 0 (normalize argument)); simpl in H3.
      * destruct (Ascii.eqb a dquote); simpl in H3.
        -- destruct ((e <? String.length (normalize argument))%nat && _);
             simpl in H3; [discriminate|].
           injection H3 as <-. intros [= H]; vm_compute in H; discriminate.
        -- injection H3 as <-. intros [= H]; vm_compute in H; discriminate.
      * injection H3 as <-. discriminate.
    + destruct (String.length (normalize argument) =? e)%nat; discriminate.
Qed.

(** The quote errors, when the half-day adjustment is not in the way:
    a match that begins at 1 needs a double quote at 0 and one right
    after its end. *)
Lemma quote_errors {A : Type}
    (nlp : string -> datetime -> option (list nlp_element))
    (converter : option (string -> result A))
    (utcnow : datetime) (argument : string)
    (d : datetime) (st : pdtContext) (e : nat) (txt : string)
    (rest : list nlp_element) (c : ascii) :
  short_prefix argument = None ->
  nlp (normalize argument) utcnow = Some ((d, st, 1%nat, e, txt) :: rest) ->
  hasDateOrTime st = true -> hasTime st = true ->
  accuracy st <> ACU_HALFDAY ->
  String.get 0 (normalize argument) = Some c ->
  (c <> dquote ->
     convert (A:=A) nlp converter utcnow argument
     = Raise (BadArgument "Expected quote before time input..."))
  /\ (c = dquote ->
      String.get e (normalize argument) <> Some dquote ->
      convert (A:=A) nlp converter utcnow argument
      = Raise (BadArgument "If the time is quoted, you must unquote it.")).
Proof.
  intros Hshort Hnlp Hst Ht Hacc Hc0.
  unfold convert. rewrite Hshort. simpl. rewrite Hnlp, Hst, Ht. simpl.
  apply Z.eqb_neq in Hacc. rewrite Hacc. simpl.
  unfold Str.index. rewrite Hc0. simpl. split.
  - intros Hne. apply Ascii.eqb_neq in Hne. rewrite Hne. reflexivity.
  - intros -> Hne. rewrite Ascii.eqb_refl. simpl.
    destruct (String.get e (normalize argument)) as [c'|].
    + destruct (Ascii.eqb c' dquote) eqn:E.
      * apply Ascii.eqb_eq in E. congruence.
      * rewrite andb_false_r. reflexivity.
    + rewrite andb_false_r. reflexivity.
Qed.


(** With the names dateutil gives these fields, the same loop and join
    render what the description says. *)
Lemma render_with_attribute_names :
  render ["years"; "months"; "days"; "hours"; "minutes"; "seconds"]
    (mkRelativedelta 1 2 3 4 0 0 0) []
  = Ok ["1 year"; "2 months"; "3 days"; "4 hours"]
  /\ join ["1 year"; "2 months"; "3 days"; "4 hours"] " siden"
     = "1 year, 2 months and 3 days siden"
  /\ join ["1 minute"; "31 seconds"] EmptyString = "1 minute and 31 seconds"
  /\ join ["2 days"] EmptyString = "2 days"
  /\ join [] " siden" = "now".
Proof. repeat split; vm_compute; reflexivity. Qed.

(** So [human_timedelta] returns no text, whatever the two instants. *)
Lemma human_timedelta_never_renders (utcnow dt : datetime)
    (source : option datetime) :
  human_timedelta utcnow dt source = None
  \/ exists e, human_timedelta utcnow dt source = Some (Raise e).
Proof.
  unfold human_timedelta.
  destruct (gt dt (default utcnow source)).
  - destruct (between dt _) as [[delta|e]|]; simpl; eauto.
  - destruct (between _ dt) as [[delta|e]|]; simpl; eauto.
Qed.

(** C8.  For the instants 1 January 2025, 00:00 and 4 March 2026,
    04:00, whose delta is 1 year, 2 months, 3 days and 4 hours, no
    three-component text is returned: the first attribute lookup
    raises. *)
Theorem human_timedelta_three_components :
  between later new_year = Some (Ok (mkRelativedelta 1 2 3 4 0 0 0))
  /\ human_timedelta jan15 later (Some new_year)
     = Some (Raise (AttributeError no_attribute_aar)).
Proof. split; vm_compute; reflexivity. Qed.


End Divergences.

(** ** Datetimes on the time line *)

Module CalendarFacts.
Import Datetime DatetimeSpec DatetimeFacts CalendarSpec.

Lemma days_before_year_cycles (n400 n100 n4 n1 : Z) :
  0 <= n1 <= 3 -> 0 <= n4 <= 24 -> 0 <= n100 <= 3 ->
  days_before_year (n400 * 400 + 1 + (n100 * 100 + n4 * 4 + n1))
  = 146097 * n400 + 36524 * n100 + 1461 * n4 + 365 * n1.
Proof.
  intros H1 H4 H100. unfold days_before_year.
  Z.to_euclidean_division_equations. lia.
Qed.

Lemma month_day_inverse_all :
  forallb (fun k => month_day_inverse (Z.of_nat k) true
                    && month_day_inverse (Z.of_nat k) false)
    (seq 0 365) = true.
Proof. vm_compute. reflexivity. Qed.

Lemma month_day_inverse_ok (n : Z) (leapyear : bool) :
  0 <= n <= 364 -> month_day_inverse n leapyear = true.
Proof.
  intros Hn. pose proof month_day_inverse_all as H.
  rewrite forallb_forall in H. specialize (H (Z.to_nat n)).
  rewrite Z2Nat.id in H by lia.
  assert (Hin : In (Z.to_nat n) (seq 0 365)) by (apply in_seq; lia).
  apply H in Hin. apply andb_true_iff in Hin as [H1 H2].
  destruct leapyear; assumption.
Qed.

(** [date.fromordinal] followed by [toordinal] is the identity. *)
Lemma ymd2ord_ord2ymd (n : Z) :
  1 <= n <= MAXORDINAL ->
  let '(y, m, d) := ord2ymd n in ymd2ord y m d = n.
Proof.
  intros Hn. unfold ord2ymd, MAXORDINAL, DI400Y, DI100Y, DI4Y in *.
  set (n400 := (n - 1) / 146097).
  set (r400 := (n - 1) mod 146097).
  set (n100 := r400 / 36524).
  set (r100 := r400 mod 36524).
  set (n4 := r100 / 1461).
  set (r4 := r100 mod 1461).
  set (n1 := r4 / 365).
  set (r1 := r4 mod 365).
  assert (H400 : n - 1 = 146097 * n400 + r400 /\ 0 <= r400 < 146097)
    by (unfold n400, r400; split; [apply Z.div_mod; lia | apply Z.mod_pos_bound; lia]).
  assert (H100 : r400 = 36524 * n100 + r100 /\ 0 <= r100 < 36524)
    by (unfold n100, r100; split; [apply Z.div_mod; lia | apply Z.mod_pos_bound; lia]).
  assert (H4 : r100 = 1461 * n4 + r4 /\ 0 <= r4 < 1461)
    by (unfold n4, r4; split; [apply Z.div_mod; lia | apply Z.mod_pos_bound; lia]).
  assert (H1 : r4 = 365 * n1 + r1 /\ 0 <= r1 < 365)
    by (unfold n1, r1; split; [apply Z.div_mod; lia | apply Z.mod_pos_bound; lia]).
  clearbody n400 r400 n100 r100 n4 r4 n1 r1.
  assert (Hb : 0 <= n400 /\ 0 <= n100 <= 4 /\ 0 <= n4 <= 24 /\ 0 <= n1 <= 4) by lia.
  destruct ((n1 =? 4) || (n100 =? 4)) eqn:E.
  - apply orb_true_iff in E.
    set (Y := n400 * 400 + 1 + (n100 * 100 + n4 * 4 + n1) - 1).
    assert (Hleap : is_leap Y = true).
    { unfold is_leap, Y.
      destruct (Z.eqb_spec ((n400 * 400 + 1 + (n100 * 100 + n4 * 4 + n1) - 1) mod 4) 0) as [E4|E4];
      destruct (Z.eqb_spec ((n400 * 400 + 1 + (n100 * 100 + n4 * 4 + n1) - 1) mod 100) 0) as [E100|E100];
      destruct (Z.eqb_spec ((n400 * 400 + 1 + (n100 * 100 + n4 * 4 + n1) - 1) mod 400) 0) as [E400|E400];
      simpl; try reflexivity; exfalso;
      destruct E as [E|E]; apply Z.eqb_eq in E;
      Z.to_euclidean_division_equations; lia. }
    unfold ymd2ord, days_before_month. rewrite Hleap.
    change (DAYS_BEFORE_MONTH 12) with 334. simpl.
    unfold days_before_year, Y.
    destruct E as [E|E]; apply Z.eqb_eq in E;
      Z.to_euclidean_division_equations; lia.
  - apply orb_false_iff in E as [E1 E100]. apply Z.eqb_neq in E1, E100.
    set (leap := (n1 =? 3) && (negb (n4 =? 24) || (n100 =? 3))).
    set (y := n400 * 400 + 1 + (n100 * 100 + n4 * 4 + n1)).
    assert (Hleap : is_leap y = leap) by (apply is_leap_cycles; lia).
    assert (Hdby : days_before_year y
                   = 146097 * n400 + 36524 * n100 + 1461 * n4 + 365 * n1)
      by (apply days_before_year_cycles; lia).
    pose proof (month_day_inverse_ok r1 leap ltac:(lia)) as Hmd.
    unfold month_day_inverse, month_day in Hmd.
    destruct (r1 <? _) eqn:Hlt; apply Z.eqb_eq in Hmd;
      unfold ymd2ord, days_before_month; rewrite Hleap, Hdby; lia.
Qed.

Lemma days_before_year_next (y : Z) :
  days_before_year (y + 1)
  = days_before_year y + 365 + (if is_leap y then 1 else 0).
Proof.
  unfold days_before_year, is_leap.
  destruct (Z.eqb_spec (y mod 4) 0) as [E4|E4];
  destruct (Z.eqb_spec (y mod 100) 0) as [E100|E100];
  destruct (Z.eqb_spec (y mod 400) 0) as [E400|E400];
  simpl; Z.to_euclidean_division_equations; lia.
Qed.

Lemma days_before_year_mono (y1 y2 : Z) :
  y1 <= y2 -> days_before_year y1 <= days_before_year y2.
Proof.
  intros H. unfold days_before_year.
  Z.to_euclidean_division_equations. lia.
Qed.

Lemma months_in_order_all :
  forallb (fun m1 =>
    forallb (fun m2 =>
      (m2 <=? m1)%nat
      || months_in_order (Z.of_nat m1) (Z.of_nat m2) true
         && months_in_order (Z.of_nat m1) (Z.of_nat m2) false)
      (seq 1 12))
    (seq 1 12) = true.
Proof. vm_compute. reflexivity. Qed.

Lemma months_in_order_ok (m1 m2 : Z) (leapyear : bool) :
  1 <= m1 -> m1 < m2 -> m2 <= 12 -> months_in_order m1 m2 leapyear = true.
Proof.
  intros H1 H12 H2. pose proof months_in_order_all as H.
  rewrite forallb_forall in H. specialize (H (Z.to_nat m1)).
  rewrite forallb_forall in H.
  specialize (H ltac:(apply in_seq; lia) (Z.to_nat m2) ltac:(apply in_seq; lia)).
  rewrite !Z2Nat.id in H by lia.
  apply orb_true_iff in H as [H|H].
  - apply Nat.leb_le in H. lia.
  - apply andb_true_iff in H as [Ht Hf]. destruct leapyear; assumption.
Qed.

(** a date lies within its year *)
Lemma ymd2ord_year_span (y m d : Z) :
  check_date_fields y m d = Ok tt ->
  days_before_year y < ymd2ord y m d <= days_before_year (y + 1).
Proof.
  intros (Hy & Hm & Hd)%check_date_fields_inv.
  rewrite days_before_year_next. unfold ymd2ord.
  assert (days_before_month y m + days_in_month y m
          <= 365 + (if is_leap y then 1 else 0)).
  { unfold days_before_month, days_in_month.
    apply month_cases in Hm.
    repeat (destruct Hm as [->|Hm];
            [destruct (is_leap y); vm_compute; discriminate|]).
    subst. destruct (is_leap y); vm_compute; discriminate. }
  pose proof (days_before_month_range y m Hm). lia.
Qed.

Lemma lex_app (xs ys zs ws : list Z) :
  length xs = length ys ->
  lex (xs ++ zs)%list (ys ++ ws)%list
  = match lex xs ys with Eq => lex zs ws | c => c end.
Proof.
  revert ys. induction xs as [|x xs IH]; intros [|y ys] Hlen;
    simpl in *; try discriminate; [reflexivity|].
  destruct (x ?= y); auto.
Qed.

(** The order on valid dates is the order on their ordinals. *)
Lemma lex_ymd (y1 m1 d1 y2 m2 d2 : Z) :
  check_date_fields y1 m1 d1 = Ok tt -> check_date_fields y2 m2 d2 = Ok tt ->
  lex [y1; m1; d1] [y2; m2; d2] = (ymd2ord y1 m1 d1 ?= ymd2ord y2 m2 d2).
Proof.
  intros H1 H2.
  pose proof (ymd2ord_year_span _ _ _ H1) as S1.
  pose proof (ymd2ord_year_span _ _ _ H2) as S2.
  apply check_date_fields_inv in H1 as (Hy1 & Hm1 & Hd1).
  apply check_date_fields_inv in H2 as (Hy2 & Hm2 & Hd2).
  simpl. symmetry.
  destruct (Z.compare_spec y1 y2) as [->|Hy|Hy].
  - unfold ymd2ord, days_before_month, days_in_month in *.
    destruct (Z.compare_spec m1 m2) as [->|Hm|Hm].
    + destruct (Z.compare_spec d1 d2) as [->|Hd|Hd].
      * apply Z.compare_refl.
      * apply Z.compare_lt_iff. lia.
      * apply Z.compare_gt_iff. lia.
    + apply Z.compare_lt_iff.
      pose proof (months_in_order_ok m1 m2 (is_leap y2) ltac:(lia) Hm ltac:(lia)) as Ho.
      unfold months_in_order in Ho. apply Z.leb_le in Ho. lia.
    + apply Z.compare_gt_iff.
      pose proof (months_in_order_ok m2 m1 (is_leap y2) ltac:(lia) Hm ltac:(lia)) as Ho.
      unfold months_in_order in Ho. apply Z.leb_le in Ho. lia.
  - apply Z.compare_lt_iff.
    pose proof (days_before_year_mono (y1 + 1) y2 ltac:(lia)). lia.
  - apply Z.compare_gt_iff.
    pose proof (days_before_year_mono (y2 + 1) y1 ltac:(lia)). lia.
Qed.

Lemma lex_pair (base a1 b1 a2 b2 : Z) :
  0 <= b1 < base -> 0 <= b2 < base ->
  match a1 ?= a2 with Eq => b1 ?= b2 | c => c end
  = (a1 * base + b1 ?= a2 * base + b2).
Proof.
  intros H1 H2. symmetry.
  destruct (Z.compare_spec a1 a2) as [->|H|H].
  - apply Z.add_compare_mono_l.
  - apply Z.compare_lt_iff. nia.
  - apply Z.compare_gt_iff. nia.
Qed.

(** The order on valid datetimes is the order on their keys. *)
Lemma cmp_key (a b : datetime) :
  valid a -> valid b -> cmp a b = (key a ?= key b).
Proof.
  intros [Ha Hta]%valid_fields [Hb Htb]%valid_fields.
  apply check_time_fields_inv in Hta as (A1 & A2 & A3 & A4).
  apply check_time_fields_inv in Htb as (B1 & B2 & B3 & B4).
  unfold cmp, fields.
  change [year a; month a; day a; hour a; minute a; second a; microsecond a]
    with (([year a; month a; day a] ++ [hour a; minute a; second a; microsecond a])%list).
  change [year b; month b; day b; hour b; minute b; second b; microsecond b]
    with (([year b; month b; day b] ++ [hour b; minute b; second b; microsecond b])%list).
  rewrite lex_app by reflexivity. rewrite (lex_ymd _ _ _ _ _ _ Ha Hb).
  cbn [lex].
  replace (match microsecond a ?= microsecond b with
           | Eq => Eq | Lt => Lt | Gt => Gt end)
    with (microsecond a ?= microsecond b)
    by (destruct (microsecond a ?= microsecond b); reflexivity).
  rewrite (lex_pair 1000000) by lia.
  rewrite (lex_pair 60000000) by lia.
  rewrite (lex_pair 3600000000) by lia.
  rewrite (lex_pair 86400000000) by lia.
  unfold key, toordinal. f_equal; lia.
Qed.

Lemma le_key (a b : datetime) :
  valid a -> valid b -> le a b = true <-> key a <= key b.
Proof.
  intros Ha Hb. unfold le. rewrite (cmp_key a b Ha Hb).
  destruct (Z.compare_spec (key a) (key b)); split; intros; try lia;
    try reflexivity; discriminate.
Qed.

Lemma lt_key (a b : datetime) :
  valid a -> valid b -> lt a b = true <-> key a < key b.
Proof.
  intros Ha Hb. unfold lt. rewrite (cmp_key a b Ha Hb).
  destruct (Z.compare_spec (key a) (key b)); split; intros; try lia;
    try reflexivity; discriminate.
Qed.

End CalendarFacts.

Module ArithmeticFacts.
Import Datetime DatetimeSpec DatetimeFacts CalendarSpec CalendarFacts.
Import Relativedelta RelativedeltaFacts.

(** [timedelta(...)] keeps the duration and normalises it. *)
Lemma timedelta_new_total (days seconds us minutes hours : Z) (td : timedelta) :
  timedelta_new days seconds us minutes hours = Ok td ->
  total_us td
  = (days * 86400 + (seconds + (minutes * 60 + hours * 3600))) * 1000000 + us
  /\ 0 <= td_seconds td < 86400 /\ 0 <= td_microseconds td < 1000000.
Proof.
  unfold timedelta_new, total_us.
  match goal with
  | |- context [if ?c then _ else _] => destruct c
  end; [discriminate|].
  intros [= <-]. simpl. Z.to_euclidean_division_equations. lia.
Qed.

Lemma new_ok_fields (y m d h mi s us : Z) (dt : datetime) :
  Datetime.new y m d h mi s us = Ok dt ->
  dt = mkDatetime y m d h mi s us /\ valid dt.
Proof.
  intros H. pose proof H as H'. unfold Datetime.new in H'.
  destruct (check_date_fields y m d) as [[]|]; [|discriminate].
  destruct (check_time_fields h mi s us) as [[]|]; [|discriminate].
  injection H' as <-. split; [reflexivity|]. exact H.
Qed.

(** [datetime + timedelta] adds the duration to the key. *)
Lemma add_key (base : datetime) (td : timedelta) (dt : datetime) :
  valid base -> Datetime.add base td = Ok dt ->
  valid dt /\ key dt = key base + total_us td.
Proof.
  intros Hv. pose proof Hv as Hv'. apply valid_fields in Hv' as [Hdate Htime].
  apply check_time_fields_inv in Htime as (Hh & Hmi & Hse & Hmu).
  unfold Datetime.add.
  destruct (timedelta_new (toordinal base) _ _ _ _) as [d1|] eqn:E1;
    [|discriminate].
  apply timedelta_new_total in E1 as (T1 & S1 & U1). simpl.
  unfold timedelta_add.
  destruct (timedelta_new (td_days d1 + td_days td) _ _ 0 0) as [d2|] eqn:E2;
    [|discriminate].
  apply timedelta_new_total in E2 as (T2 & S2 & U2). simpl.
  destruct ((0 <? td_days d2) && (td_days d2 <=? MAXORDINAL)) eqn:R;
    [|discriminate].
  apply andb_true_iff in R as [R1 R2]. apply Z.ltb_lt in R1. apply Z.leb_le in R2.
  pose proof (ymd2ord_ord2ymd (td_days d2) ltac:(lia)) as Hinv.
  destruct (ord2ymd (td_days d2)) as [[y m] d].
  intros Hnew. apply new_ok_fields in Hnew as [-> Hvalid].
  split; [exact Hvalid|].
  unfold key, toordinal, total_us in *. simpl. rewrite Hinv.
  Z.to_euclidean_division_equations. lia.
Qed.

(** Adding a delta without negative fields never goes back in time. *)
Lemma radd_nonneg_key (rd : relativedelta) (other dt : datetime) :
  valid other ->
  0 <= years rd -> 0 <= months rd <= 12 -> 0 <= days rd -> 0 <= hours rd ->
  0 <= minutes rd -> 0 <= seconds rd -> 0 <= microseconds rd ->
  radd rd other = Ok dt ->
  valid dt /\ key other <= key dt.
Proof.
  intros Hv Hy Hmo Hd Hh Hmi Hs Hus.
  pose proof Hv as Hv'. apply valid_fields in Hv' as [Hdate Htime].
  pose proof (check_date_fields_inv _ _ _ Hdate) as (Hy0 & Hm0 & Hd0).
  unfold radd.
  set (ym := if months rd =? 0 then _ else _).
  assert (Hym : (fst ym = year other /\ snd ym = month other)
                \/ (year other < fst ym /\ 1 <= snd ym <= 12)
                \/ (year other = fst ym /\ month other < snd ym <= 12)).
  { unfold ym. destruct (Z.eqb_spec (months rd) 0); simpl; [lia|].
    destruct (Z.ltb_spec 12 (month other + months rd)); simpl; [lia|].
    destruct (Z.ltb_spec (month other + months rd) 1); simpl; lia. }
  destruct ym as [y m]. simpl in Hym.
  unfold Datetime.replace. simpl.
  destruct (Datetime.new y m _ _ _ _ _) as [base|] eqn:Hbase; [|discriminate].
  apply new_ok_fields in Hbase as [Hbase_eq Hbase_valid]. simpl.
  destruct (timedelta_new (days rd) _ _ _ _) as [td|] eqn:Htd; [|discriminate].
  apply timedelta_new_total in Htd as (T & _ & _). simpl.
  intros Hadd. apply (add_key base td dt Hbase_valid) in Hadd as [Hdt Hkey].
  split; [exact Hdt|].
  assert (Hbase_le : key other <= key base).
  { pose proof Hbase_valid as Hb. apply valid_fields in Hb as [Hbd _].
    pose proof (lex_ymd _ _ _ _ _ _ Hdate Hbd) as Hlex.
    assert (Hord : toordinal other <= toordinal base).
    { unfold toordinal.
      destruct (Z.compare_spec (ymd2ord (year other) (month other) (day other))
                  (ymd2ord (year base) (month base) (day base)))
        as [E|E|E]; try lia.
      exfalso. rewrite Hbase_eq in Hlex. simpl in Hlex.
      rewrite monthrange_days_in_month in Hlex.
      destruct Hym as [[-> ->]|[[Hlt _]|[<- Hlt]]].
      - rewrite !Z.compare_refl in Hlex.
        rewrite Z.min_r in Hlex by lia. rewrite Z.compare_refl in Hlex.
        discriminate.
      - apply Z.compare_lt_iff in Hlt. rewrite Hlt in Hlex. discriminate.
      - rewrite Z.compare_refl in Hlex.
        destruct Hlt as [Hlt _]. apply Z.compare_lt_iff in Hlt.
        rewrite Hlt in Hlex. discriminate. }
    unfold key. rewrite Hbase_eq in *. unfold toordinal in *. simpl in *. lia. }
  rewrite Hkey. lia.
Qed.

Lemma radd_nonneg_le (rd : relativedelta) (other dt : datetime) :
  valid other ->
  0 <= years rd -> 0 <= months rd <= 12 -> 0 <= days rd -> 0 <= hours rd ->
  0 <= minutes rd -> 0 <= seconds rd -> 0 <= microseconds rd ->
  radd rd other = Ok dt ->
  valid dt /\ le other dt = true /\ lt dt other = false.
Proof.
  intros Hv Hy Hmo Hd Hh Hmi Hs Hus Hadd.
  destruct (radd_nonneg_key rd other dt Hv Hy Hmo Hd Hh Hmi Hs Hus Hadd)
    as [Hdt Hkey].
  split; [exact Hdt|]. split.
  - apply le_key; assumption.
  - destruct (lt dt other) eqn:E; [|reflexivity].
    apply lt_key in E; [lia|assumption|assumption].
Qed.

End ArithmeticFacts.

(** ** Shapes of matches *)

Module GrammarFacts.
Import Re ReSpec ReFacts GrammarSpec.

Lemma append_assoc (a b c : string) : (a +:+ b) +:+ c = a +:+ (b +:+ c).
Proof.
  induction a as [|x a IH]; [reflexivity|].
  rewrite !append_cons. f_equal. exact IH.
Qed.

(** What is left after a match is a suffix of the text. *)
Lemma matches_suffix r s c s' c' :
  matches r s c s' c' -> exists p, s = p +:+ s'.
Proof.
  induction 1 as [s c|a s c|lo hi a s c Hr
                 |r1 r2 s c s1 c1 s2 c2 H1 [p1 E1] H2 [p2 E2]
                 |r1 r2 s c s' c' H [p E]|r1 r2 s c s' c' H [p E]
                 |r s c s' c' H [p E]|r s c|hi r s c
                 |lo hi r s c s1 c1 s2 c2 H1 [p1 E1] H2 [p2 E2]
                 |name r s c s1 c1 H [p E]].
  - exists EmptyString. reflexivity.
  - exists (String a EmptyString). reflexivity.
  - exists (String a EmptyString). reflexivity.
  - exists (p1 +:+ p2). rewrite append_assoc. congruence.
  - eauto.
  - eauto.
  - eauto.
  - exists EmptyString. reflexivity.
  - exists EmptyString. reflexivity.
  - exists (p1 +:+ p2). rewrite append_assoc. congruence.
  - eauto.
Qed.

Lemma matches_same_length r s c s' c' :
  matches r s c s' c' -> String.length s' = String.length s -> s' = s.
Proof.
  intros [p ->]%matches_suffix. rewrite length_append.
  destruct p; [reflexivity|]. simpl. lia.
Qed.

(** A non-empty match of a digit-led pattern begins with a digit. *)
Lemma matches_digit_led r s c s' c' :
  matches r s c s' c' -> digit_led r = true ->
  (String.length s' < String.length s)%nat ->
  starts_with_digit s = true.
Proof.
  induction 1 as [s c|a s c|lo hi a s c Hr
                 |r1 r2 s c s1 c1 s2 c2 H1 IH1 H2 IH2
                 |r1 r2 s c s' c' H IH|r1 r2 s c s' c' H IH
                 |r s c s' c' H IH|r s c|hi r s c
                 |lo hi r s c s1 c1 s2 c2 H1 IH1 H2 IH2
                 |name r s c s1 c1 H IH];
    simpl; intros Hd Hlen; try lia; try discriminate; auto.
  - apply andb_true_iff in Hd as [->%Ascii.eqb_eq ->%Ascii.eqb_eq]. exact Hr.
  - apply andb_true_iff in Hd as [Hd1 Hd2].
    pose proof (matches_length _ _ _ _ _ H1) as L1.
    destruct (decide (String.length s1 = String.length s)) as [E|E].
    + pose proof (matches_same_length _ _ _ _ _ H1 E) as ->.
      apply orb_true_iff in Hd2 as [Hn|Hd2].
      * apply negb_true_iff in Hn.
        pose proof (matches_progress _ _ _ _ _ H1 Hn). lia.
      * auto.
    + apply IH1; [assumption|lia].
  - apply andb_true_iff in Hd as [Hd1 Hd2]. auto.
  - apply andb_true_iff in Hd as [Hd1 Hd2]. auto.
  - pose proof (matches_length _ _ _ _ _ H1) as L1.
    destruct (decide (String.length s1 = String.length s)) as [E|E].
    + pose proof (matches_same_length _ _ _ _ _ H1 E) as ->. auto.
    + apply IH1; [assumption|lia].
Qed.

End GrammarFacts.

Module AcceptFacts.
Import Re ReSpec ReFacts GrammarSpec GrammarFacts.
Import ShortTime ShortTimeSpec.

Lemma compiled_digit_led : digit_led compiled = true.
Proof. reflexivity. Qed.

Lemma truthy_length (s : string) :
  Str.truthy s = true <-> (0 < String.length s)%nat.
Proof. destruct s; simpl; split; intros; try discriminate; lia. Qed.

Lemma consumed_length (s rest : string) :
  (String.length rest <= String.length s)%nat ->
  Str.truthy (consumed s rest) = true ->
  (String.length rest < String.length s)%nat.
Proof.
  intros Hle. unfold consumed.
  destruct (decide (String.length rest = String.length s)) as [E|E]; [|lia].
  rewrite E, Nat.sub_diag. destruct s; discriminate.
Qed.

(** What the test of [convert] lets through: a match of a prefix that
    is not empty. *)
Lemma short_prefix_inv (argument : string) (m : match_object) :
  UserFriendlyTime.short_prefix argument = Some m ->
  re_match compiled argument = Some m
  /\ exists rest, matches compiled argument ∅ rest (groups m)
       /\ (String.length rest < String.length argument)%nat.
Proof.
  unfold UserFriendlyTime.short_prefix.
  destruct (re_match compiled argument) as [m'|] eqn:Hm; [|discriminate].
  destruct (Str.truthy (group0 m')) eqn:Ht; [|discriminate].
  intros [= <-]. split; [reflexivity|].
  apply re_match_spec in Hm as (rest & Hm & _ & Hg & _).
  exists rest. split; [exact Hm|].
  rewrite Hg in Ht. apply consumed_length; [|exact Ht].
  eapply matches_length; eauto.
Qed.

(** What [ShortTime] accepts: a match of the whole argument, which is
    not empty. *)
Lemma init_ok_inv (utcnow : Datetime.datetime) (argument : string)
    (s : ShortTime.t) :
  ShortTime.__init__ utcnow argument = Ok s ->
  exists m, fullmatch compiled argument = Some m
    /\ Str.truthy argument = true
    /\ Relativedelta.radd (Relativedelta.of_kwargs (data_of m)) utcnow
       = Ok (ShortTime.dt s).
Proof.
  unfold ShortTime.__init__.
  destruct (fullmatch compiled argument) as [m|] eqn:Hm; [|discriminate].
  destruct (Str.truthy (group0 m)) eqn:Ht; simpl; [|discriminate].
  destruct (Relativedelta.radd _ utcnow) as [d|] eqn:Hd; simpl; [|discriminate].
  intros [= <-]. exists m. split; [reflexivity|].
  apply fullmatch_spec in Hm as (_ & _ & Hg). rewrite Hg in Ht. auto.
Qed.

Lemma short_prefix_digit (argument : string) (m : match_object) :
  UserFriendlyTime.short_prefix argument = Some m ->
  starts_with_digit argument = true.
Proof.
  intros (_ & rest & Hm & Hlen)%short_prefix_inv.
  eapply matches_digit_led; eauto using compiled_digit_led.
Qed.

(** [ShortTime] fails before the date arithmetic only with its own
    error. *)
Lemma init_no_match (utcnow : Datetime.datetime) (argument : string) :
  (forall m, fullmatch compiled argument = Some m ->
             Str.truthy argument = false) ->
  ShortTime.__init__ utcnow argument
  = Raise (BadArgument "invalid time provided").
Proof.
  intros H. unfold ShortTime.__init__.
  destruct (fullmatch compiled argument) as [m|] eqn:Hm; [|reflexivity].
  pose proof (H m eq_refl) as Ht.
  apply fullmatch_spec in Hm as (_ & _ & Hg). rewrite Hg, Ht. reflexivity.
Qed.

End AcceptFacts.

(** ** The matcher on unit groups *)

Module SpellingFacts.
Import Re ReSpec ReFacts GrammarSpec GrammarFacts SpellingSpec ShortTime.

Section Evaluation.
Context {R : Type}.
Implicit Types (k : cont (R:=R)) (c : gmap string string).

Lemma run_cat r1 r2 s c k :
  run (Cat r1 r2) s c k = run r1 s c (fun s1 c1 => run r2 s1 c1 k).
Proof. reflexivity. Qed.

Lemma run_digit_cons d s c k :
  is_digit d = true -> run (Range "0" "9") (String d s) c k = k s c.
Proof. intros H. simpl. unfold is_digit in H. rewrite H. reflexivity. Qed.

Lemma run_digit_none t c k :
  starts_with_digit t = false -> run (Range "0" "9") t c k = None.
Proof.
  destruct t as [|a t]; simpl; [reflexivity|].
  unfold is_digit. intros ->. reflexivity.
Qed.

(** a pattern that needs a letter first fails on a digit *)
Lemma run_letter_led r : letter_led r = true ->
  forall d s c k, is_digit d = true -> run r (String d s) c k = None.
Proof.
  induction r as [|a|lo hi|r1 IH1 r2 IH2|r1 IH1 r2 IH2|r1 IH1|lo hi r1 IH1
                 |name r1 IH1]; simpl; try discriminate; intros Hl d s c k Hd.
  - destruct (Ascii.eqb d a) eqn:E; [|reflexivity].
    apply Ascii.eqb_eq in E as ->. rewrite Hd in Hl. discriminate.
  - apply IH1; assumption.
  - apply andb_true_iff in Hl as [H1 H2].
    rewrite IH1, IH2 by assumption. reflexivity.
Qed.

(** the greedy repetition of digits takes them all when what comes next
    lets the match go on *)
Lemma rep_digits_all (ds : string) : forall hi lo t c k x,
  all_digits ds = true ->
  (String.length ds <= hi)%nat -> (lo <= String.length ds)%nat ->
  starts_with_digit t = false ->
  k t c = Some x ->
  rep (run (Range "0" "9")) lo hi (ds +:+ t) c k = Some x.
Proof.
  induction ds as [|d ds IH]; intros hi lo t c k x Hds Hhi Hlo Ht Hk.
  - change (EmptyString +:+ t) with t. simpl in Hlo.
    assert (lo = 0%nat) as -> by lia.
    destruct hi; cbn [rep]; [exact Hk|].
    rewrite run_digit_none by assumption. exact Hk.
  - rewrite append_cons. simpl in Hds, Hhi, Hlo.
    apply andb_true_iff in Hds as [Hd Hds].
    destruct hi as [|hi]; [lia|]. cbn [rep].
    rewrite run_digit_cons by assumption.
    rewrite (IH hi (Nat.pred lo) t c k x) by (auto; lia). reflexivity.
Qed.

(** and fails when no split of the digits lets the match go on *)
Lemma rep_digits_fail (ds : string) : forall hi lo t c k,
  all_digits ds = true ->
  starts_with_digit t = false ->
  (forall ds2, all_digits ds2 = true -> k (ds2 +:+ t) c = None) ->
  rep (run (Range "0" "9")) lo hi (ds +:+ t) c k = None.
Proof.
  induction ds as [|d ds IH]; intros hi lo t c k Hds Ht Hk.
  - change (EmptyString +:+ t) with t.
    pose proof (Hk EmptyString eq_refl) as Hk0.
    change (EmptyString +:+ t) with t in Hk0.
    destruct hi; cbn [rep].
    + destruct lo; [exact Hk0|reflexivity].
    + rewrite run_digit_none by assumption.
      destruct lo; [exact Hk0|reflexivity].
  - pose proof (Hk (String d ds) Hds) as Hk0.
    rewrite append_cons in *. simpl in Hds.
    apply andb_true_iff in Hds as [Hd Hds].
    destruct hi as [|hi]; cbn [rep].
    + destruct lo; [exact Hk0|reflexivity].
    + rewrite run_digit_cons by assumption.
      rewrite (IH hi (Nat.pred lo) t c k) by auto.
      destruct lo; [exact Hk0|reflexivity].
Qed.

Lemma number_all number hi ds t c k x :
  number_pattern number hi ->
  all_digits ds = true ->
  (1 <= String.length ds <= hi)%nat ->
  starts_with_digit t = false ->
  k t c = Some x ->
  run number (ds +:+ t) c k = Some x.
Proof.
  intros [|hi'] Hds Hlen Ht Hk.
  - destruct ds as [|d [|d' ds]]; simpl in Hlen; try lia.
    simpl in Hds. apply andb_true_iff in Hds as [Hd _].
    rewrite append_cons. change (EmptyString +:+ t) with t.
    rewrite run_digit_cons by assumption. exact Hk.
  - cbn [run]. apply rep_digits_all; auto; lia.
Qed.

Lemma number_fail number hi ds t c k :
  number_pattern number hi ->
  all_digits ds = true ->
  starts_with_digit t = false ->
  (forall ds2, all_digits ds2 = true -> k (ds2 +:+ t) c = None) ->
  run number (ds +:+ t) c k = None.
Proof.
  intros [|hi'] Hds Ht Hk.
  - destruct ds as [|d ds].
    + change (EmptyString +:+ t) with t. apply run_digit_none; assumption.
    + rewrite append_cons. simpl in Hds.
      apply andb_true_iff in Hds as [Hd Hds].
      rewrite run_digit_cons by assumption. apply Hk; assumption.
  - cbn [run]. apply rep_digits_fail; auto.
Qed.

Lemma number_none number hi t c k :
  number_pattern number hi -> starts_with_digit t = false ->
  run number t c k = None.
Proof.
  intros [|hi'] Ht.
  - apply run_digit_none; assumption.
  - change (run (Rep 1 hi' (Range "0" "9")) t c k)
      with (rep (run (Range "0" "9")) 1 hi' t c k).
    destruct hi'; cbn [rep]; [reflexivity|].
    rewrite run_digit_none by assumption. reflexivity.
Qed.

Lemma run_unit_group name number suffix s c k :
  run (unit_group name number suffix) s c k
  = match run number s c
            (fun s1 c1 => run suffix s1 (<[name := consumed s s1]> c1) k) with
    | Some x => Some x
    | None => k s c
    end.
Proof. reflexivity. Qed.

(** A unit group is passed over when its suffix does not follow the
    digits. *)
Lemma unit_group_skip name number hi suffix ds t c k :
  number_pattern number hi ->
  letter_led suffix = true ->
  all_digits ds = true ->
  starts_with_digit t = false ->
  (forall c', run suffix t c' k = None) ->
  run (unit_group name number suffix) (ds +:+ t) c k = k (ds +:+ t) c.
Proof.
  intros Hn Hl Hds Ht Hrej. rewrite run_unit_group.
  rewrite (number_fail number hi); auto.
  intros ds2 Hds2. destruct ds2 as [|d ds2].
  - change (EmptyString +:+ t) with t. apply Hrej.
  - rewrite append_cons. simpl in Hds2.
    apply andb_true_iff in Hds2 as [Hd _]. apply run_letter_led; assumption.
Qed.

(** A unit group is passed over where no digit stands. *)
Lemma unit_group_none name number hi suffix t c k :
  number_pattern number hi -> starts_with_digit t = false ->
  run (unit_group name number suffix) t c k = k t c.
Proof.
  intros Hn Ht. rewrite run_unit_group.
  rewrite (number_none number hi); auto.
Qed.

(** A unit group takes the digits and its suffix when the match can go
    on after them. *)
Lemma unit_group_take name number hi suffix ds t c k x :
  number_pattern number hi ->
  all_digits ds = true ->
  (1 <= String.length ds <= hi)%nat ->
  starts_with_digit t = false ->
  run suffix t (<[name := ds]> c) k = Some x ->
  run (unit_group name number suffix) (ds +:+ t) c k = Some x.
Proof.
  intros Hn Hds Hlen Ht Hk. rewrite run_unit_group.
  rewrite (number_all number hi ds t c _ x); auto.
  rewrite consumed_append. exact Hk.
Qed.

(** the repetition fails when more digits stand there than it may take
    and what comes next cannot start with a digit *)
Lemma rep_digits_long (hi : nat) : forall ds lo t c k,
  all_digits ds = true ->
  (hi < String.length ds)%nat ->
  (forall d s c', is_digit d = true -> k (String d s) c' = None) ->
  rep (run (Range "0" "9")) lo hi (ds +:+ t) c k = None.
Proof.
  induction hi as [|hi IH]; intros ds lo t c k Hds Hlen Hk;
    destruct ds as [|d ds]; simpl in Hlen; try lia;
    rewrite append_cons; simpl in Hds;
    apply andb_true_iff in Hds as [Hd Hds]; cbn [rep].
  - rewrite (Hk d _ c Hd). destruct lo; reflexivity.
  - rewrite run_digit_cons by assumption.
    rewrite (IH ds (Nat.pred lo) t c k) by (auto; lia).
    rewrite (Hk d _ c Hd). destruct lo; reflexivity.
Qed.

(** A unit group is passed over when more digits stand there than its
    number may take. *)
Lemma unit_group_long name number hi suffix ds t c k :
  number_pattern number hi ->
  letter_led suffix = true ->
  all_digits ds = true ->
  (hi < String.length ds)%nat ->
  run (unit_group name number suffix) (ds +:+ t) c k = k (ds +:+ t) c.
Proof.
  intros Hn Hl Hds Hlen. rewrite run_unit_group.
  assert (Hk : forall d s c', is_digit d = true ->
            run suffix (String d s) (<[name := consumed (ds +:+ t) (String d s)]> c') k
            = None).
  { intros d s c' Hd. apply run_letter_led; assumption. }
  destruct Hn as [|hi'].
  - destruct ds as [|d [|d' ds]]; simpl in Hlen; try lia.
    rewrite !append_cons in *. simpl in Hds.
    apply andb_true_iff in Hds as [Hd Hds].
    apply andb_true_iff in Hds as [Hd' Hds].
    rewrite run_digit_cons by assumption.
    rewrite Hk by assumption. reflexivity.
  - change (run (Rep 1 hi' (Range "0" "9")) (ds +:+ t) c ?K)
      with (rep (run (Range "0" "9")) 1 hi' (ds +:+ t) c K).
    rewrite rep_digits_long; auto.
Qed.

End Evaluation.
End SpellingFacts.


Module SpelledMatch.
Import Re ReSpec ReFacts GrammarSpec GrammarFacts SpellingSpec SpellingFacts.
Import ShortTime ShortTimeSpec MatcherTactics.

Lemma spelled_in (name u : string) :
  spelled name u = true ->
  exists us, In (name, us) unit_spellings /\ In u us.
Proof.
  unfold spelled. intros ([n us] & Hin & H)%existsb_exists.
  apply andb_true_iff in H as [Hn Hu]. simpl in Hn, Hu.
  apply String.eqb_eq in Hn as ->.
  apply existsb_exists in Hu as (u' & Hu' & ->%String.eqb_eq).
  eauto.
Qed.

(** Six digits or more: no group takes them. *)
Lemma run_compiled_long {R : Type} (ds t : string) (k0 : cont (R:=R)) :
  all_digits ds = true ->
  (5 < String.length ds)%nat ->
  run compiled (ds +:+ t) ∅ k0 = k0 (ds +:+ t) ∅.
Proof.
  intros Hds Hlen. unfold compiled.
  repeat (rewrite run_cat; long_group (@unit_group_long); cbv beta).
  long_group (@unit_group_long). reflexivity.
Qed.

End SpelledMatch.

(** ** Texts *)

Module TextFacts.
Import ReFacts.

Lemma append_nil_r (s : string) : s +:+ EmptyString = s.
Proof.
  induction s as [|a s IH]; [reflexivity|].
  rewrite append_cons, IH. reflexivity.
Qed.

Lemma from_append (p rest : string) :
  Str.from (String.length p) (p +:+ rest) = rest.
Proof.
  induction p as [|a p IH]; [reflexivity|].
  rewrite append_cons. simpl. exact IH.
Qed.

Lemma rstrip_idem (s : string) : Str.rstrip (Str.rstrip s) = Str.rstrip s.
Proof.
  induction s as [|a s IH]; [reflexivity|].
  simpl. destruct (Str.rstrip s) as [|b t] eqn:E.
  - destruct (Str.isspace a) eqn:Ha; [reflexivity|].
    simpl. rewrite Ha. reflexivity.
  - change (Str.rstrip (String a (String b t)))
      with (match Str.rstrip (String b t) with
            | EmptyString =>
                if Str.isspace a then EmptyString else String a EmptyString
            | String x u => String a (String x u)
            end).
    rewrite IH. reflexivity.
Qed.

Lemma rstrip_head (a : ascii) (s : string) :
  Str.isspace a = false -> exists t, Str.rstrip (String a s) = String a t.
Proof.
  intros Ha. simpl. destruct (Str.rstrip s); [rewrite Ha|]; eauto.
Qed.

Lemma lstrip_head (s : string) :
  Str.lstrip s = EmptyString
  \/ exists a t, Str.lstrip s = String a t /\ Str.isspace a = false.
Proof.
  induction s as [|a s IH]; [left; reflexivity|].
  simpl. destruct (Str.isspace a) eqn:Ha; [exact IH|]. right. eauto.
Qed.

(** [s.strip().strip() == s.strip()] *)
Lemma strip_idem (s : string) : Str.strip (Str.strip s) = Str.strip s.
Proof.
  unfold Str.strip at 2 3.
  destruct (lstrip_head s) as [->|(a & t & -> & Ha)]; [reflexivity|].
  destruct (rstrip_head a t Ha) as [t' Ht'].
  unfold Str.strip. rewrite Ht'. simpl Str.lstrip. rewrite Ha.
  rewrite <- Ht'. apply rstrip_idem.
Qed.

End TextFacts.

(** ** The pattern on sequences of tokens *)

Module TokenFacts.
Import Re ReSpec ReFacts GrammarSpec GrammarFacts SpellingSpec SpellingFacts.
Import SpelledMatch ShortTime ShortTimeSpec TokenSpec.
Import TextFacts.

Lemma compiled_seq : compiled = seq_of (map group_of unit_table).
Proof. reflexivity. Qed.

Lemma table_names : map entry_name unit_table = unit_names.
Proof. reflexivity. Qed.

Lemma digit_cases (a : ascii) :
  is_digit a = true ->
  In a ["0"; "1"; "2"; "3"; "4"; "5"; "6"; "7"; "8"; "9"]%char.
Proof.
  destruct a as [[] [] [] [] [] [] [] []]; intros H;
    try (vm_compute in H; discriminate H); simpl; tauto.
Qed.

Lemma tail_cases (t : string) :
  tail_ok t = true ->
  t = EmptyString
  \/ exists a t', t = String a t'
       /\ In a [" "; "0"; "1"; "2"; "3"; "4"; "5"; "6"; "7"; "8"; "9"]%char.
Proof.
  destruct t as [|a t']; [auto|]. simpl.
  intros [H|H]%orb_true_iff; right; exists a, t'; split; try reflexivity.
  - right. apply digit_cases. exact H.
  - left. apply Ascii.eqb_eq in H. congruence.
Qed.

Lemma spelled_letter (name u t : string) :
  spelled name u = true -> starts_with_digit (u +:+ t) = false.
Proof.
  intros (us & Hin & Hu)%spelled_in. simpl in Hin.
  repeat (destruct Hin as [Hin|Hin];
    [injection Hin as <- <-; simpl in Hu;
     repeat (destruct Hu as [<-|Hu]; [reflexivity|]); destruct Hu|]).
  destruct Hin.
Qed.

Lemma token_ok_some (name ds u : string) :
  token_ok name (Some (ds, u)) = true ->
  all_digits ds = true
  /\ (1 <= String.length ds <= ceiling name)%nat
  /\ spelled name u = true.
Proof.
  unfold token_ok.
  intros [[[H1 H2]%andb_true_iff H3]%andb_true_iff H4]%andb_true_iff.
  apply Nat.leb_le in H2, H3. auto.
Qed.

Lemma digits_head (ds t : string) :
  all_digits ds = true -> (1 <= String.length ds)%nat ->
  starts_with_digit (ds +:+ t) = true.
Proof.
  destruct ds as [|d ds]; simpl; [lia|].
  intros [Hd _]%andb_true_iff _. exact Hd.
Qed.

(** What follows a token: nothing, the digit of the next token, or the
    blank of the text after the duration. *)
Lemma tokens_tail_ok (names : list string) : forall ts rest,
  tokens_ok names ts = true -> payload_like rest = true ->
  tail_ok (tokens_text ts +:+ rest) = true.
Proof.
  induction names as [|n names IH]; intros [|t ts] rest Hok Hrest;
    simpl in Hok; try discriminate.
  - destruct rest as [|a rest]; [reflexivity|]. simpl in *.
    rewrite Hrest. apply orb_true_r.
  - apply andb_true_iff in Hok as [Ht Hok].
    destruct t as [[ds u]|].
    + apply token_ok_some in Ht as (Hds & Hlen & _).
      cbn [tokens_text token_text]. rewrite !append_assoc.
      pose proof (digits_head ds (u +:+ tokens_text ts +:+ rest) Hds
                    ltac:(lia)) as Hd.
      destruct (ds +:+ u +:+ tokens_text ts +:+ rest); [reflexivity|].
      simpl in *. rewrite Hd. reflexivity.
    + cbn [tokens_text token_text].
      change (EmptyString +:+ tokens_text ts) with (tokens_text ts).
      apply IH; assumption.
Qed.

(** The text of a sequence begins with its first token, if it has
    one. *)
Lemma tokens_head (es : list entry) : forall ts rest,
  tokens_ok (map entry_name es) ts = true -> payload_like rest = true ->
  starts_with_digit (tokens_text ts +:+ rest) = false
  \/ exists e ds u t,
       In e es /\ spelled (entry_name e) u = true /\ all_digits ds = true
       /\ tokens_text ts +:+ rest = ds +:+ (u +:+ t) /\ tail_ok t = true.
Proof.
  induction es as [|e es IH]; intros [|t ts] rest Hok Hrest;
    simpl in Hok; try discriminate.
  - left. destruct rest as [|a rest]; [reflexivity|]. simpl in *.
    apply Ascii.eqb_eq in Hrest as ->. reflexivity.
  - apply andb_true_iff in Hok as [Ht Hok].
    destruct t as [[ds u]|].
    + apply token_ok_some in Ht as (Hds & Hlen & Hu).
      right. exists e, ds, u, (tokens_text ts +:+ rest).
      split; [left; reflexivity|]. split; [exact Hu|]. split; [exact Hds|].
      split.
      * cbn [tokens_text token_text]. rewrite !append_assoc. reflexivity.
      * eapply tokens_tail_ok; eauto.
    + cbn [tokens_text token_text].
      change (EmptyString +:+ tokens_text ts) with (tokens_text ts).
      destruct (IH ts rest Hok Hrest) as [H|(e' & ds & u & t & He' & H)];
        [left; exact H|].
      right. exists e', ds, u, t. split; [right; exact He'|exact H].
Qed.

Section Table.
Context {R : Type}.

Lemma run_seq_cons (g : regex) (gs : list regex) s c (k : cont (R:=R)) :
  run (seq_of (g :: gs)) s c k
  = run g s c (fun s1 c1 => run (seq_of gs) s1 c1 k).
Proof. destruct gs; reflexivity. Qed.

Lemma takes_table (e : entry) : In e unit_table -> takes (R:=R) e.
Proof.
  intros He u t c k x Hu Ht Hk. simpl in He.
  apply spelled_in in Hu as (us & Hin & Hu).
  apply tail_cases in Ht.
  repeat (destruct He as [<-|He];
    [simpl in Hin;
     repeat (destruct Hin as [Hin|Hin];
       [first
          [ discriminate Hin
          | injection Hin as <-; simpl in Hu;
            repeat (destruct Hu as [<-|Hu];
              [destruct Ht as [->|(a & t' & -> & Ha)];
               [vm_compute; rewrite Hk; reflexivity|];
               simpl in Ha;
               repeat (destruct Ha as [<-|Ha];
                       [vm_compute; rewrite Hk; reflexivity|]);
               destruct Ha|]);
            destruct Hu ]|]);
     destruct Hin|]).
  destruct He.
Qed.

(** Each suffix of the pattern takes the spellings of its own unit and
    none of a unit that comes later. *)
Lemma table_ok_unit_table : table_ok (R:=R) unit_table.
Proof.
  simpl.
  repeat match goal with
  | |- _ /\ _ => split
  | |- True => exact I
  | |- true = true => reflexivity
  | |- number_pattern _ _ => constructor
  | |- takes _ => apply takes_table; simpl; tauto
  | |- forall e', _ -> rejects _ e' =>
      let e' := fresh "e" in let He := fresh "He" in
      intros e' He;
      repeat (destruct He as [<-|He];
        [let u := fresh "u" in let t := fresh "t" in
         let Hu := fresh "Hu" in let Ht := fresh "Ht" in
         let us := fresh "us" in let Hin := fresh "Hin" in
         intros u t c k Hu Ht;
         apply spelled_in in Hu as (us & Hin & Hu);
         apply tail_cases in Ht; simpl in Hin;
         repeat (destruct Hin as [Hin|Hin];
           [first
              [ discriminate Hin
              | injection Hin as <-; simpl in Hu;
                repeat (destruct Hu as [<-|Hu];
                  [let a := fresh "a" in let t' := fresh "t" in
                   let Ha := fresh "Ha" in
                   destruct Ht as [->|(a & t' & -> & Ha)];
                   [vm_compute; reflexivity|];
                   simpl in Ha;
                   repeat (destruct Ha as [<-|Ha]; [vm_compute; reflexivity|]);
                   destruct Ha|]);
                destruct Hu ]|]);
         destruct Hin|]);
      destruct He
  end.
Qed.

(** The matcher on the text of a sequence of tokens, followed by
    nothing or by a blank and more: each unit group takes its token, or
    is passed over when the token is left out, and the match ends where
    the tokens end. *)
Lemma run_tokens (es : list entry) : forall ts rest c (k0 : cont (R:=R)) x,
  table_ok (R:=R) es ->
  tokens_ok (map entry_name es) ts = true ->
  payload_like rest = true ->
  k0 rest (groups_acc (map entry_name es) ts c) = Some x ->
  run (seq_of (map group_of es)) (tokens_text ts +:+ rest) c k0 = Some x.
Proof.
  induction es as [|e es IH]; intros [|t ts] rest c k0 x Htab Hok Hrest Hk;
    simpl in Hok; try discriminate.
  - exact Hk.
  - destruct Htab as (Hnum & Hlet & Htake & Hrej & Htab).
    apply andb_true_iff in Hok as [Ht Hok].
    cbn [map]. rewrite run_seq_cons. unfold group_of at 1.
    pose proof (tokens_tail_ok _ ts rest Hok Hrest) as Htail.
    destruct t as [[ds u]|].
    + apply token_ok_some in Ht as (Hds & Hlen & Hu).
      cbn [tokens_text token_text]. rewrite !append_assoc.
      eapply unit_group_take;
        [exact Hnum|exact Hds|exact Hlen|eapply spelled_letter; exact Hu|].
      apply Htake; [exact Hu|exact Htail|].
      apply IH; assumption.
    + cbn [tokens_text token_text].
      change (EmptyString +:+ tokens_text ts) with (tokens_text ts).
      cbn [groups_acc map] in Hk.
      pose proof (IH ts rest c k0 x Htab Hok Hrest Hk) as Hgo.
      destruct (tokens_head es ts rest Hok Hrest)
        as [Hnd|(e' & ds & u & t & He' & Hu & Hds & Htext & Ht')].
      * rewrite (unit_group_none _ _ _ _ _ _ _ Hnum Hnd). exact Hgo.
      * rewrite Htext in *.
        rewrite (unit_group_skip _ _ _ _ ds (u +:+ t) c _ Hnum Hlet Hds
                   (spelled_letter _ u t Hu)); [exact Hgo|].
        intros c'. apply (Hrej e' He'); assumption.
Qed.

End Table.

(** A match of the whole text of a sequence of tokens. *)
Lemma fullmatch_tokens (ts : list token) :
  tokens_ok unit_names ts = true ->
  fullmatch compiled (tokens_text ts)
  = Some (MatchObject compiled (tokens_text ts)
            (String.length (tokens_text ts)) (groups_acc unit_names ts ∅)).
Proof.
  intros Hok. unfold fullmatch. rewrite compiled_seq at 1.
  rewrite <- (append_nil_r (tokens_text ts)) at 1.
  apply run_tokens.
  - apply table_ok_unit_table.
  - rewrite table_names. exact Hok.
  - reflexivity.
  - rewrite table_names. reflexivity.
Qed.

(** A match of a sequence of tokens at the start of a text. *)
Lemma re_match_tokens (ts : list token) (rest : string) :
  tokens_ok unit_names ts = true -> payload_like rest = true ->
  re_match compiled (tokens_text ts +:+ rest)
  = Some (MatchObject compiled (tokens_text ts)
            (String.length (tokens_text ts)) (groups_acc unit_names ts ∅)).
Proof.
  intros Hok Hrest. unfold re_match. rewrite compiled_seq at 1.
  erewrite run_tokens.
  - reflexivity.
  - apply table_ok_unit_table.
  - rewrite table_names. exact Hok.
  - exact Hrest.
  - rewrite table_names, consumed_append, length_append.
    do 3 f_equal. lia.
Qed.

End TokenFacts.

(** ** What the pattern matches is a sequence of tokens *)

Module DecodeFacts.
Import Re ReSpec ReFacts GrammarSpec GrammarFacts SpellingSpec SpellingFacts.
Import SpelledMatch ShortTime ShortTimeSpec TokenSpec.
Import TextFacts TokenFacts MatcherTactics.

Lemma decodes_table (e : entry) : In e unit_table -> decodes e.
Proof.
  intros He s c s' c' H. simpl in He.
  repeat (destruct He as [<-|He];
    [cbv [entry_suffix snd plural lit] in H; invert_matches;
     (split; [reflexivity|]);
     match goal with
     | |- exists u, _ /\ ?s = u +:+ ?s' =>
         let p := prefix_of s s' in exists p; split; reflexivity
     end|]).
  destruct He.
Qed.

Lemma table_decodes_unit_table : table_decodes unit_table.
Proof.
  simpl.
  repeat match goal with
  | |- _ /\ _ => split
  | |- True => exact I
  | |- number_pattern _ _ => constructor
  | |- decodes _ => apply decodes_table; simpl; tauto
  end.
Qed.

(** the number of a unit group takes one digit at least *)
Lemma matches_number_inv (number : regex) (hi : nat) s c s' c' :
  number_pattern number hi -> matches number s c s' c' ->
  c' = c /\ exists ds, s = ds +:+ s' /\ all_digits ds = true
                       /\ (1 <= String.length ds <= hi)%nat.
Proof.
  intros Hn H.
  assert (Hk : digits_only number = Some hi) by (destruct Hn; reflexivity).
  assert (Hnull : nullable number = false) by (destruct Hn; reflexivity).
  destruct (matches_digits number hi _ _ _ _ Hk H) as (-> & ds & -> & Hds & Hlen).
  split; [reflexivity|]. exists ds. split; [reflexivity|]. split; [exact Hds|].
  apply matches_progress in H; [|exact Hnull].
  rewrite length_append in H. lia.
Qed.

(** a unit group matches nothing, or a token of its unit *)
Lemma matches_group_inv (e : entry) s c s' c' :
  number_pattern (entry_number e) (ceiling (entry_name e)) -> decodes e ->
  matches (group_of e) s c s' c' ->
  exists t, token_ok (entry_name e) t = true /\ s = token_text t +:+ s'
    /\ c' = groups_acc [entry_name e] [t] c.
Proof.
  intros Hn Hd H. unfold group_of, unit_group in H.
  inversion H as [ | | | | | |r s0 c0 s0' c0' Hc|r s0 c0| | | ]; subst.
  - inversion Hc as [ | | |r1 r2 s0 c0 s1 c1 s2 c2 H1 H2| | | | | | | ]; subst.
    inversion H1 as [ | | | | | | | | | |name r s0 c0 s1' c1' Hnum]; subst.
    apply (matches_number_inv _ _ _ _ _ _ Hn) in Hnum
      as (-> & ds & -> & Hds & Hlen).
    apply Hd in H2 as (-> & u & Hu & ->).
    rewrite consumed_append.
    exists (Some (ds, u)). split; [|split].
    + unfold token_ok. rewrite Hds, Hu.
      destruct Hlen as [L1 L2]. apply Nat.leb_le in L1, L2.
      rewrite L1, L2. reflexivity.
    + simpl. rewrite append_assoc. reflexivity.
    + reflexivity.
  - exists None. split; [reflexivity|]. split; reflexivity.
Qed.

Lemma matches_seq_cons (g : regex) (gs : list regex) s c s' c' :
  matches (seq_of (g :: gs)) s c s' c' ->
  exists s1 c1, matches g s c s1 c1 /\ matches (seq_of gs) s1 c1 s' c'.
Proof.
  destruct gs as [|g' gs]; simpl.
  - intros H. exists s', c'. split; [exact H|constructor].
  - intros H. inversion H; subst. eauto.
Qed.

(** Whatever the pattern matches is the text of a sequence of tokens,
    and the groups set are the digits of the tokens. *)
Lemma matches_tokens (es : list entry) : forall s c s' c',
  table_decodes es ->
  matches (seq_of (map group_of es)) s c s' c' ->
  exists ts, tokens_ok (map entry_name es) ts = true
    /\ s = tokens_text ts +:+ s'
    /\ c' = groups_acc (map entry_name es) ts c.
Proof.
  induction es as [|e es IH]; intros s c s' c' Htab H.
  - simpl in H. inversion H; subst. exists []. auto.
  - destruct Htab as (Hn & Hd & Htab). cbn [map] in H.
    apply matches_seq_cons in H as (s1 & c1 & Hg & Hrest).
    apply (matches_group_inv e _ _ _ _ Hn Hd) in Hg as (t & Ht & -> & ->).
    apply (IH _ _ _ _ Htab) in Hrest as (ts & Hts & -> & ->).
    exists (t :: ts). split; [|split].
    + simpl. rewrite Ht, Hts. reflexivity.
    + simpl. rewrite append_assoc. reflexivity.
    + destruct t as [[ds u]|]; reflexivity.
Qed.

(** a full match is a sequence of tokens *)
Lemma fullmatch_tokens_inv (argument : string) (m : match_object) :
  fullmatch compiled argument = Some m ->
  exists ts, tokens_ok unit_names ts = true
    /\ argument = tokens_text ts
    /\ groups m = groups_acc unit_names ts ∅.
Proof.
  intros (Hm & _ & _)%fullmatch_spec. rewrite compiled_seq in Hm.
  apply (matches_tokens _ _ _ _ _ table_decodes_unit_table) in Hm
    as (ts & Hts & -> & Hg).
  rewrite table_names in *. exists ts. rewrite append_nil_r. auto.
Qed.

(** a match of a prefix is a sequence of tokens, followed by the rest
    of the text *)
Lemma re_match_tokens_inv (argument : string) (m : match_object) :
  re_match compiled argument = Some m ->
  exists ts rest, tokens_ok unit_names ts = true
    /\ argument = tokens_text ts +:+ rest
    /\ groups m = groups_acc unit_names ts ∅
    /\ group0 m = tokens_text ts
    /\ m_end m = String.length (tokens_text ts).
Proof.
  intros (rest & Hm & _ & Hg0 & Hend)%re_match_spec.
  rewrite compiled_seq in Hm.
  apply (matches_tokens _ _ _ _ _ table_decodes_unit_table) in Hm
    as (ts & Hts & -> & Hg).
  rewrite table_names in *. exists ts, rest.
  rewrite consumed_append in Hg0. rewrite length_append in Hend.
  repeat split; auto. lia.
Qed.

(** the groups of a sequence of tokens, looked up *)
Lemma groups_acc_other (names : list string) (name : string) : forall ts c,
  ~ In name names -> groups_acc names ts c !! name = c !! name.
Proof.
  induction names as [|n names IH]; intros [|t ts] c Hn; try reflexivity.
  assert (n <> name /\ ~ In name names) as [H1 H2] by (simpl in Hn; tauto).
  destruct t as [[ds u]|]; simpl.
  - rewrite IH by assumption. apply lookup_insert_ne. exact H1.
  - apply IH. exact H2.
Qed.

Lemma groups_acc_lookup (names : list string) (name : string) : forall ts c,
  List.NoDup names ->
  groups_acc names ts c !! name
  = match find_digits names ts name with
    | Some ds => Some ds
    | None => c !! name
    end.
Proof.
  induction names as [|n names IH]; intros [|t ts] c Hnd; try reflexivity.
  apply List.NoDup_cons_iff in Hnd as [Hn Hnd]. simpl.
  destruct (String.eqb_spec n name) as [->|Hne].
  - destruct t as [[ds u]|].
    + rewrite groups_acc_other by assumption. apply lookup_insert_eq.
    + apply groups_acc_other. assumption.
  - destruct t as [[ds u]|].
    + rewrite IH by assumption.
      destruct (find_digits names ts name); [reflexivity|].
      apply lookup_insert_ne. exact Hne.
    + apply IH. assumption.
Qed.

Lemma unit_names_nodup : List.NoDup unit_names.
Proof.
  unfold unit_names.
  repeat (apply List.NoDup_cons; [simpl; intuition discriminate|]).
  apply List.NoDup_nil.
Qed.

(** the delta of a match of a sequence of tokens *)
Lemma offset_tokens (m : match_object) (ts : list token) :
  groups m = groups_acc unit_names ts ∅ -> offset m = tokens_delta ts.
Proof.
  intros Hg. unfold offset, tokens_delta, parsed, number. rewrite Hg.
  rewrite !(groups_acc_lookup unit_names _ ts ∅ unit_names_nodup).
  rewrite !lookup_empty.
  repeat match goal with
  | |- context [find_digits unit_names ts ?n] =>
      destruct (find_digits unit_names ts n)
  end; reflexivity.
Qed.

End DecodeFacts.

(** ** Durations on the time line *)

Module DurationFacts.
Import Re ReSpec Datetime DatetimeSpec DatetimeFacts CalendarSpec CalendarFacts.
Import Relativedelta RelativedeltaFacts ArithmeticFacts.
Import ShortTime ShortTimeSpec ShortTimeFacts DurationSpec.

Lemma lex_refl (xs : list Z) : lex xs xs = Eq.
Proof.
  induction xs as [|x xs IH]; [reflexivity|].
  simpl. rewrite Z.compare_refl. exact IH.
Qed.

Lemma lt_irrefl (a : datetime) : lt a a = false.
Proof. unfold lt, cmp. rewrite lex_refl. reflexivity. Qed.

Lemma lex_eq (xs : list Z) : forall ys, lex xs ys = Eq -> xs = ys.
Proof.
  induction xs as [|x xs IH]; intros [|y ys]; simpl; try discriminate;
    [reflexivity|].
  destruct (Z.compare_spec x y) as [->|H|H]; try discriminate.
  intros E. f_equal. apply IH. exact E.
Qed.

(** Two datetimes at the same place of the time line are the same. *)
Lemma key_inj (a b : datetime) :
  valid a -> valid b -> key a = key b -> a = b.
Proof.
  intros Ha Hb E. pose proof (cmp_key a b Ha Hb) as Hc.
  rewrite E, Z.compare_refl in Hc. unfold cmp, fields in Hc.
  apply lex_eq in Hc. destruct a, b. simpl in Hc. congruence.
Qed.

(** [datetime + relativedelta] for a delta without negative fields: the
    month is moved first, the day clipped to the month reached, and the
    days, hours, minutes, seconds and microseconds are then added on the
    time line. *)
Lemma radd_key_exact (rd : relativedelta) (other dt : datetime) :
  valid other ->
  0 <= years rd -> 0 <= months rd <= 11 ->
  radd rd other = Ok dt ->
  let base := in_month other (month_index other (years rd) (months rd)) in
  valid base /\ valid dt
  /\ key dt = key base
              + ((days rd * 86400 + hours rd * 3600 + minutes rd * 60
                  + seconds rd) * 1000000 + microseconds rd).
Proof.
  intros Hv Hy Hmo.
  pose proof Hv as Hv'. apply valid_fields in Hv' as [Hdate Htime].
  pose proof (check_date_fields_inv _ _ _ Hdate) as (Hy0 & Hm0 & Hd0).
  unfold radd.
  set (ym := if months rd =? 0 then _ else _).
  set (idx := month_index other (years rd) (months rd)).
  assert (Hym : ym = (idx / 12, idx mod 12 + 1)).
  { unfold ym, idx, month_index.
    destruct (Z.eqb_spec (months rd) 0) as [E|E].
    - rewrite E. f_equal; Z.to_euclidean_division_equations; lia.
    - destruct (Z.ltb_spec 12 (month other + months rd)).
      + f_equal; Z.to_euclidean_division_equations; lia.
      + destruct (Z.ltb_spec (month other + months rd) 1); [lia|].
        f_equal; Z.to_euclidean_division_equations; lia. }
  rewrite Hym. clear ym Hym.
  unfold Datetime.replace. simpl.
  rewrite monthrange_days_in_month.
  destruct (Datetime.new (idx / 12) (idx mod 12 + 1) _ _ _ _ _)
    as [base|] eqn:Hbase; [|discriminate].
  apply new_ok_fields in Hbase as [Hbase_eq Hbase_valid]. simpl.
  destruct (timedelta_new (days rd) _ _ _ _) as [td|] eqn:Htd; [|discriminate].
  apply timedelta_new_total in Htd as (T & _ & _). simpl.
  intros Hadd. apply (add_key base td dt Hbase_valid) in Hadd as [Hdt Hkey].
  unfold in_month. fold idx. rewrite <- Hbase_eq.
  split; [exact Hbase_valid|]. split; [exact Hdt|].
  rewrite Hkey, T. lia.
Qed.

Section Offset.
Variable m : match_object.
Hypothesis Hd : digits_within ceiling (groups m).

Lemma parsed_bounds :
  0 <= parsed m "years" < 10 /\ 0 <= parsed m "months" < 100
  /\ 0 <= parsed m "days" < 100000 /\ 0 <= parsed m "weeks" < 10000
  /\ 0 <= parsed m "hours" < 100000 /\ 0 <= parsed m "minutes" < 100000
  /\ 0 <= parsed m "seconds" < 100000.
Proof.
  pose proof (parsed_range m "years" Hd) as H1.
  pose proof (parsed_range m "months" Hd) as H2.
  pose proof (parsed_range m "days" Hd) as H3.
  pose proof (parsed_range m "weeks" Hd) as H4.
  pose proof (parsed_range m "hours" Hd) as H5.
  pose proof (parsed_range m "minutes" Hd) as H6.
  pose proof (parsed_range m "seconds" Hd) as H7.
  change (10 ^ Z.of_nat (ceiling "years")) with 10 in H1.
  change (10 ^ Z.of_nat (ceiling "months")) with 100 in H2.
  change (10 ^ Z.of_nat (ceiling "days")) with 100000 in H3.
  change (10 ^ Z.of_nat (ceiling "weeks")) with 10000 in H4.
  change (10 ^ Z.of_nat (ceiling "hours")) with 100000 in H5.
  change (10 ^ Z.of_nat (ceiling "minutes")) with 100000 in H6.
  change (10 ^ Z.of_nat (ceiling "seconds")) with 100000 in H7.
  tauto.
Qed.

(** The instant of a match is not before the reference time. *)
Lemma offset_not_before (utcnow d : datetime) :
  valid utcnow ->
  radd (offset m) utcnow = Ok d ->
  valid d /\ le utcnow d = true /\ lt d utcnow = false.
Proof.
  intros Hv Hadd.
  destruct parsed_bounds as (H1 & H2 & H3 & H4 & H5 & H6 & H7).
  destruct (new_short_bounded _ _ _ _ _ _ _ H1 H2 H3 H4 H5 H6 H7)
    as (B1 & B2 & B3 & B4 & B5 & B6 & B7).
  apply (radd_nonneg_le (offset m) utcnow d); unfold offset; try lia.
  - exact Hv.
  - exact Hadd.
Qed.

(** The instant of a match on the time line: the years and months move
    the month and clip the day, the other units are added as exact
    spans of time. *)
Lemma offset_exact (utcnow d : datetime) :
  valid utcnow ->
  radd (offset m) utcnow = Ok d ->
  let base := in_month utcnow
                (month_index utcnow (parsed m "years") (parsed m "months")) in
  valid base /\ valid d /\ key d = key base + elapsed_us m.
Proof.
  intros Hv Hadd.
  destruct parsed_bounds as (H1 & H2 & H3 & H4 & H5 & H6 & H7).
  destruct (new_short_bounded _ _ _ _ _ _ _ H1 H2 H3 H4 H5 H6 H7)
    as (B1 & B2 & B3 & B4 & B5 & B6 & B7).
  destruct (radd_key_exact (offset m) utcnow d Hv) as (Vb & Vd & K);
    unfold offset; try lia; [exact Hadd|].
  assert (Hidx : month_index utcnow (years (offset m)) (months (offset m))
                 = month_index utcnow (parsed m "years") (parsed m "months")).
  { unfold offset, Relativedelta.new, month_index.
    rewrite fix_nonneg by (simpl; lia).
    cbn [years months days hours minutes seconds microseconds].
    Z.to_euclidean_division_equations. lia. }
  rewrite Hidx in Vb, K.
  split; [exact Vb|]. split; [exact Vd|].
  rewrite K. f_equal. unfold elapsed_us, offset, Relativedelta.new.
  rewrite fix_nonneg by (simpl; lia).
  cbn [years months days hours minutes seconds microseconds].
  Z.to_euclidean_division_equations. lia.
Qed.

End Offset.

(** Moving by no month at all leaves a datetime as it is. *)
Lemma in_month_same (d : datetime) :
  valid d -> in_month d (month_index d 0 0) = d.
Proof.
  intros [Hdate _]%valid_fields.
  apply check_date_fields_inv in Hdate as (Hy & Hm & Hd).
  unfold in_month, month_index.
  replace ((year d + 0) * 12 + (month d - 1) + 0) with
    (year d * 12 + (month d - 1)) by lia.
  assert (E1 : (year d * 12 + (month d - 1)) / 12 = year d)
    by (Z.to_euclidean_division_equations; lia).
  assert (E2 : (year d * 12 + (month d - 1)) mod 12 + 1 = month d)
    by (Z.to_euclidean_division_equations; lia).
  rewrite E1, E2. rewrite Z.min_r by lia. destruct d; reflexivity.
Qed.

End DurationFacts.

(** ** [relativedelta(dt1, dt2)] comes to an end *)

Module BetweenFacts.
Import Datetime DatetimeSpec DatetimeFacts CalendarSpec CalendarFacts.
Import Relativedelta RelativedeltaFacts ArithmeticFacts.
Import DurationSpec DurationFacts.

(** the ordinal of a date is within the range of ordinals *)
Lemma toordinal_range (d : datetime) :
  valid d -> 1 <= toordinal d <= MAXORDINAL.
Proof.
  intros [Hdate _]%valid_fields.
  pose proof (ymd2ord_range _ _ _ Hdate) as R.
  pose proof (ymd2ord_year_span _ _ _ Hdate) as S.
  apply check_date_fields_inv in Hdate as (Hy & _ & _).
  pose proof (days_before_year_mono (year d + 1) 10000 ltac:(lia)) as M.
  change (days_before_year 10000) with MAXORDINAL in M.
  unfold toordinal. lia.
Qed.

(** [dt + timedelta(0)] is [dt] *)
Lemma add_zero (base : datetime) :
  valid base -> Datetime.add base (mkTimedelta 0 0 0) = Ok base.
Proof.
  intros Hv.
  assert (Hex : exists dt, Datetime.add base (mkTimedelta 0 0 0) = Ok dt).
  { pose proof (toordinal_range base Hv) as Hord.
    pose proof Hv as Hv'. apply valid_fields in Hv' as [Hdate Htime].
    apply check_time_fields_inv in Htime as (Hh & Hmi & Hse & Hmu).
    unfold MAXORDINAL in Hord. unfold Datetime.add.
    destruct (timedelta_new_range (toordinal base)
                (second base) (microsecond base) (minute base) (hour base))
      as (d1 & E1 & _ & Hs1 & Hus1); try lia.
    rewrite E1. apply timedelta_new_total in E1 as (T1 & _ & _).
    simpl. unfold timedelta_add.
    destruct (timedelta_new_range (td_days d1 + 0) (td_seconds d1 + 0)
                (td_microseconds d1 + 0) 0 0)
      as (d2 & E2 & _ & Hs2 & Hus2); try (unfold total_us in T1; lia).
    simpl. rewrite E2. apply timedelta_new_total in E2 as (T2 & _ & _).
    simpl.
    assert (Hrange : 1 <= td_days d2 <= MAXORDINAL)
      by (unfold MAXORDINAL, total_us in *; lia).
    destruct Hrange as [R1 R2].
    assert (R1' : (0 <? td_days d2) = true) by (apply Z.ltb_lt; lia).
    apply Z.leb_le in R2 as R2'. rewrite R1', R2'. simpl.
    pose proof (ord2ymd_valid (td_days d2) ltac:(lia)) as Hymd.
    destruct (ord2ymd (td_days d2)) as [[y m] d].
    unfold Datetime.new. rewrite Hymd. simpl.
    rewrite check_time_fields_intro; [simpl; eauto| | | |];
      Z.to_euclidean_division_equations; lia. }
  destruct Hex as [dt Hdt]. rewrite Hdt. f_equal.
  apply (add_key base _ dt Hv) in Hdt as [Vdt K].
  apply key_inj; [exact Vdt|exact Hv|]. rewrite K. unfold total_us. simpl. lia.
Qed.

(** a delta of months only, added to a datetime *)
Lemma radd_months (m : Z) (other : datetime) :
  valid other -> 0 <= m ->
  let idx := month_index other 0 m in
  idx / 12 <= 9999 ->
  radd (set_months zero m) other = Ok (in_month other idx)
  /\ valid (in_month other idx).
Proof.
  intros Hv Hm idx Hy.
  pose proof Hv as Hv'. apply valid_fields in Hv' as [Hdate Htime].
  pose proof (check_date_fields_inv _ _ _ Hdate) as (Hy0 & Hm0 & Hd0).
  assert (Hrd : exists ys ms,
    set_months zero m = mkRelativedelta ys ms 0 0 0 0 0
    /\ ys = m / 12 /\ ms = m mod 12).
  { unfold set_months, sign.
    destruct (Z.ltb_spec 11 (Z.abs m)).
    - destruct (Z.ltb_spec m 0); [lia|].
      rewrite !Z.mul_1_r. eauto.
    - exists 0, m. split; [reflexivity|].
      rewrite Z.div_small, Z.mod_small by lia. auto. }
  destruct Hrd as (ys & ms & -> & Hys & Hms).
  unfold radd. cbn [years months days hours minutes seconds microseconds].
  set (ym := if ms =? 0 then _ else _).
  assert (Hym : ym = (idx / 12, idx mod 12 + 1)).
  { unfold ym, idx, month_index.
    destruct (Z.eqb_spec ms 0) as [E|E].
    - f_equal; Z.to_euclidean_division_equations; lia.
    - destruct (Z.ltb_spec 12 (month other + ms)).
      + f_equal; Z.to_euclidean_division_equations; lia.
      + destruct (Z.ltb_spec (month other + ms) 1);
          [Z.to_euclidean_division_equations; lia|].
        f_equal; Z.to_euclidean_division_equations; lia. }
  rewrite Hym. clear ym Hym.
  assert (Hidx : 1 <= idx / 12 /\ 1 <= idx mod 12 + 1 <= 12).
  { unfold idx, month_index. Z.to_euclidean_division_equations. lia. }
  destruct Hidx as [Hy1 Hm1].
  pose proof (days_in_month_range (idx / 12) (idx mod 12 + 1) Hm1) as Hdim.
  unfold Datetime.replace. simpl.
  rewrite monthrange_days_in_month.
  assert (Hbase : Datetime.new (idx / 12) (idx mod 12 + 1)
                    (Z.min (days_in_month (idx / 12) (idx mod 12 + 1)) (day other))
                    (hour other) (minute other) (second other)
                    (microsecond other)
                  = Ok (in_month other idx)).
  { unfold Datetime.new. rewrite Htime.
    rewrite check_date_fields_intro; [reflexivity|lia|lia|lia]. }
  rewrite Hbase. simpl.
  assert (Vb : valid (in_month other idx)) by exact Hbase.
  split; [|exact Vb].
  change (timedelta_new 0 0 0 0 0) with (Ok (mkTimedelta 0 0 0)). simpl.
  apply add_zero. exact Vb.
Qed.

Lemma lt_by_month (a b : datetime) :
  1 <= month a <= 12 -> 1 <= month b <= 12 ->
  year b * 12 + month b < year a * 12 + month a ->
  lt a b = false.
Proof.
  intros Ha Hb H. unfold lt, cmp, fields. simpl.
  destruct (Z.compare_spec (year a) (year b)) as [E|E|E].
  - destruct (Z.compare_spec (month a) (month b)) as [E'|E'|E'];
      try reflexivity; lia.
  - lia.
  - reflexivity.
Qed.

Lemma not_lt_month (a b : datetime) :
  1 <= month a <= 12 -> 1 <= month b <= 12 ->
  lt a b = false ->
  year b * 12 + month b <= year a * 12 + month a.
Proof.
  intros Ha Hb. unfold lt, cmp, fields. simpl.
  destruct (Z.compare_spec (year a) (year b)) as [E|E|E]; try discriminate.
  - destruct (Z.compare_spec (month a) (month b)) as [E'|E'|E'];
      try discriminate; intros _; lia.
  - intros _. lia.
Qed.

(** the difference of two datetimes is within the range of
    [timedelta] *)
Lemma sub_total (a b : datetime) :
  valid a -> valid b -> exists td, Datetime.sub a b = Ok td.
Proof.
  intros Ha Hb.
  pose proof (toordinal_range a Ha) as Ra.
  pose proof (toordinal_range b Hb) as Rb.
  apply valid_fields in Ha as [_ Hta]. apply valid_fields in Hb as [_ Htb].
  apply check_time_fields_inv in Hta as (A1 & A2 & A3 & A4).
  apply check_time_fields_inv in Htb as (B1 & B2 & B3 & B4).
  unfold MAXORDINAL in *. unfold Datetime.sub, timedelta_new.
  match goal with
  | |- context [if ?c then _ else _] => destruct c eqn:E
  end; [|eauto].
  exfalso. apply Z.ltb_lt in E. revert E.
  Z.to_euclidean_division_equations. lia.
Qed.

(** [relativedelta(dt1, dt2)] for [dt1] not before [dt2]: the loop that
    adjusts the months runs at most once, and a delta is returned. *)
Lemma between_total (dt1 dt2 : datetime) :
  valid dt1 -> valid dt2 -> lt dt1 dt2 = false ->
  exists delta, between dt1 dt2 = Some (Ok delta).
Proof.
  intros H1 H2 Hlt.
  pose proof H1 as H1'. apply valid_fields in H1' as [Hd1 _].
  pose proof H2 as H2'. apply valid_fields in H2' as [Hd2 _].
  apply check_date_fields_inv in Hd1 as (Y1 & M1 & _).
  apply check_date_fields_inv in Hd2 as (Y2 & M2 & _).
  pose proof (not_lt_month dt1 dt2 M1 M2 Hlt) as Hm.
  unfold between. rewrite Hlt.
  set (m := (year dt1 - year dt2) * 12 + (month dt1 - month dt2)).
  assert (Hm0 : 0 <= m) by (unfold m; lia).
  assert (Hidx : forall k, 0 <= k <= m ->
            let idx := month_index dt2 0 k in
            idx / 12 <= 9999
            /\ year (in_month dt2 idx) * 12 + month (in_month dt2 idx)
               = year dt2 * 12 + month dt2 + k).
  { intros k Hk idx. unfold in_month, idx, month_index, m in *. simpl.
    Z.to_euclidean_division_equations. lia. }
  destruct (Hidx m ltac:(lia)) as [Hy Hym].
  destruct (radd_months m dt2 H2 Hm0 Hy) as [-> Vm]. 
  set (dtm := in_month dt2 (month_index dt2 0 m)) in *.
  assert (Hdone : forall mm d, valid d ->
    (exists delta,
      match Datetime.sub dt1 d with
      | Ok delta0 =>
          Some (Ok (fix_ (mkRelativedelta (years (set_months zero mm))
                            (months (set_months zero mm)) 0 0 0
                            (td_seconds delta0 + td_days delta0 * 86400)
                            (td_microseconds delta0))))
      | Raise e => Some (Raise e)
      end = Some (Ok delta))).
  { intros mm d Vd. destruct (sub_total dt1 d H1 Vd) as [td ->]. eauto. }
  cbn [adjust].
  destruct (lt dt1 dtm) eqn:Hc.
  - assert (Hm1 : 1 <= m).
    { destruct (Z.eq_dec m 0) as [E|E]; [|lia]. exfalso.
      unfold dtm in Hc. rewrite E, (in_month_same dt2 H2) in Hc. congruence. }
    destruct (Hidx (m + -1) ltac:(lia)) as [Hy' Hym'].
    destruct (radd_months (m + -1) dt2 H2 ltac:(lia) Hy') as [-> Vm'].
    set (dtm' := in_month dt2 (month_index dt2 0 (m + -1))) in *.
    assert (Hc' : lt dt1 dtm' = false).
    { pose proof Vm' as Vm''. apply valid_fields in Vm'' as [Hdm _].
      apply check_date_fields_inv in Hdm as (_ & Mm & _).
      apply lt_by_month; [exact M1|exact Mm|]. unfold m in Hym'. lia. }
    destruct (Z.to_nat (Z.abs m)); cbn [adjust]; rewrite Hc';
      destruct (Hdone (m + -1) dtm' Vm') as [delta Hdelta];
      exists delta; revert Hdelta;
      destruct (Datetime.sub dt1 dtm'); simpl; auto.
  - destruct (Hdone m dtm Vm) as [delta Hdelta].
    exists delta. revert Hdelta. destruct (Datetime.sub dt1 dtm); simpl; auto.
Qed.

End BetweenFacts.

(** ** Durations through [ShortTime] and [convert] *)

Module DurationTokens.
Import Re ReSpec ReFacts Datetime DatetimeSpec DatetimeFacts.
Import CalendarSpec CalendarFacts GrammarSpec GrammarFacts AcceptFacts.
Import SpellingSpec TokenSpec TokenFacts DecodeFacts TextFacts.
Import DurationSpec DurationFacts.
Import ShortTime ShortTimeSpec ShortTimeFacts UserFriendlyTime.

Lemma duration_inv (ts : list token) :
  duration ts = true ->
  tokens_ok unit_names ts = true /\ Str.truthy (tokens_text ts) = true.
Proof. unfold duration. intros [H1 H2]%andb_true_iff. auto. Qed.

(** the numbers of a match of a sequence of tokens *)
Lemma parsed_tokens (m : match_object) (ts : list token) (name : string) :
  groups m = groups_acc unit_names ts ∅ -> parsed m name = number ts name.
Proof.
  intros Hg. unfold parsed, number. rewrite Hg.
  rewrite (groups_acc_lookup unit_names name ts ∅ unit_names_nodup).
  rewrite lookup_empty. destruct (find_digits unit_names ts name); reflexivity.
Qed.

Lemma elapsed_tokens (m : match_object) (ts : list token) :
  groups m = groups_acc unit_names ts ∅ -> elapsed_us m = span_us ts.
Proof.
  intros Hg. unfold elapsed_us, span_us.
  rewrite !(parsed_tokens m ts _ Hg). reflexivity.
Qed.

(** [ShortTime] on the text of a duration *)
Lemma init_tokens (utcnow : datetime) (ts : list token) :
  duration ts = true ->
  ShortTime.__init__ utcnow (tokens_text ts)
  = (d <- Relativedelta.radd (tokens_delta ts) utcnow ;; Ok (ShortTime.mk d)).
Proof.
  intros [Hok Ht]%duration_inv. unfold ShortTime.__init__.
  rewrite (fullmatch_tokens ts Hok). cbn [group0]. rewrite Ht. simpl negb.
  cbv iota. rewrite of_kwargs_data by reflexivity.
  rewrite (offset_tokens _ ts) by reflexivity. reflexivity.
Qed.

(** the test of [convert] on a text that begins with a duration *)
Lemma short_prefix_tokens (ts : list token) (rest : string) :
  duration ts = true -> payload_like rest = true ->
  short_prefix (tokens_text ts +:+ rest)
  = Some (MatchObject compiled (tokens_text ts)
            (String.length (tokens_text ts)) (groups_acc unit_names ts ∅)).
Proof.
  intros [Hok Ht]%duration_inv Hrest. unfold short_prefix.
  rewrite (re_match_tokens ts rest Hok Hrest). cbn [group0]. rewrite Ht.
  reflexivity.
Qed.

(** [convert] on a text whose prefix match is that of a sequence of
    tokens *)
Lemma convert_tokens {A : Type}
    (nlp : string -> datetime -> option (list nlp_element))
    (converter : option (string -> result A))
    (utcnow : datetime) (ts : list token) (rest : string) (m : match_object) :
  short_prefix (tokens_text ts +:+ rest) = Some m ->
  pattern m = compiled ->
  groups m = groups_acc unit_names ts ∅ ->
  m_end m = String.length (tokens_text ts) ->
  convert nlp converter utcnow (tokens_text ts +:+ rest)
  = (d <- Relativedelta.radd (tokens_delta ts) utcnow ;;
     check_constraints converter
       (mk (tokens_text ts +:+ rest) d None utcnow) utcnow (Str.strip rest)).
Proof.
  intros Hs Hp Hg He. unfold convert. rewrite Hs.
  rewrite (of_kwargs_data m Hp), (offset_tokens m ts Hg), He, from_append.
  reflexivity.
Qed.

Lemma find_digits_zero (names : list string) (name : string) : forall ts,
  all_zero ts = true ->
  match find_digits names ts name with
  | Some ds => Str.int ds = 0
  | None => True
  end.
Proof.
  induction names as [|n names IH]; intros [|t ts] Hz; simpl; auto.
  simpl in Hz. apply andb_true_iff in Hz as [Ht Hz].
  destruct (String.eqb n name).
  - destruct t as [[ds u]|]; [|exact I]. apply Z.eqb_eq. exact Ht.
  - apply IH. exact Hz.
Qed.

Lemma number_zero (ts : list token) (name : string) :
  all_zero ts = true -> number ts name = 0.
Proof.
  intros Hz. unfold number.
  pose proof (find_digits_zero unit_names name ts Hz) as H.
  destruct (find_digits unit_names ts name); [exact H|reflexivity].
Qed.

(** the match object of a duration, and what is known of it *)
Lemma tokens_match (ts : list token) :
  duration ts = true ->
  exists m, fullmatch compiled (tokens_text ts) = Some m
    /\ groups m = groups_acc unit_names ts ∅
    /\ digits_within ceiling (groups m)
    /\ offset m = tokens_delta ts.
Proof.
  intros [Hok Ht]%duration_inv.
  pose proof (fullmatch_tokens ts Hok) as Hm.
  eexists. split; [exact Hm|]. split; [reflexivity|]. split.
  - eapply fullmatch_digits; eauto.
  - apply offset_tokens. reflexivity.
Qed.

(** Where a duration leads, on the time line. *)
Lemma tokens_exact (utcnow d : datetime) (ts : list token) :
  valid utcnow -> duration ts = true ->
  Relativedelta.radd (tokens_delta ts) utcnow = Ok d ->
  let base := in_month utcnow
                (month_index utcnow (number ts "years") (number ts "months")) in
  valid base /\ valid d /\ key d = key base + span_us ts.
Proof.
  intros Hv Hdur Hd.
  destruct (tokens_match ts Hdur) as (m & _ & Hg & Hdig & Hoff).
  rewrite <- Hoff in Hd.
  pose proof (offset_exact m Hdig utcnow d Hv Hd) as H.
  rewrite !(parsed_tokens m ts _ Hg), (elapsed_tokens m ts Hg) in H. exact H.
Qed.

End DurationTokens.

(** ** The short-duration grammar: what it accepts and what it rejects *)

Module ShortGrammar.
Import Re ReSpec ReFacts GrammarSpec GrammarFacts AcceptFacts.
Import SpellingSpec SpellingFacts SpelledMatch TextFacts.
Import TokenSpec TokenFacts DecodeFacts DurationTokens.
Import Datetime ShortTime ShortTimeSpec ShortTimeFacts UserFriendlyTime.
Import Examples DurationExamples.

(** X1.  The dictionary [data] that [ShortTime] and [convert] build from
    a match of the pattern has exactly the seven unit names as its keys,
    and each value is a natural number below ten to the number of digits
    the pattern allows for that unit: years at most 9, months at most
    99, weeks at most 9999, days, hours, minutes and seconds at most
    99999. *)
Theorem data_fields_bounded (argument : string) (m : match_object) :
  fullmatch compiled argument = Some m \/ re_match compiled argument = Some m ->
  forall name,
    (is_Some (data_of m !! name) <-> In name unit_names)
    /\ forall n, data_of m !! name = Some n ->
         0 <= n < 10 ^ Z.of_nat (ceiling name).
Proof.
  intros Hm name.
  assert (Hp : pattern m = compiled /\ digits_within ceiling (groups m)).
  { destruct Hm as [Hm|Hm].
    - split; [apply fullmatch_spec in Hm; tauto|].
      eapply fullmatch_digits; eauto.
    - split; [apply re_match_spec in Hm as (rest & _ & Hp & _); exact Hp|].
      eapply re_match_digits; eauto. }
  destruct Hp as [Hp Hd].
  assert (Hin : is_Some (data_of m !! name) -> In name unit_names).
  { intros [n Hn]. unfold data_of, groupdict in Hn.
    rewrite Hp, compiled_group_names, lookup_fmap in Hn.
    destruct (list_to_map _ !! name) as [v|] eqn:Hv; [|discriminate].
    apply elem_of_list_to_map_2 in Hv.
    apply list_elem_of_In, in_map_iff in Hv as (k & [= <- _] & Hk).
    exact Hk. }
  split.
  - split; [exact Hin|].
    intros Hk. rewrite (data_of_lookup m name Hp Hk). eauto.
  - intros n Hn.
    rewrite (data_of_lookup m name Hp (Hin (ex_intro _ n Hn))) in Hn.
    injection Hn as <-. apply parsed_range. exact Hd.
Qed.

Lemma data_fields_bounded_witness :
  (is_Some (data_of two_days_twelve_hours !! "hours") <-> In "hours" unit_names)
  /\ forall n, data_of two_days_twelve_hours !! "hours" = Some n ->
       0 <= n < 10 ^ Z.of_nat (ceiling "hours").
Proof.
  apply (data_fields_bounded "2d12h" two_days_twelve_hours).
  left. vm_compute. reflexivity.
Defined.

(** X2.  An argument that does not begin with a decimal digit, the
    empty argument included, is never a short duration: [ShortTime]
    raises [BadArgument("invalid time provided")], and the test of
    [convert] on the prefix match fails, so that the conversion goes
    on to the natural-language engine. *)
Theorem non_digit_not_short (utcnow : datetime) (argument : string) :
  starts_with_digit argument = false ->
  ShortTime.__init__ utcnow argument
  = Raise (BadArgument "invalid time provided")
  /\ short_prefix argument = None.
Proof.
  intros Hd. split.
  - apply init_no_match. intros m Hm.
    destruct (Str.truthy argument) eqn:Ht; [|reflexivity].
    apply fullmatch_spec in Hm as (Hm & _ & _).
    apply truthy_length in Ht.
    rewrite (matches_digit_led _ _ _ _ _ Hm compiled_digit_led) in Hd;
      [discriminate|simpl; lia].
  - destruct (short_prefix argument) as [m|] eqn:Hm; [|reflexivity].
    apply short_prefix_digit in Hm. congruence.
Qed.

Lemma non_digit_not_short_witness :
  ShortTime.__init__ jan15 "tomorrow"
  = Raise (BadArgument "invalid time provided")
  /\ short_prefix "tomorrow" = None.
Proof. apply (non_digit_not_short jan15 "tomorrow"). reflexivity. Defined.

(** X3.  An argument that begins with six or more decimal digits is
    never a short duration, whatever follows the digits: no unit takes
    more than five.  [ShortTime] raises
    [BadArgument("invalid time provided")] and the test of [convert] on
    the prefix match fails. *)
Theorem six_digits_not_short (utcnow : datetime) (ds t : string) :
  all_digits ds = true -> (5 < String.length ds)%nat ->
  ShortTime.__init__ utcnow (ds +:+ t)
  = Raise (BadArgument "invalid time provided")
  /\ short_prefix (ds +:+ t) = None.
Proof.
  intros Hds Hlen.
  assert (Hs : exists a s, ds +:+ t = String a s).
  { destruct ds as [|a ds]; [simpl in Hlen; lia|].
    rewrite append_cons. eauto. }
  split.
  - unfold ShortTime.__init__, fullmatch.
    rewrite run_compiled_long by assumption.
    destruct Hs as (a & s & ->). reflexivity.
  - unfold short_prefix, re_match.
    rewrite run_compiled_long by assumption.
    cbn [group0]. unfold consumed. rewrite Nat.sub_diag.
    destruct Hs as (a & s & ->). reflexivity.
Qed.

Lemma six_digits_not_short_witness :
  ShortTime.__init__ jan15 ("100000" +:+ "s")
  = Raise (BadArgument "invalid time provided")
  /\ short_prefix ("100000" +:+ "s") = None.
Proof.
  apply (six_digits_not_short jan15 "100000" "s"); [reflexivity|simpl; lia].
Defined.

(** X4.  [ShortTime] accepts nothing but durations.  When it returns,
    the argument is the text of a sequence of tokens, one number and
    one spelling of its unit for each unit present, in the order years,
    months, weeks, days, hours, minutes, seconds, with one token at
    least; and the instant is the reference time plus the
    [relativedelta] of the numbers written. *)
Theorem short_time_accepts_only_durations (utcnow : datetime)
    (argument : string) (s : ShortTime.t) :
  ShortTime.__init__ utcnow argument = Ok s ->
  exists ts, duration ts = true
    /\ argument = tokens_text ts
    /\ Relativedelta.radd (tokens_delta ts) utcnow = Ok (ShortTime.dt s).
Proof.
  intros (m & Hm & Ht & Hd)%init_ok_inv.
  pose proof (fullmatch_tokens_inv _ _ Hm) as (ts & Hok & -> & Hg).
  exists ts. split; [|split; [reflexivity|]].
  - unfold duration. rewrite Hok, Ht. reflexivity.
  - apply fullmatch_spec in Hm as (_ & Hp & _).
    rewrite (of_kwargs_data m Hp), (offset_tokens m ts Hg) in Hd. exact Hd.
Qed.

Lemma short_time_accepts_only_durations_witness :
  exists ts, duration ts = true
    /\ "1h30m" = tokens_text ts
    /\ Relativedelta.radd (tokens_delta ts) jan15 = Ok jan15_1100.
Proof.
  apply (short_time_accepts_only_durations jan15 "1h30m"
           (ShortTime.mk jan15_1100)).
  vm_compute. reflexivity.
Defined.

(** X5.  The short-duration path of [convert] is taken only for an
    argument that begins with a duration: when the test on the prefix
    match passes, the argument is the text of a sequence of tokens
    (one at least) followed by some text, the instant is the reference
    time plus the [relativedelta] of the numbers written, and the text
    that follows, stripped, is the remaining text that goes through
    [check_constraints]. *)
Theorem convert_short_only_durations {A : Type}
    (nlp : string -> datetime -> option (list nlp_element))
    (converter : option (string -> result A))
    (utcnow : datetime) (argument : string) (m : match_object) :
  short_prefix argument = Some m ->
  exists ts rest, duration ts = true
    /\ argument = tokens_text ts +:+ rest
    /\ convert nlp converter utcnow argument
       = (d <- Relativedelta.radd (tokens_delta ts) utcnow ;;
          check_constraints converter (mk argument d None utcnow) utcnow
            (Str.strip rest)).
Proof.
  intros Hs. pose proof Hs as Hs'. unfold short_prefix in Hs'.
  destruct (re_match compiled argument) as [m'|] eqn:Hm; [|discriminate].
  destruct (Str.truthy (group0 m')) eqn:Ht; [|discriminate].
  injection Hs' as ->.
  pose proof (re_match_tokens_inv _ _ Hm) as (ts & rest & Hok & -> & Hg & Hg0 & He).
  exists ts, rest. split; [|split; [reflexivity|]].
  - unfold duration. rewrite Hok, <- Hg0, Ht. reflexivity.
  - apply re_match_spec in Hm as (_ & _ & Hp & _).
    apply (convert_tokens nlp converter utcnow ts rest m Hs Hp Hg He).
Qed.

Lemma convert_short_only_durations_witness :
  exists ts rest, duration ts = true
    /\ "10m  tea " = tokens_text ts +:+ rest
    /\ convert nlp no_converter jan15 "10m  tea "
       = (d <- Relativedelta.radd (tokens_delta ts) jan15 ;;
          check_constraints no_converter (mk "10m  tea " d None jan15) jan15
            (Str.strip rest)).
Proof.
  apply (convert_short_only_durations nlp no_converter jan15 "10m  tea "
           ten_minutes).
  vm_compute. reflexivity.
Defined.

(** X6.  [ShortTime] accepts every duration.  For a sequence of tokens
    with one token at least, each a number of no more digits than its
    unit allows (one for years, two for months, four for weeks, five
    for the others) followed by a spelling of the unit ("years", "year"
    or "y"; "months", "month" or "mo"; "weeks", "week" or "w"; "days",
    "day" or "d"; "hours", "hour" or "h"; "minutes", "minute", "mins",
    "min" or "m"; "seconds", "second", "secs", "sec" or "s"), the
    instant is the reference time plus the [relativedelta] of the
    numbers written, a unit that is left out counting 0. *)
Theorem short_time_accepts_durations (utcnow : datetime) (ts : list token) :
  duration ts = true ->
  ShortTime.__init__ utcnow (tokens_text ts)
  = (d <- Relativedelta.radd (tokens_delta ts) utcnow ;; Ok (ShortTime.mk d)).
Proof.
  intros [Hok Ht]%duration_inv. unfold ShortTime.__init__.
  rewrite (fullmatch_tokens ts Hok). cbn [group0]. rewrite Ht. simpl negb.
  cbv iota. rewrite of_kwargs_data by reflexivity.
  rewrite (offset_tokens _ ts) by reflexivity. reflexivity.
Qed.

Lemma short_time_accepts_durations_witness :
  ShortTime.__init__ jan15 "1h30m" = Ok (ShortTime.mk jan15_1100).
Proof.
  etransitivity.
  - apply (short_time_accepts_durations jan15 an_hour_and_a_half).
    reflexivity.
  - vm_compute. reflexivity.
Defined.

(** X7.  In [convert], a duration followed by nothing, or by a blank
    and any text, takes the short-duration path: the instant is the
    reference time plus the [relativedelta] of the numbers written,
    and the text after the duration, stripped, is what goes through
    [check_constraints] as the remaining text. *)
Theorem convert_accepts_durations {A : Type}
    (nlp : string -> datetime -> option (list nlp_element))
    (converter : option (string -> result A))
    (utcnow : datetime) (ts : list token) (rest : string) :
  duration ts = true -> payload_like rest = true ->
  convert nlp converter utcnow (tokens_text ts +:+ rest)
  = (d <- Relativedelta.radd (tokens_delta ts) utcnow ;;
     check_constraints converter
       (mk (tokens_text ts +:+ rest) d None utcnow) utcnow (Str.strip rest)).
Proof.
  intros Hdur Hrest.
  apply (convert_tokens nlp converter utcnow ts rest _
           (short_prefix_tokens ts rest Hdur Hrest)); reflexivity.
Qed.

Lemma convert_accepts_durations_witness :
  convert nlp no_converter jan15 "1h30m do the thing"
  = Ok (mk "1h30m do the thing" jan15_1100
          (Some (Remaining "do the thing")) jan15).
Proof.
  etransitivity.
  - apply (convert_accepts_durations nlp no_converter jan15
             an_hour_and_a_half " do the thing"); reflexivity.
  - vm_compute. reflexivity.
Defined.

End ShortGrammar.

(** ** Instants: where a duration leads, and the past flag *)

Module Instants.
Import Re ReSpec ReFacts Datetime DatetimeSpec DatetimeFacts PdtContext.
Import CalendarSpec CalendarFacts HumanTimeSpec AcceptFacts TextFacts.
Import SpellingSpec TokenSpec TokenFacts DecodeFacts DurationTokens.
Import DurationSpec DurationFacts ConvertSpec.
Import ShortTime ShortTimeSpec ShortTimeFacts.
Import Examples DurationExamples.

(** what [ShortTime] returns is not before the reference time *)
Lemma init_ok_not_before (utcnow : datetime) (argument : string)
    (s : ShortTime.t) :
  valid utcnow ->
  ShortTime.__init__ utcnow argument = Ok s ->
  valid (ShortTime.dt s) /\ le utcnow (ShortTime.dt s) = true
  /\ lt (ShortTime.dt s) utcnow = false.
Proof.
  intros Hv (m & Hm & _ & Hd)%init_ok_inv.
  pose proof (fullmatch_digits _ _ Hm) as Hdig.
  apply fullmatch_spec in Hm as (_ & Hp & _).
  rewrite (of_kwargs_data m Hp) in Hd.
  exact (offset_not_before m Hdig utcnow _ Hv Hd).
Qed.

(** [HumanTime] on datetimes *)
Lemma human_time_valid
    (parseDT : string -> datetime -> datetime * pdtContext)
    (utcnow : datetime) (argument : string) (d : datetime) (st : pdtContext) :
  valid utcnow -> parseDT argument utcnow = (d, st) -> valid d ->
  HumanTime.__init__ parseDT utcnow argument
  = if hasDateOrTime st then
      Ok (HumanTime.mk (resolved_instant d st utcnow)
            (lt (resolved_instant d st utcnow) utcnow))
    else Raise (BadArgument invalid_time_hint).
Proof.
  intros Hv Hp Hd. unfold HumanTime.__init__, resolved_instant. rewrite Hp.
  destruct (hasDateOrTime st); simpl; [|reflexivity].
  destruct (hasTime st); simpl; [reflexivity|].
  rewrite (replace_time_of d utcnow Hd Hv). reflexivity.
Qed.

(** X8.  The instant [ShortTime] returns is never before the reference
    time: it is a datetime [dt] with [now <= dt], so [dt < now] is
    false. *)
Theorem short_time_not_before_now (utcnow : datetime) (argument : string)
    (s : ShortTime.t) :
  valid utcnow ->
  ShortTime.__init__ utcnow argument = Ok s ->
  valid (ShortTime.dt s) /\ le utcnow (ShortTime.dt s) = true
  /\ lt (ShortTime.dt s) utcnow = false.
Proof.
  intros Hv Hs.
  destruct (init_ok_inv utcnow argument s Hs) as (m & Hm & _ & Hd).
  pose proof (fullmatch_digits _ _ Hm) as Hdig.
  apply fullmatch_spec in Hm as (_ & Hp & _).
  rewrite (of_kwargs_data m Hp) in Hd.
  destruct (parsed_bounds m Hdig) as (H1 & H2 & H3 & H4 & H5 & H6 & H7).
  destruct (RelativedeltaFacts.new_short_bounded _ _ _ _ _ _ _
              H1 H2 H3 H4 H5 H6 H7) as (B1 & B2 & B3 & B4 & B5 & B6 & B7).
  apply (ArithmeticFacts.radd_nonneg_le (offset m) utcnow (ShortTime.dt s));
    unfold offset; try lia; assumption.
Qed.

Lemma short_time_not_before_now_witness :
  valid jan15_0940 /\ le jan15 jan15_0940 = true /\ lt jan15_0940 jan15 = false.
Proof.
  apply (short_time_not_before_now jan15 "10m" (ShortTime.mk jan15_0940));
    vm_compute; reflexivity.
Defined.

(** X9.  Where the instant of a duration lies on the time line.  The
    years and months written move the reference time by whole calendar
    months, the day being clipped to the length of the month reached
    and the time of day kept; the weeks, days, hours, minutes and
    seconds are then added as exact spans of time (a week is 7 days, a
    day 86400 seconds).  Without years and months the instant is
    exactly that span after the reference time. *)
Theorem duration_on_time_line (utcnow : datetime) (ts : list token)
    (s : ShortTime.t) :
  valid utcnow -> duration ts = true ->
  ShortTime.__init__ utcnow (tokens_text ts) = Ok s ->
  let base := in_month utcnow
                (month_index utcnow (number ts "years") (number ts "months")) in
  valid base
  /\ key (ShortTime.dt s) = key base + span_us ts
  /\ (number ts "years" = 0 -> number ts "months" = 0 ->
      key (ShortTime.dt s) = key utcnow + span_us ts).
Proof.
  intros Hv Hdur Hs. rewrite (init_tokens utcnow ts Hdur) in Hs.
  destruct (Relativedelta.radd (tokens_delta ts) utcnow) as [d|] eqn:Hd;
    [|discriminate].
  injection Hs as <-. simpl.
  destruct (tokens_exact utcnow d ts Hv Hdur Hd) as (Vb & _ & K).
  split; [exact Vb|]. split; [exact K|].
  intros Hy Hmo. rewrite K, Hy, Hmo, (in_month_same utcnow Hv). reflexivity.
Qed.

Lemma duration_on_time_line_witness :
  let base := in_month jan31
                (month_index jan31 (number one_month "years")
                   (number one_month "months")) in
  valid base
  /\ key feb29 = key base + span_us one_month
  /\ (number one_month "years" = 0 -> number one_month "months" = 0 ->
      key feb29 = key jan31 + span_us one_month).
Proof.
  apply (duration_on_time_line jan31 one_month (ShortTime.mk feb29));
    vm_compute; reflexivity.
Defined.

(** X10.  A duration of zero ("0s", "00m", "0d00m", ...) is accepted,
    and its instant is the reference time itself (the reference time
    being a datetime up to the year 9000). *)
Theorem zero_duration_is_now (utcnow : datetime) (ts : list token) :
  valid utcnow -> year utcnow <= 9000 ->
  duration ts = true -> all_zero ts = true ->
  ShortTime.__init__ utcnow (tokens_text ts) = Ok (ShortTime.mk utcnow).
Proof.
  intros Hv Hy Hdur Hz. rewrite (init_tokens utcnow ts Hdur).
  destruct (tokens_match ts Hdur) as (m & _ & _ & Hdig & Hoff).
  destruct (offset_in_range utcnow m Hv Hy Hdig) as [d Hd].
  rewrite Hoff in Hd. rewrite Hd. simpl. do 2 f_equal.
  destruct (tokens_exact utcnow d ts Hv Hdur Hd) as (_ & Vd & K).
  unfold span_us in K. rewrite !(number_zero ts _ Hz) in K.
  rewrite (in_month_same utcnow Hv) in K.
  apply key_inj; [exact Vd|exact Hv|lia].
Qed.

Lemma zero_duration_is_now_witness :
  ShortTime.__init__ jan15 "0d00m" = Ok (ShortTime.mk jan15).
Proof.
  apply (zero_duration_is_now jan15 nothing_at_all);
    try (vm_compute; reflexivity).
  vm_compute. discriminate.
Defined.

(** X11.  The past flag of [Time] tells the truth: whichever way the
    argument was read, [_past] is [dt < now].  On the short-duration
    path the flag is set to [False] without a comparison, and that is
    right because the instant is never before the reference time. *)
Theorem time_past_flag_truthful
    (parseDT : string -> datetime -> datetime * pdtContext)
    (utcnow : datetime) (argument : string) (r : HumanTime.t) :
  valid utcnow ->
  Time.__init__ parseDT utcnow argument = Ok r ->
  HumanTime._past r = lt (HumanTime.dt r) utcnow.
Proof.
  intros Hv. unfold Time.__init__.
  destruct (ShortTime.__init__ utcnow argument) as [s|e] eqn:Hs.
  - intros [= <-]. simpl.
    destruct (init_ok_not_before utcnow argument s Hv Hs) as (_ & _ & ->).
    reflexivity.
  - unfold HumanTime.__init__.
    destruct (parseDT argument utcnow) as [d st].
    destruct (negb (hasDateOrTime st)); [discriminate|].
    destruct (if negb (hasTime st) then _ else _) as [d'|]; simpl;
      [|discriminate].
    intros [= <-]. reflexivity.
Qed.

Lemma time_past_flag_truthful_witness :
  HumanTime._past (HumanTime.mk jan14 true)
  = lt (HumanTime.dt (HumanTime.mk jan14 true)) jan15.
Proof.
  apply (time_past_flag_truthful parseDT jan15 "yesterday"
           (HumanTime.mk jan14 true)); vm_compute; reflexivity.
Defined.

(** X12.  [FutureTime] rejects exactly the instants that are strictly
    before the reference time: when [Time] returns an instant,
    [FutureTime] raises [BadArgument("this time is in the past")] if
    [dt < now] and returns the same object otherwise; when [Time]
    raises, [FutureTime] raises the same exception. *)
Theorem future_time_rejects_past
    (parseDT : string -> datetime -> datetime * pdtContext)
    (utcnow : datetime) (argument : string) :
  valid utcnow ->
  FutureTime.__init__ parseDT utcnow argument
  = match Time.__init__ parseDT utcnow argument with
    | Ok r =>
        if lt (HumanTime.dt r) utcnow
        then Raise (BadArgument "this time is in the past")
        else Ok r
    | Raise e => Raise e
    end.
Proof.
  intros Hv. unfold FutureTime.__init__, Time.__init__.
  destruct (ShortTime.__init__ utcnow argument) as [s|e] eqn:Hs.
  - simpl.
    destruct (init_ok_not_before utcnow argument s Hv Hs) as (_ & _ & ->).
    reflexivity.
  - unfold HumanTime.__init__.
    destruct (parseDT argument utcnow) as [d st].
    destruct (negb (hasDateOrTime st)); [reflexivity|].
    destruct (if negb (hasTime st) then _ else _) as [d'|]; reflexivity.
Qed.

Lemma future_time_rejects_past_witness :
  FutureTime.__init__ parseDT jan15 "yesterday"
  = match Time.__init__ parseDT jan15 "yesterday" with
    | Ok r =>
        if lt (HumanTime.dt r) jan15
        then Raise (BadArgument "this time is in the past")
        else Ok r
    | Raise e => Raise e
    end.
Proof.
  apply (future_time_rejects_past parseDT jan15 "yesterday").
  vm_compute. reflexivity.
Defined.

(** X13.  [Time] fails only when the argument is no short duration and
    the engine finds neither a date nor a time in it, and then with the
    [BadArgument] of [HumanTime]: whatever [ShortTime] raised (its own
    [BadArgument], or an error of the date arithmetic) is swallowed.
    When the engine finds a date or a time, [Time] returns.  (The
    reference time and the engine's datetime being datetimes.) *)
Theorem time_fails_only_unparsed
    (parseDT : string -> datetime -> datetime * pdtContext)
    (utcnow : datetime) (argument : string) (d : datetime) (st : pdtContext) :
  valid utcnow -> parseDT argument utcnow = (d, st) -> valid d ->
  (hasDateOrTime st = true ->
     exists r, Time.__init__ parseDT utcnow argument = Ok r)
  /\ (forall e, Time.__init__ parseDT utcnow argument = Raise e ->
        e = BadArgument invalid_time_hint
        /\ hasDateOrTime st = false
        /\ exists e', ShortTime.__init__ utcnow argument = Raise e').
Proof.
  intros Hv Hp Hd.
  pose proof (human_time_valid parseDT utcnow argument d st Hv Hp Hd) as Hh.
  unfold Time.__init__.
  destruct (ShortTime.__init__ utcnow argument) as [s|e'] eqn:Hs.
  - split; [eauto|]. discriminate.
  - rewrite Hh. destruct (hasDateOrTime st).
    + split; [eauto|]. discriminate.
    + split; [discriminate|]. intros e [= <-]. eauto.
Qed.

Lemma time_fails_only_unparsed_witness :
  exists r, Time.__init__ parseDT jan15 "yesterday" = Ok r.
Proof.
  apply (proj1 (time_fails_only_unparsed parseDT jan15 "yesterday"
                  (mkDatetime 2024 1 14 9 0 0 0) (mkContext ACU_DAY)
                  ltac:(vm_compute; reflexivity) ltac:(vm_compute; reflexivity)
                  ltac:(vm_compute; reflexivity))).
  vm_compute. reflexivity.
Defined.

End Instants.

(** ** [UserFriendlyTime.convert]: the paths that do not need the engine
    to find a time *)

Module ConvertPaths.
Import Re ReSpec ReFacts Datetime DatetimeSpec DatetimeFacts PdtContext.
Import AcceptFacts TextFacts DurationFacts ConvertSpec.
Import ShortTime ShortTimeSpec ShortTimeFacts.
Import UserFriendlyTime ConstraintFacts ConvertFacts.
Import Examples DurationExamples.

Section Converter.
Context {A : Type}.
Variable nlp : string -> datetime -> option (list nlp_element).
Variable converter : option (string -> result A).

(** [check_constraints] on an instant that is not in the past *)
Lemma check_constraints_checked (raw : string) (d utcnow : datetime)
    (remaining : string) :
  lt d utcnow = false ->
  check_constraints converter (mk raw d None utcnow) utcnow remaining
  = checked converter raw d utcnow remaining.
Proof.
  intros Hlt. unfold check_constraints, checked. simpl. rewrite Hlt.
  destruct converter; reflexivity.
Qed.

(** X14.  On the short-duration path [convert] raises neither the
    past-time error nor an error of the date arithmetic (the reference
    time being a datetime up to the year 9000): the instant is the
    reference time plus the delta of the match, it is not before the
    reference time, and the result carries the text after the match with
    the white space at both ends removed, or what the secondary
    converter makes of that text.  Only the secondary converter can make
    this path fail. *)
Theorem convert_short_path (utcnow : datetime) (argument : string)
    (m : match_object) :
  valid utcnow -> year utcnow <= 9000 ->
  short_prefix argument = Some m ->
  exists d,
    Relativedelta.radd (offset m) utcnow = Ok d
    /\ le utcnow d = true
    /\ let remaining := Str.strip (Str.from (m_end m) argument) in
       Str.strip remaining = remaining
       /\ convert nlp converter utcnow argument
          = checked converter argument d utcnow remaining.
Proof.
  intros Hv Hy Hs.
  pose proof (short_prefix_inv _ _ Hs) as (Hm & _).
  pose proof (re_match_digits _ _ Hm) as Hdig.
  destruct (offset_in_range utcnow m Hv Hy Hdig) as [d Hd].
  destruct (offset_not_before m Hdig utcnow d Hv Hd) as (_ & Hle & Hlt).
  exists d. split; [exact Hd|]. split; [exact Hle|].
  split; [apply strip_idem|].
  unfold convert. rewrite Hs.
  apply re_match_spec in Hm as (rest & _ & Hp & _).
  rewrite (of_kwargs_data m Hp). cbn [now]. rewrite Hd. simpl bind.
  apply check_constraints_checked. exact Hlt.
Qed.

(** X15.  When the argument is no short duration and the engine finds
    no time in it (it returns [None] or nothing, or its first element
    has neither a date nor a time), the conversion does not fail on that
    account: the instant is the reference time itself, and the whole
    argument, after the normalisation of lines 134-143, is the remaining
    text (or what the secondary converter is given). *)
Theorem convert_without_time (utcnow : datetime) (argument : string) :
  short_prefix argument = None ->
  finds_no_time (nlp (normalize argument) utcnow) = true ->
  convert nlp converter utcnow argument
  = checked converter argument utcnow utcnow (normalize argument).
Proof.
  intros Hs Hn. unfold convert. rewrite Hs. cbn [now].
  pose proof (check_constraints_checked argument utcnow utcnow
                (normalize argument) (lt_irrefl utcnow)) as Hc.
  destruct (nlp (normalize argument) utcnow)
    as [[|[[[[d st] b] e] txt] rest]|]; try exact Hc.
  simpl in Hn. rewrite Hn. exact Hc.
Qed.

(** X16.  What a successful [convert] leaves in the object: [raw] is
    the argument as it was given, [now] is the clock reading, and [arg]
    is set, to a text when there is no secondary converter and to a
    value the converter returned for some text when there is one. *)
Theorem convert_result_shape (utcnow : datetime) (argument : string)
    (r : t (A:=A)) :
  convert nlp converter utcnow argument = Ok r ->
  raw r = argument /\ now r = utcnow
  /\ match converter with
     | None => exists text, arg r = Some (Remaining text)
     | Some c => exists text a, c text = Ok a /\ arg r = Some (Converted a)
     end.
Proof.
  intros (self & remaining & Hc & Hnow & Hraw)%convert_ok_checked.
  apply check_constraints_ok in Hc as (_ & Hr & _ & Hn & Ha).
  split; [congruence|]. split; [congruence|].
  destruct converter as [c|].
  - destruct Ha as (a & Hca & Harg). eauto.
  - eauto.
Qed.

End Converter.

Lemma convert_short_path_witness :
  exists d,
    Relativedelta.radd (offset ten_minutes) jan15 = Ok d
    /\ le jan15 d = true
    /\ let remaining := Str.strip (Str.from (m_end ten_minutes) "10m  tea ") in
       Str.strip remaining = remaining
       /\ convert nlp no_converter jan15 "10m  tea "
          = checked no_converter "10m  tea " d jan15 remaining.
Proof.
  apply (convert_short_path nlp no_converter jan15 "10m  tea " ten_minutes);
    [vm_compute; reflexivity|vm_compute; discriminate|vm_compute; reflexivity].
Defined.

Lemma convert_without_time_witness :
  convert nlp no_converter jan15 "for a while"
  = checked no_converter "for a while" jan15 jan15 (normalize "for a while").
Proof.
  apply (convert_without_time nlp no_converter jan15 "for a while");
    vm_compute; reflexivity.
Defined.

Lemma convert_result_shape_witness :
  raw (mk "10m tea" jan15_0940 (Some (Remaining (A:=unit) "tea")) jan15)
  = "10m tea"
  /\ now (mk "10m tea" jan15_0940 (Some (Remaining (A:=unit) "tea")) jan15)
     = jan15
  /\ exists text,
       arg (mk "10m tea" jan15_0940 (Some (Remaining (A:=unit) "tea")) jan15)
       = Some (Remaining text).
Proof.
  apply (convert_result_shape nlp no_converter jan15 "10m tea"
           (mk "10m tea" jan15_0940 (Some (Remaining "tea")) jan15)).
  vm_compute. reflexivity.
Defined.

End ConvertPaths.

(** ** The entry points together, and [human_timedelta] *)

Module EntryPoints.
Import Re ReSpec ReFacts Datetime DatetimeSpec DatetimeFacts PdtContext.
Import AcceptFacts TextFacts SpellingSpec TokenSpec TokenFacts DecodeFacts.
Import DurationTokens DurationSpec DurationFacts ConvertSpec.
Import ShortTime ShortTimeSpec ShortTimeFacts.
Import UserFriendlyTime ConstraintFacts BetweenFacts.
Import Examples DurationExamples.

(** X17.  A duration is understood alike by every entry point (the
    reference time being a datetime up to the year 9000): [ShortTime],
    [Time] and [FutureTime] return the reference time plus the
    [relativedelta] of the numbers written, [Time] and [FutureTime]
    with the past flag [False], and [convert] returns the same instant
    with an empty remaining text. *)
Theorem duration_everywhere {A : Type}
    (parseDT : string -> datetime -> datetime * pdtContext)
    (nlp : string -> datetime -> option (list nlp_element))
    (converter : option (string -> result A))
    (utcnow : datetime) (ts : list token) :
  valid utcnow -> year utcnow <= 9000 -> duration ts = true ->
  exists d,
    Relativedelta.radd (tokens_delta ts) utcnow = Ok d
    /\ le utcnow d = true
    /\ ShortTime.__init__ utcnow (tokens_text ts) = Ok (ShortTime.mk d)
    /\ Time.__init__ parseDT utcnow (tokens_text ts)
       = Ok (HumanTime.mk d false)
    /\ FutureTime.__init__ parseDT utcnow (tokens_text ts)
       = Ok (HumanTime.mk d false)
    /\ convert nlp converter utcnow (tokens_text ts)
       = checked converter (tokens_text ts) d utcnow EmptyString.
Proof.
  intros Hv Hy Hdur.
  destruct (tokens_match ts Hdur) as (m & _ & _ & Hdig & Hoff).
  destruct (offset_in_range utcnow m Hv Hy Hdig) as [d Hd].
  destruct (offset_not_before m Hdig utcnow d Hv Hd) as (_ & Hle & Hlt).
  rewrite Hoff in Hd.
  assert (Hs : ShortTime.__init__ utcnow (tokens_text ts)
               = Ok (ShortTime.mk d)).
  { rewrite (init_tokens utcnow ts Hdur), Hd. reflexivity. }
  assert (Ht : Time.__init__ parseDT utcnow (tokens_text ts)
               = Ok (HumanTime.mk d false)).
  { unfold Time.__init__. rewrite Hs. reflexivity. }
  exists d. split; [exact Hd|]. split; [exact Hle|]. split; [exact Hs|].
  split; [exact Ht|]. split.
  - unfold FutureTime.__init__. rewrite Ht. reflexivity.
  - pose proof (DurationTokens.convert_tokens nlp converter utcnow ts
                  EmptyString _
                  (short_prefix_tokens ts EmptyString Hdur eq_refl)
                  eq_refl eq_refl eq_refl) as Hc.
    rewrite append_nil_r in Hc. rewrite Hc, Hd. simpl bind.
    unfold check_constraints, checked. simpl. rewrite Hlt.
    destruct converter; reflexivity.
Qed.

Lemma duration_everywhere_witness :
  exists d,
    Relativedelta.radd (tokens_delta an_hour_and_a_half) jan15 = Ok d
    /\ le jan15 d = true
    /\ ShortTime.__init__ jan15 "1h30m" = Ok (ShortTime.mk d)
    /\ Time.__init__ parseDT jan15 "1h30m" = Ok (HumanTime.mk d false)
    /\ FutureTime.__init__ parseDT jan15 "1h30m" = Ok (HumanTime.mk d false)
    /\ convert nlp no_converter jan15 "1h30m"
       = checked no_converter "1h30m" d jan15 EmptyString.
Proof.
  apply (duration_everywhere parseDT nlp no_converter jan15
           an_hour_and_a_half);
    [vm_compute; reflexivity|vm_compute; discriminate|reflexivity].
Defined.

(** X18.  [human_timedelta] returns no text for any two datetimes: the
    loop inside [relativedelta(dt1, dt2)] comes to an end, the delta is
    computed, and the first attribute lookup of the rendering loop,
    [getattr(delta, attrs[0])] with the Danish display name, raises
    [AttributeError]. *)
Theorem human_timedelta_always_raises (utcnow dt : datetime)
    (source : option datetime) :
  valid dt -> valid (default utcnow source) ->
  HumanTimedelta.human_timedelta utcnow dt source
  = Some (Raise (AttributeError no_attribute_aar)).
Proof.
  intros Hdt Hnow. unfold HumanTimedelta.human_timedelta.
  set (now_ := default utcnow source) in *.
  destruct (gt dt now_) eqn:Hgt.
  - assert (Hlt : lt dt now_ = false).
    { unfold gt, lt in *. destruct (cmp dt now_); congruence. }
    destruct (between_total dt now_ Hdt Hnow Hlt) as [delta ->]. reflexivity.
  - assert (Hlt : lt now_ dt = false).
    { unfold gt, lt, cmp in *. rewrite (lex_opp (fields dt) (fields now_)).
      destruct (lex (fields dt) (fields now_)); simpl; congruence. }
    destruct (between_total now_ dt Hnow Hdt Hlt) as [delta ->]. reflexivity.
Qed.

Lemma human_timedelta_always_raises_witness :
  HumanTimedelta.human_timedelta jan15 jan14 None
  = Some (Raise (AttributeError no_attribute_aar)).
Proof.
  apply (human_timedelta_always_raises jan15 jan14 None);
    vm_compute; reflexivity.
Defined.

End EntryPoints.

(** ** The remaining text *)

Module RemainingFacts.
Import Str ReFacts RemainingSpec.

(** *** Slices *)

Lemma upto_from (n : nat) : forall s, upto n s +:+ from n s = s.
Proof.
  induction n as [|n IH]; intros [|a s]; try reflexivity.
  simpl. rewrite append_cons, IH. reflexivity.
Qed.

Lemma length_upto (n : nat) : forall s,
  String.length (upto n s) = Nat.min n (String.length s).
Proof.
  induction n as [|n IH]; intros [|a s]; try reflexivity.
  simpl. rewrite IH. reflexivity.
Qed.

Lemma from_after (n : nat) (s : string) : text_after n s (from n s).
Proof. exists (upto n s). rewrite upto_from, length_upto. auto. Qed.

Lemma upto_before (n : nat) (s : string) : text_before n s (upto n s).
Proof. exists (from n s). rewrite upto_from, length_upto. auto. Qed.

(** a text is cut at a given length in one way only *)
Lemma app_inj_length (a : string) : forall b c d,
  a +:+ c = b +:+ d -> String.length a = String.length b -> a = b /\ c = d.
Proof.
  induction a as [|x a IH]; intros [|y b] c d H L; simpl in L;
    try discriminate.
  - auto.
  - rewrite !append_cons in H. injection H as -> H.
    destruct (IH b c d H ltac:(lia)) as [-> ->]. auto.
Qed.

Lemma text_after_unique n s t1 t2 :
  text_after n s t1 -> text_after n s t2 -> t1 = t2.
Proof.
  intros (p1 & E1 & L1) (p2 & E2 & L2).
  rewrite E1 in E2 at 1.
  destruct (app_inj_length p1 p2 t1 t2 E2 ltac:(congruence)). assumption.
Qed.

Lemma text_before_unique n s t1 t2 :
  text_before n s t1 -> text_before n s t2 -> t1 = t2.
Proof.
  intros (p1 & E1 & L1) (p2 & E2 & L2).
  rewrite E1 in E2 at 1.
  destruct (app_inj_length t1 t2 p1 p2 E2 ltac:(congruence)). assumption.
Qed.

(** *** [lstrip(chars)] *)

Lemma mem_separator (a : ascii) : mem a " ,.!" = is_separator a.
Proof. reflexivity. Qed.

Lemma lstrip_chars_first (s : string) :
  is_a is_separator (first_char s) = false -> lstrip_chars " ,.!" s = s.
Proof.
  destruct s as [|a s]; [reflexivity|]. simpl first_char. simpl is_a.
  intros H. cbn [lstrip_chars]. rewrite mem_separator, H. reflexivity.
Qed.

Lemma lstrip_chars_dropped (dropped t : string) :
  all_chars is_separator dropped = true ->
  lstrip_chars " ,.!" (dropped +:+ t) = lstrip_chars " ,.!" t.
Proof.
  induction dropped as [|a d IH]; [reflexivity|]. cbn [all_chars].
  intros [Ha Hd]%andb_true_iff. rewrite append_cons. cbn [lstrip_chars].
  rewrite mem_separator, Ha. auto.
Qed.

(** [s.lstrip(" ,.!")] is [s] without its leading separators *)
Lemma lstrip_chars_spec (s : string) :
  without_leading is_separator s (lstrip_chars " ,.!" s).
Proof.
  induction s as [|a s (d & E & Hd & Hf)].
  - exists EmptyString. auto.
  - cbn [lstrip_chars]. rewrite mem_separator.
    destruct (is_separator a) eqn:Ha.
    + exists (String a d). rewrite append_cons, <- E. simpl. rewrite Ha. auto.
    + exists EmptyString. simpl. auto.
Qed.

(** and nothing else is *)
Lemma without_leading_unique (s t : string) :
  without_leading is_separator s t -> t = lstrip_chars " ,.!" s.
Proof.
  intros (d & -> & Hd & Hf).
  rewrite lstrip_chars_dropped by assumption.
  symmetry. apply lstrip_chars_first. exact Hf.
Qed.

(** *** [strip()] *)

Lemma isspace_blank (a : ascii) : isspace a = is_blank a.
Proof. destruct a as [[] [] [] [] [] [] [] []]; reflexivity. Qed.

Lemma lstrip_dropped (front t : string) :
  all_chars is_blank front = true -> lstrip (front +:+ t) = lstrip t.
Proof.
  induction front as [|a d IH]; [reflexivity|]. cbn [all_chars].
  intros [Ha Hd]%andb_true_iff. rewrite append_cons. cbn [lstrip].
  rewrite isspace_blank, Ha. auto.
Qed.

Lemma lstrip_first (s : string) :
  is_a is_blank (first_char s) = false -> lstrip s = s.
Proof.
  destruct s as [|a s]; [reflexivity|]. simpl first_char. simpl is_a.
  intros H. cbn [lstrip]. rewrite isspace_blank, H. reflexivity.
Qed.

Lemma lstrip_spec (s : string) :
  exists front, s = front +:+ lstrip s
    /\ all_chars is_blank front = true
    /\ is_a is_blank (first_char (lstrip s)) = false.
Proof.
  induction s as [|a s (d & E & Hd & Hf)].
  - exists EmptyString. auto.
  - cbn [lstrip]. rewrite isspace_blank.
    destruct (is_blank a) eqn:Ha.
    + exists (String a d). rewrite append_cons, <- E. simpl. rewrite Ha. auto.
    + exists EmptyString. simpl. auto.
Qed.

Lemma rstrip_cons (a : ascii) (s : string) :
  rstrip (String a s)
  = match rstrip s with
    | EmptyString => if isspace a then EmptyString else String a EmptyString
    | String b t => String a (String b t)
    end.
Proof. reflexivity. Qed.

Lemma rstrip_blank (back : string) :
  all_chars is_blank back = true -> rstrip back = EmptyString.
Proof.
  induction back as [|a b IH]; [reflexivity|]. cbn [all_chars].
  intros [Ha Hb]%andb_true_iff. rewrite rstrip_cons, (IH Hb), isspace_blank, Ha.
  reflexivity.
Qed.

Lemma last_char_cons (a b : ascii) (t : string) :
  last_char (String a (String b t)) = last_char (String b t).
Proof.
  cbn [last_char]. destruct (last_char t); reflexivity.
Qed.

Lemma rstrip_dropped (t : string) : forall back,
  all_chars is_blank back = true ->
  is_a is_blank (last_char t) = false ->
  rstrip (t +:+ back) = t.
Proof.
  induction t as [|a t IH]; intros back Hb Hl.
  - apply rstrip_blank. exact Hb.
  - rewrite append_cons, rstrip_cons.
    destruct t as [|b t].
    + change (EmptyString +:+ back) with back. rewrite (rstrip_blank back Hb).
      cbn [last_char is_a] in Hl. rewrite isspace_blank, Hl. reflexivity.
    + rewrite last_char_cons in Hl. rewrite (IH back Hb Hl). reflexivity.
Qed.

Lemma rstrip_spec (s : string) :
  exists back, s = rstrip s +:+ back
    /\ all_chars is_blank back = true
    /\ is_a is_blank (last_char (rstrip s)) = false.
Proof.
  induction s as [|a s (b & E & Hb & Hl)].
  - exists EmptyString. auto.
  - rewrite rstrip_cons. destruct (rstrip s) as [|c t] eqn:Hr.
    + change (EmptyString +:+ b) with b in E. subst b.
      rewrite isspace_blank. destruct (is_blank a) eqn:Ha.
      * exists (String a s). split; [reflexivity|]. split; [|reflexivity].
        cbn [all_chars]. rewrite Ha, Hb. reflexivity.
      * exists s. split; [reflexivity|]. split; [exact Hb|].
        cbn [last_char is_a]. exact Ha.
    + exists b. rewrite append_cons, <- E. split; [reflexivity|].
      split; [exact Hb|]. rewrite last_char_cons. exact Hl.
Qed.

Lemma rstrip_first (s : string) :
  is_a is_blank (first_char s) = false ->
  is_a is_blank (first_char (rstrip s)) = false.
Proof.
  destruct s as [|a s]; [reflexivity|]. intros Ha.
  cbn [first_char is_a] in Ha. rewrite rstrip_cons.
  destruct (rstrip s); [rewrite isspace_blank, Ha|]; cbn [first_char is_a];
    auto.
Qed.

(** [s.strip()] is [s] trimmed *)
Lemma strip_spec (s : string) : trimmed s (strip s).
Proof.
  unfold strip.
  destruct (lstrip_spec s) as (front & E & Hf & Hfirst).
  destruct (rstrip_spec (lstrip s)) as (back & E' & Hb & Hlast).
  exists front, back. split.
  - rewrite <- E'. exact E.
  - split; [exact Hf|]. split; [exact Hb|]. split; [|exact Hlast].
    apply rstrip_first. exact Hfirst.
Qed.

(** and nothing else is *)
Lemma trimmed_unique (s t : string) : trimmed s t -> t = strip s.
Proof.
  intros (front & back & -> & Hf & Hb & Hfirst & Hlast). unfold strip.
  rewrite lstrip_dropped by assumption.
  destruct t as [|a t].
  - change (EmptyString +:+ back) with back.
    assert (lstrip back = EmptyString) as ->.
    { rewrite <- (TextFacts.append_nil_r back), lstrip_dropped by assumption. reflexivity. }
    reflexivity.
  - rewrite lstrip_first.
    + symmetry. apply rstrip_dropped; assumption.
    + rewrite append_cons. exact Hfirst.
Qed.

(** *** The remaining text *)

Lemma remaining_by_spec_is (argument : string) (b e : nat) :
  remaining_of argument b e
    (UserFriendlyTimeSpec.remaining_by_spec argument b e).
Proof.
  unfold remaining_of, UserFriendlyTimeSpec.remaining_by_spec.
  destruct b as [|[|b]].
  - exists (from e argument). split; [apply from_after|apply lstrip_chars_spec].
  - exists (from (S e) argument).
    split; [apply from_after|apply lstrip_chars_spec].
  - exists (upto (S (S b)) argument).
    split; [apply upto_before|apply strip_spec].
Qed.

Lemma remaining_of_unique (argument : string) (b e : nat) (t : string) :
  remaining_of argument b e t ->
  t = UserFriendlyTimeSpec.remaining_by_spec argument b e.
Proof.
  unfold remaining_of, UserFriendlyTimeSpec.remaining_by_spec.
  destruct b as [|[|b]].
  - intros (post & Ha & Hw).
    rewrite (text_after_unique _ _ _ _ Ha (from_after e argument)) in Hw.
    apply without_leading_unique. exact Hw.
  - intros (post & Ha & Hw).
    rewrite (text_after_unique _ _ _ _ Ha (from_after (S e) argument)) in Hw.
    apply without_leading_unique. exact Hw.
  - intros (pre & Ha & Hw).
    rewrite (text_before_unique _ _ _ _ Ha (upto_before (S (S b)) argument))
      in Hw.
    apply trimmed_unique. exact Hw.
Qed.

End RemainingFacts.

Module RemainingClaims.
Import Datetime PdtContext UserFriendlyTime UserFriendlyTimeSpec.
Import ConvertFacts ConstraintFacts RemainingSpec RemainingFacts.
Import Examples RemainingExamples.

(** C2.  On the natural-language path, for a match that reports a date
    or time, there is exactly one remaining text [remaining_of] tells
    of: when the match begins at 0, the text from the match end on
    without its leading [' '], [','], ['.'], ['!']; when it begins at 1
    (between two double quotes), the text from behind the closing quote
    on, without the same leading characters; and otherwise, the match
    ending where the input ends, the text before the match start without
    the white space at its two ends.  Each time what is dropped consists
    of such characters only, and what is kept begins (and, trimmed,
    ends) with none.  Forwards: a well-placed match with its quotes in
    place and an adjusted candidate goes through [check_constraints]
    with that text.  Backwards: a successful conversion had such a
    match, and what it keeps as [arg] is that text, or what the
    secondary converter made of it. *)
Theorem remaining_text_stripped {A : Type}
    (nlp : string -> datetime -> option (list nlp_element))
    (converter : option (string -> result A))
    (utcnow : datetime) (argument : string)
    (d : datetime) (st : pdtContext) (b e : nat) (txt : string)
    (rest : list nlp_element) :
  short_prefix argument = None ->
  nlp (normalize argument) utcnow = Some ((d, st, b, e, txt) :: rest) ->
  hasDateOrTime st = true ->
  exists remaining : string,
    remaining_of (normalize argument) b e remaining
    /\ (forall other,
          remaining_of (normalize argument) b e other -> other = remaining)
    /\ (forall d2,
          well_placed (normalize argument) b e ->
          quotes_in_place (normalize argument) b e ->
          candidate d st utcnow = Ok d2 ->
          convert nlp converter utcnow argument
          = check_constraints converter (mk argument d2 None utcnow) utcnow
              remaining)
    /\ (forall r : t (A:=A),
          convert nlp converter utcnow argument = Ok r ->
          well_placed (normalize argument) b e
          /\ quotes_in_place (normalize argument) b e
          /\ match converter with
             | None => arg r = Some (Remaining remaining)
             | Some c =>
                 exists a, c remaining = Ok a /\ arg r = Some (Converted a)
             end).
Proof.
  intros Hshort Hnlp Hst.
  exists (remaining_by_spec (normalize argument) b e).
  split; [apply remaining_by_spec_is|].
  split; [intros other; apply remaining_of_unique|]. split.
  - intros d2 Hplace Hquote Hcand.
    eapply convert_nlp_reaches; eauto.
  - intros r Hr.
    destruct (convert_nlp_ok nlp converter _ _ _ _ _ _ _ _ _ Hshort Hnlp Hst Hr)
      as (Hplace & Hquote & d1 & d2 & _ & _ & Hc).
    apply check_constraints_ok in Hc as (_ & _ & _ & _ & Harg).
    split; [exact Hplace|]. split; [exact Hquote|exact Harg].
Qed.

(** C2 on 15 January 2024, once for each place of the match.
    [tomorrow,. ! do the thing ], the match being [0, 8): the four
    separators behind the phrase go, the blank at the end stays.
    ["3 days". , do the thing], the match being [1, 7): the closing
    quote and the separators behind it go.  Two blanks, [do the thing],
    a TAB, a blank and [tomorrow], the match being [16, 24): the blanks
    in front and the TAB and the blank behind go, the blanks inside
    stay. *)
Lemma remaining_text_stripped_witness :
  (remaining_of (normalize phrase_first) 0 8 "do the thing "
   /\ convert RemainingExamples.nlp no_converter jan15 phrase_first
      = Ok (mk phrase_first (mkDatetime 2024 1 16 9 30 0 0)
              (Some (Remaining "do the thing ")) jan15))
  /\ (remaining_of (normalize phrase_quoted) 1 7 "do the thing"
      /\ convert RemainingExamples.nlp no_converter jan15 phrase_quoted
         = Ok (mk phrase_quoted (mkDatetime 2024 1 18 9 30 0 0)
                 (Some (Remaining "do the thing")) jan15))
  /\ (remaining_of (normalize phrase_last) 16 24 "do the thing"
      /\ convert RemainingExamples.nlp no_converter jan15 phrase_last
         = Ok (mk phrase_last (mkDatetime 2024 1 16 9 30 0 0)
                 (Some (Remaining "do the thing")) jan15)).
Proof.
  assert (H0 : remaining_of (normalize phrase_first) 0 8 "do the thing ").
  { exists ",. ! do the thing ". split.
    - exists "tomorrow". split; reflexivity.
    - exists ",. ! ". repeat split; reflexivity. }
  assert (H1 : remaining_of (normalize phrase_quoted) 1 7 "do the thing").
  { exists ". , do the thing". split.
    - exists (String dquote ("3 days" +:+ String dquote EmptyString)).
      split; reflexivity.
    - exists ". , ". repeat split; reflexivity. }
  assert (H2 : remaining_of (normalize phrase_last) 16 24 "do the thing").
  { exists ("  do the thing" +:+ String "009" " "). split.
    - exists "tomorrow". split; reflexivity.
    - exists "  ", (String "009" " "). repeat split; reflexivity. }
  split; [|split].
  - split; [exact H0|].
    destruct (remaining_text_stripped RemainingExamples.nlp no_converter jan15
                phrase_first (mkDatetime 2024 1 16 9 0 0 0)
                (mkContext ACU_DAY) 0 8 "tomorrow" []
                eq_refl eq_refl eq_refl)
      as (remaining & _ & Honly & Hfwd & _).
    rewrite (Hfwd (mkDatetime 2024 1 16 9 30 0 0)).
    + rewrite <- (Honly _ H0). reflexivity.
    + left. reflexivity.
    + intros E. discriminate E.
    + reflexivity.
  - split; [exact H1|].
    destruct (remaining_text_stripped RemainingExamples.nlp no_converter jan15
                phrase_quoted (mkDatetime 2024 1 18 9 0 0 0)
                (mkContext ACU_DAY) 1 7 "3 days" []
                eq_refl eq_refl eq_refl)
      as (remaining & _ & Honly & Hfwd & _).
    rewrite (Hfwd (mkDatetime 2024 1 18 9 30 0 0)).
    + rewrite <- (Honly _ H1). reflexivity.
    + right. left. reflexivity.
    + intros _. split; reflexivity.
    + reflexivity.
  - split; [exact H2|].
    destruct (remaining_text_stripped RemainingExamples.nlp no_converter jan15
                phrase_last (mkDatetime 2024 1 16 9 0 0 0)
                (mkContext ACU_DAY) 16 24 "tomorrow" []
                eq_refl eq_refl eq_refl)
      as (remaining & _ & Honly & Hfwd & _).
    rewrite (Hfwd (mkDatetime 2024 1 16 9 30 0 0)).
    + rewrite <- (Honly _ H2). reflexivity.
    + right. right. reflexivity.
    + intros E. discriminate E.
    + reflexivity.
Defined.

End RemainingClaims.

(** ** Rounding up *)

Module RoundingFacts.
Import Datetime Relativedelta HumanTimedelta RoundingSpec.










End RoundingFacts.

Module RoundingClaims.
Import Datetime Relativedelta HumanTimedelta.
Import RoundingSpec RoundingFacts Examples RoundingExamples.



End RoundingClaims.
